(** * Profile inheritance and diff/merge engine of the file repository

    A shallow embedding of [FileRepository] (the file-based profile store of
    the settings synchroniser) and of the parts of [Repository] it relies on,
    followed by the properties of the diff/merge engine.

    Conventions of the embedding:
    - JavaScript arrays are lists; an in-place update of an array
      ([push], [splice]) is the list after the update;
    - JavaScript objects used as dictionaries are finite maps ([gmap]);
    - [async] methods are computations in a state-and-exception monad over
      the repository tree, the live editor and a journal of the host
      operations performed;
    - recursion along [extends] links is bounded by a fuel argument; running
      out of fuel is an outcome of its own ([Diverge]) and is never confused
      with a returned value or a thrown error. *)

From Stdlib Require Import ZArith.
From stdpp Require Import gmap strings list fin_maps.

Set Warnings "-register-all".
Open Scope string_scope.
Open Scope list_scope.

(** ** Extension identifiers and extension lists (repository.ts) *)

Record ExtensionId := mkExt { id : string; uuid : string }.

Record Builtin := mkBuiltin { builtin_disabled : option (list string);
                              builtin_enabled : option (list string) }.

Record ExtensionList := mkList {
  builtin : option Builtin;
  disabled : list ExtensionId;
  enabled : list ExtensionId;
  uninstall : option (list ExtensionId)
}.

Definition NIL_UUID : string := "00000000-0000-0000-0000-000000000000".

#[global] Instance ExtensionId_eq_dec : EqDecision ExtensionId.
Proof. solve_decision. Defined.

(** The ids of a list of extensions, in order. *)
Definition ids (l : list ExtensionId) : list string := id <$> l.

(** [l.some((item) => item.id === i)] *)
Definition hasId (i : string) (l : list ExtensionId) : bool :=
  existsb (fun item => bool_decide (id item = i)) l.

(** [index = l.findIndex((item) => item.id === i);
     if(index !== -1) l.splice(index, 1)]: the first item whose id is [i]
    is taken out, the others stay in place. *)
Fixpoint spliceFirst (i : string) (l : list ExtensionId) : list ExtensionId :=
  match l with
  | [] => []
  | item :: rest =>
      if bool_decide (id item = i) then rest else item :: spliceFirst i rest
  end.

(** [if(!l.some((item) => item.id === ext.id)) l.push(ext)] *)
Definition pushIfAbsent (ext : ExtensionId) (l : list ExtensionId) : list ExtensionId :=
  if hasId (id ext) l then l else l ++ [ext].

(** The state of [applyExtensionsDiff]: the two arrays it updates in place,
    [disabled] first. *)
Definition Lists : Type := list ExtensionId * list ExtensionId.

(** Body of [for(const ext of diff.disabled)]. *)
Definition stepDisabled (s : Lists) (ext : ExtensionId) : Lists :=
  (pushIfAbsent ext s.1, spliceFirst (id ext) s.2).

(** Body of [for(const ext of diff.enabled)]. *)
Definition stepEnabled (s : Lists) (ext : ExtensionId) : Lists :=
  (spliceFirst (id ext) s.1, pushIfAbsent ext s.2).

(** Body of [for(const { id } of diff.uninstall)]: the id is looked up in
    [disabled] first and in [enabled] only when it is not there. *)
Definition stepUninstall (s : Lists) (ext : ExtensionId) : Lists :=
  if hasId (id ext) s.1 then (spliceFirst (id ext) s.1, s.2)
  else (s.1, spliceFirst (id ext) s.2).

(** [applyExtensionsDiff({ disabled, enabled }, diff)].  The source updates
    the two arrays of the base in place and returns them in a fresh object
    that has neither [builtin] nor [uninstall]. *)
Definition applyExtensionsDiff (base diff : ExtensionList) : ExtensionList :=
  let s1 := foldl stepDisabled (disabled base, enabled base) (disabled diff) in
  let s2 := foldl stepEnabled s1 (enabled diff) in
  let s3 := match uninstall diff with
            | Some us => foldl stepUninstall s2 us
            | None => s2
            end in
  {| builtin := None; disabled := s3.1; enabled := s3.2; uninstall := None |}.

(** Modelled from the spec: [arrayDiff] of utils/array-diff, which is not
    part of the sources at hand; the asymmetric difference, the elements of
    the first array that do not occur in the second, in their order. *)
Definition arrayDiff (a b : list string) : list string :=
  filter (fun x => x ∉ b) a.

(** The dictionary [ids] of [serializeExtensions]:
    [for(const ext of [...]) ids[ext.id] = ext]. *)
Definition indexById (l : list ExtensionId) : gmap string ExtensionId :=
  foldl (fun m ext => <[id ext := ext]> m) ∅ l.

(** [names.map((id) => ids[id])].  Every name the source looks up was
    entered in the dictionary just before (see [indexById_lookup]), so the
    fallback record is never produced. *)
Definition resolveIds (m : gmap string ExtensionId) (names : list string) : list ExtensionId :=
  (fun i => default (mkExt i NIL_UUID) (m !! i)) <$> names.

(** The diff that [serializeExtensions] stores for an inheriting profile:
    [profile] is the effective list of the ancestor, [editor] the live one.
    The [uninstall] key is left out when the list is empty. *)
Definition computeExtensionsDiff (editor profile : ExtensionList) : ExtensionList :=
  let m := indexById (disabled profile ++ enabled profile ++ disabled editor ++ enabled editor) in
  let d := resolveIds m (arrayDiff (ids (disabled editor)) (ids (disabled profile))) in
  let e := resolveIds m (arrayDiff (ids (enabled editor)) (ids (enabled profile))) in
  let u := resolveIds m (arrayDiff (ids (disabled profile ++ enabled profile))
                                   (ids (disabled editor ++ enabled editor))) in
  {| builtin := None; disabled := d; enabled := e;
     uninstall := if bool_decide (0 < length u)%nat then Some u else None |}.

(** No id occurs twice in the list, neither inside one of the two arrays
    nor across them. *)
Definition wellFormed (l : ExtensionList) : Prop :=
  NoDup (ids (disabled l) ++ ids (enabled l)).

(** ** Values and strings of the host language *)

(** The values a key-value row or a YAML document can hold.  [undefined]
    is not a value of its own: a missing entry is [None]. *)
Inductive jsval :=
| JNull
| JBool (b : bool)
| JNum (n : Z)
| JStr (s : string)
| JArr (items : list jsval)
| JObj (fields : list (string * jsval)).

(** [deepEqual] of fast-equals: structural equality of two values. *)
Fixpoint deepEqual (a b : jsval) : bool :=
  let fix all2 (l1 l2 : list jsval) : bool :=
    match l1, l2 with
    | [], [] => true
    | x :: r1, y :: r2 => deepEqual x y && all2 r1 r2
    | _, _ => false
    end in
  let fix fields2 (l1 l2 : list (string * jsval)) : bool :=
    match l1, l2 with
    | [], [] => true
    | (k1, x) :: r1, (k2, y) :: r2 =>
        bool_decide (k1 = k2) && deepEqual x y && fields2 r1 r2
    | _, _ => false
    end in
  match a, b with
  | JNull, JNull => true
  | JBool x, JBool y => bool_decide (x = y)
  | JNum x, JNum y => bool_decide (x = y)
  | JStr x, JStr y => bool_decide (x = y)
  | JArr l1, JArr l2 => all2 l1 l2
  | JObj l1, JObj l2 => fields2 l1 l2
  | _, _ => false
  end.

(** [a === b] where one side comes from the live key-value store and the
    other from a stored document; [b] is the entry of a dictionary and
    [None] is [undefined].  Primitive values are identical when they are
    the same value; an array or an object is identical to itself only, and
    the two sides never share one: each comes out of its own parse. *)
Definition strictEqual (a : jsval) (b : option jsval) : bool :=
  match a, b with
  | JNull, Some JNull => true
  | JBool x, Some (JBool y) => bool_decide (x = y)
  | JNum x, Some (JNum y) => bool_decide (x = y)
  | JStr x, Some (JStr y) => bool_decide (x = y)
  | _, _ => false
  end.

Definition isPrimitive (a : jsval) : bool :=
  match a with
  | JArr _ | JObj _ => false
  | _ => true
  end.

(** [s.includes(pat)] *)
Fixpoint includes (pat s : string) : bool :=
  String.prefix pat s ||
  match s with
  | EmptyString => false
  | String _ rest => includes pat rest
  end.

(** [s.replaceAll(pat, rep)] for a non-empty [pat]: occurrences are
    replaced from left to right and do not overlap; [skip] counts the
    characters of the occurrence just replaced that are still to be
    dropped. *)
Fixpoint replaceAllFrom (pat rep : string) (skip : nat) (s : string) : string :=
  match s with
  | EmptyString => EmptyString
  | String c rest =>
      match skip with
      | S k => replaceAllFrom pat rep k rest
      | O => if String.prefix pat s
             then rep +:+ replaceAllFrom pat rep (String.length pat - 1) rest
             else String c (replaceAllFrom pat rep 0 rest)
      end
  end.

(** With the empty pattern, [rep] is put before every character and at the
    end. *)
Fixpoint interleave (rep s : string) : string :=
  match s with
  | EmptyString => rep
  | String c rest => rep +:+ String c (interleave rep rest)
  end.

Definition replaceAll (pat rep s : string) : string :=
  if bool_decide (pat = "") then interleave rep s else replaceAllFrom pat rep 0 s.

Definition EXTENSION_DATA_PATH : string := "%%EXTENSION_DATA_PATH%%".

(** The characters that are special after a dollar sign in a replacement
    text. *)
Definition dollar : Ascii.ascii := Ascii.ascii_of_nat 36.
Definition ampersand : Ascii.ascii := Ascii.ascii_of_nat 38.
Definition backquote : Ascii.ascii := Ascii.ascii_of_nat 96.
Definition apostrophe : Ascii.ascii := Ascii.ascii_of_nat 39.

(** The text that replaces one occurrence when the pattern is a string,
    which captures nothing: in the replacement text, [$$] stands for a
    dollar sign, [$&] for the occurrence, [$`] for the text before it and
    [$'] for the text after it; a dollar sign before anything else and
    every other character stand for themselves. *)
Fixpoint getSubstitution (matched before after template : string) : string :=
  match template with
  | EmptyString => EmptyString
  | String c tail =>
      if Ascii.eqb c dollar then
        match tail with
        | EmptyString => String c EmptyString
        | String d rest =>
            if Ascii.eqb d dollar then String dollar (getSubstitution matched before after rest)
            else if Ascii.eqb d ampersand then matched +:+ getSubstitution matched before after rest
            else if Ascii.eqb d backquote then before +:+ getSubstitution matched before after rest
            else if Ascii.eqb d apostrophe then after +:+ getSubstitution matched before after rest
            else String c (getSubstitution matched before after tail)
        end
      else String c (getSubstitution matched before after tail)
  end.

Fixpoint dropChars (n : nat) (s : string) : string :=
  match n, s with
  | S k, String _ rest => dropChars k rest
  | _, _ => s
  end.

(** [s.replaceAll(pat, template)] for a non-empty [pat], the replacement
    text being expanded at every occurrence; [before] is the part of the
    subject already passed. *)
Fixpoint replaceTemplateFrom (pat template : string) (skip : nat) (before s : string) : string :=
  match s with
  | EmptyString => EmptyString
  | String c rest =>
      let passed := before +:+ String c EmptyString in
      match skip with
      | S k => replaceTemplateFrom pat template k passed rest
      | O => if String.prefix pat s
             then getSubstitution pat before (dropChars (String.length pat) s) template
                  +:+ replaceTemplateFrom pat template (String.length pat - 1) passed rest
             else String c (replaceTemplateFrom pat template 0 passed rest)
      end
  end.

(** With the empty pattern there is an occurrence before every character
    and at the end. *)
Fixpoint interleaveTemplate (template before s : string) : string :=
  match s with
  | EmptyString => getSubstitution EmptyString before EmptyString template
  | String c rest =>
      getSubstitution EmptyString before s template
      +:+ String c (interleaveTemplate template (before +:+ String c EmptyString) rest)
  end.

(** [s.replaceAll(pat, template)] where the replacement is not known to be
    free of dollar signs. *)
Definition replaceAllTemplate (pat template s : string) : string :=
  if bool_decide (pat = "") then interleaveTemplate template "" s
  else replaceTemplateFrom pat template 0 "" s.

(** A file name with a directory part, as [globby('**')] gives for a file
    below a sub-directory. *)
Definition nested (name : string) : bool := includes "/" name.

(** The names every plain object answers to through its prototype;
    [object[name]] is then a function (for [__proto__], the prototype
    itself), which is truthy and equal to no string. *)
Definition objectPrototypeNames : list string :=
  ["constructor"; "hasOwnProperty"; "isPrototypeOf"; "propertyIsEnumerable";
   "toLocaleString"; "toString"; "valueOf"; "__proto__";
   "__defineGetter__"; "__defineSetter__"; "__lookupGetter__"; "__lookupSetter__"].

(** ** Stored documents *)

(** profile.yml *)
Record ProfileSettings := mkProfileSettings { extends : option string }.

(** [if(settings.extends)]: the link is followed when it is a non-empty
    string. *)
Definition extendsOf (settings : ProfileSettings) : option string :=
  match extends settings with
  | Some p => if bool_decide (p = "") then None else Some p
  | None => None
  end.

(** The value of one sync-policy field: a flag or a list of names. *)
Inductive PolicyValue :=
| PBool (b : bool)
| PStrings (l : list string).

#[global] Instance PolicyValue_eq_dec : EqDecision PolicyValue.
Proof. solve_decision. Defined.

(** [deepEqual(ancestors[property], value)] on policy fields; a field the
    ancestor does not have is [undefined], equal to no value. *)
Definition deepEqualPolicy (a : option PolicyValue) (b : PolicyValue) : bool :=
  bool_decide (a = Some b).

(** A sync-policy document (.sync.yml, config.yml): the fields it sets,
    among [keybindingsPerPlatform], [ignoredExtensions], [ignoredSettings]
    and [resources]. *)
Abbreviation ProfileSyncSettings := (gmap string PolicyValue).

(** What [yaml.parse] gives for a sync-policy file, which
    [loadProfileSyncSettings] returns as it is: [null] for an empty
    document, else the mapping of its fields. *)
Inductive SyncDocument :=
| NullDocument
| Fields (fields : ProfileSyncSettings).

(** [!ancestors]: a [null] document counts as no document. *)
Definition fieldsOf (document : SyncDocument) : option ProfileSyncSettings :=
  match document with
  | Fields fields => Some fields
  | NullDocument => None
  end.

(** One list of a stored extension document: old documents hold plain
    names, current ones id/uuid records
    ([Array<string | ExtensionId>]). *)
Inductive RawList :=
| RawNames (names : list string)
| RawRecords (items : list ExtensionId).

(** extensions.yml *)
Record ExtensionsDoc := mkExtensionsDoc {
  raw_builtin : option Builtin;
  raw_disabled : RawList;
  raw_enabled : RawList;
  raw_uninstall : option RawList
}.

(** ui-state.diff.yml *)
Record UIStateDiff := mkUIStateDiff {
  modified : gmap string jsval;
  removed : list string
}.

(** snippets.diff.yml is kept as the mapping the YAML parser returns, from
    key to list of names, so that reading a key the document does not have
    gives [undefined] as it does in the source. *)
Abbreviation SnippetsDiffDoc := (gmap string (list string)).

(** The files of one profile directory; [None] is a file (or, for
    [data_snippets], a directory) that does not exist. *)
Record ProfileDir := mkProfileDir {
  profile_yml : option ProfileSettings;
  sync_yml : option SyncDocument;
  config_yml : option SyncDocument;
  data_extensions_yml : option ExtensionsDoc;
  extensions_yml : option ExtensionsDoc;
  data_keybindings_json : option string;
  data_keybindings_macos_json : option string;
  data_keybindings_linux_json : option string;
  data_keybindings_windows_json : option string;
  data_settings_json : option string;
  data_ui_state_yml : option (gmap string jsval);
  data_ui_state_diff_yml : option UIStateDiff;
  data_snippets_diff_yml : option SnippetsDiffDoc;
  data_snippets : option (gmap string string)
}.

Definition emptyDir : ProfileDir :=
  mkProfileDir None None None None None None None None None None None None None None.

(** Replacing one file of a profile directory. *)
Definition set_profile_yml v (d : ProfileDir) :=
  mkProfileDir v (sync_yml d) (config_yml d) (data_extensions_yml d) (extensions_yml d)
    (data_keybindings_json d) (data_keybindings_macos_json d) (data_keybindings_linux_json d)
    (data_keybindings_windows_json d) (data_settings_json d) (data_ui_state_yml d)
    (data_ui_state_diff_yml d) (data_snippets_diff_yml d) (data_snippets d).
Definition set_sync_yml v (d : ProfileDir) :=
  mkProfileDir (profile_yml d) v (config_yml d) (data_extensions_yml d) (extensions_yml d)
    (data_keybindings_json d) (data_keybindings_macos_json d) (data_keybindings_linux_json d)
    (data_keybindings_windows_json d) (data_settings_json d) (data_ui_state_yml d)
    (data_ui_state_diff_yml d) (data_snippets_diff_yml d) (data_snippets d).
Definition set_config_yml v (d : ProfileDir) :=
  mkProfileDir (profile_yml d) (sync_yml d) v (data_extensions_yml d) (extensions_yml d)
    (data_keybindings_json d) (data_keybindings_macos_json d) (data_keybindings_linux_json d)
    (data_keybindings_windows_json d) (data_settings_json d) (data_ui_state_yml d)
    (data_ui_state_diff_yml d) (data_snippets_diff_yml d) (data_snippets d).
Definition set_data_extensions_yml v (d : ProfileDir) :=
  mkProfileDir (profile_yml d) (sync_yml d) (config_yml d) v (extensions_yml d)
    (data_keybindings_json d) (data_keybindings_macos_json d) (data_keybindings_linux_json d)
    (data_keybindings_windows_json d) (data_settings_json d) (data_ui_state_yml d)
    (data_ui_state_diff_yml d) (data_snippets_diff_yml d) (data_snippets d).
Definition set_extensions_yml v (d : ProfileDir) :=
  mkProfileDir (profile_yml d) (sync_yml d) (config_yml d) (data_extensions_yml d) v
    (data_keybindings_json d) (data_keybindings_macos_json d) (data_keybindings_linux_json d)
    (data_keybindings_windows_json d) (data_settings_json d) (data_ui_state_yml d)
    (data_ui_state_diff_yml d) (data_snippets_diff_yml d) (data_snippets d).
Definition set_data_keybindings_json v (d : ProfileDir) :=
  mkProfileDir (profile_yml d) (sync_yml d) (config_yml d) (data_extensions_yml d) (extensions_yml d)
    v (data_keybindings_macos_json d) (data_keybindings_linux_json d)
    (data_keybindings_windows_json d) (data_settings_json d) (data_ui_state_yml d)
    (data_ui_state_diff_yml d) (data_snippets_diff_yml d) (data_snippets d).
Definition set_data_keybindings_macos_json v (d : ProfileDir) :=
  mkProfileDir (profile_yml d) (sync_yml d) (config_yml d) (data_extensions_yml d) (extensions_yml d)
    (data_keybindings_json d) v (data_keybindings_linux_json d)
    (data_keybindings_windows_json d) (data_settings_json d) (data_ui_state_yml d)
    (data_ui_state_diff_yml d) (data_snippets_diff_yml d) (data_snippets d).
Definition set_data_keybindings_linux_json v (d : ProfileDir) :=
  mkProfileDir (profile_yml d) (sync_yml d) (config_yml d) (data_extensions_yml d) (extensions_yml d)
    (data_keybindings_json d) (data_keybindings_macos_json d) v
    (data_keybindings_windows_json d) (data_settings_json d) (data_ui_state_yml d)
    (data_ui_state_diff_yml d) (data_snippets_diff_yml d) (data_snippets d).
Definition set_data_keybindings_windows_json v (d : ProfileDir) :=
  mkProfileDir (profile_yml d) (sync_yml d) (config_yml d) (data_extensions_yml d) (extensions_yml d)
    (data_keybindings_json d) (data_keybindings_macos_json d) (data_keybindings_linux_json d)
    v (data_settings_json d) (data_ui_state_yml d)
    (data_ui_state_diff_yml d) (data_snippets_diff_yml d) (data_snippets d).
Definition set_data_settings_json v (d : ProfileDir) :=
  mkProfileDir (profile_yml d) (sync_yml d) (config_yml d) (data_extensions_yml d) (extensions_yml d)
    (data_keybindings_json d) (data_keybindings_macos_json d) (data_keybindings_linux_json d)
    (data_keybindings_windows_json d) v (data_ui_state_yml d)
    (data_ui_state_diff_yml d) (data_snippets_diff_yml d) (data_snippets d).
Definition set_data_ui_state_yml v (d : ProfileDir) :=
  mkProfileDir (profile_yml d) (sync_yml d) (config_yml d) (data_extensions_yml d) (extensions_yml d)
    (data_keybindings_json d) (data_keybindings_macos_json d) (data_keybindings_linux_json d)
    (data_keybindings_windows_json d) (data_settings_json d) v
    (data_ui_state_diff_yml d) (data_snippets_diff_yml d) (data_snippets d).
Definition set_data_ui_state_diff_yml v (d : ProfileDir) :=
  mkProfileDir (profile_yml d) (sync_yml d) (config_yml d) (data_extensions_yml d) (extensions_yml d)
    (data_keybindings_json d) (data_keybindings_macos_json d) (data_keybindings_linux_json d)
    (data_keybindings_windows_json d) (data_settings_json d) (data_ui_state_yml d)
    v (data_snippets_diff_yml d) (data_snippets d).
Definition set_data_snippets_diff_yml v (d : ProfileDir) :=
  mkProfileDir (profile_yml d) (sync_yml d) (config_yml d) (data_extensions_yml d) (extensions_yml d)
    (data_keybindings_json d) (data_keybindings_macos_json d) (data_keybindings_linux_json d)
    (data_keybindings_windows_json d) (data_settings_json d) (data_ui_state_yml d)
    (data_ui_state_diff_yml d) v (data_snippets d).
Definition set_data_snippets v (d : ProfileDir) :=
  mkProfileDir (profile_yml d) (sync_yml d) (config_yml d) (data_extensions_yml d) (extensions_yml d)
    (data_keybindings_json d) (data_keybindings_macos_json d) (data_keybindings_linux_json d)
    (data_keybindings_windows_json d) (data_settings_json d) (data_ui_state_yml d)
    (data_ui_state_diff_yml d) (data_snippets_diff_yml d) v.

(** ** The live editor *)

Record PackageJSON := mkPackageJSON {
  isBuiltin : bool;
  isUnderDevelopment : bool;
  package_uuid : string
}.

(** An entry of [vscode.extensions.all]. *)
Record HostExtension := mkHostExtension {
  extension_id : string;
  packageJSON : option PackageJSON
}.

(** The [package.json] of an extension directory. *)
Record Package := mkPackage {
  package_name : string;
  package_publisher : string;
  metadata_id : option string
}.

(** The [syncSettings] section of the workspace configuration:
    [inspect(key).globalValue] and [get(key)]. *)
Record WorkspaceConfiguration := mkConfig {
  globalValue : gmap string PolicyValue;
  effectiveValue : gmap string PolicyValue
}.

(** What the engine can observe and change of the editor it runs in. *)
Record Editor := mkEditor {
  extensions_all : list HostExtension;
  commands : list string;
  obsolete : option (gmap string bool);
  extension_packages : list (string * Package);
  builtin_packages : list Package;
  keybindings_json : option string;
  settings_json : option string;
  snippets : option (gmap string string);
  itemTable : option (gmap string jsval);
  configuration : WorkspaceConfiguration;
  answersYes : bool
}.

Definition set_keybindings_json v (e : Editor) :=
  mkEditor (extensions_all e) (commands e) (obsolete e) (extension_packages e)
    (builtin_packages e) v (settings_json e) (snippets e) (itemTable e)
    (configuration e) (answersYes e).
Definition set_settings_json v (e : Editor) :=
  mkEditor (extensions_all e) (commands e) (obsolete e) (extension_packages e)
    (builtin_packages e) (keybindings_json e) v (snippets e) (itemTable e)
    (configuration e) (answersYes e).
Definition set_snippets v (e : Editor) :=
  mkEditor (extensions_all e) (commands e) (obsolete e) (extension_packages e)
    (builtin_packages e) (keybindings_json e) (settings_json e) v (itemTable e)
    (configuration e) (answersYes e).
Definition set_itemTable v (e : Editor) :=
  mkEditor (extensions_all e) (commands e) (obsolete e) (extension_packages e)
    (builtin_packages e) (keybindings_json e) (settings_json e) (snippets e) v
    (configuration e) (answersYes e).

Inductive Platform := darwin | linux | win32 | otherPlatform.

(** The collaborators the engine calls but does not implement: content
    hashing, the JSON-with-comments helpers, the host's extension commands
    and the constants of the machine. *)
Class Collaborators := {
  sha1 : string → string;
  preprocessJSONC : string → string;
  comment : string → string;
  removeProperties : string → list string → string;
  extractProperties : string → list string → string;
  insertProperties : string → string → string;
  installExtension : string → Editor → bool * Editor;
  uninstallExtension : string → Editor → bool * Editor;
  enableExtension : string → Editor → bool * Editor;
  disableExtension : string → Editor → bool * Editor;
  platform : Platform;
  homedir : string;
  extensionDataUri : string
}.

(** ** The repository object and the monad of its methods *)

(** The operations on the live editor that the engine performs, in the
    order it performs them. *)
Inductive HostOp :=
| OpInstall (i : string)
| OpUninstall (i : string)
| OpEnable (i : string)
| OpDisable (i : string)
| OpWriteStateDB (rows : list (string * jsval))
| OpOutputKeybindings (data : string)
| OpOutputSettings (data : string)
| OpEmptySnippets
| OpCopySnippet (name : string)
| OpPrompt
| OpRestartApp
| OpReloadWindow.

Definition isMutation (op : HostOp) : bool :=
  match op with
  | OpPrompt => false
  | _ => true
  end.

Record World := mkWorld {
  _profile : string;
  _initialized : bool;
  settings_extensionId : string;
  profiles : gmap string ProfileDir;
  live : Editor;
  journal : list HostOp
}.

Definition set_profiles v (w : World) :=
  mkWorld (_profile w) (_initialized w) (settings_extensionId w) v (live w) (journal w).
Definition set_live v (w : World) :=
  mkWorld (_profile w) (_initialized w) (settings_extensionId w) (profiles w) v (journal w).
Definition record (op : HostOp) (w : World) :=
  mkWorld (_profile w) (_initialized w) (settings_extensionId w) (profiles w) (live w)
    (journal w ++ [op]).

Inductive Error :=
| NotInitialized
| SyncSettingsNotFound
| TypeError
| NoSuchFile.

Inductive Outcome (A : Type) :=
| Ok (a : A)
| Throw (e : Error)
| Diverge.
Arguments Ok {A} a.
Arguments Throw {A} e.
Arguments Diverge {A}.

Definition M (A : Type) : Type := World → Outcome A * World.

Definition ret {A} (a : A) : M A := fun w => (Ok a, w).
Definition throw {A} (e : Error) : M A := fun w => (Throw e, w).
Definition diverge {A} : M A := fun w => (Diverge, w).
Definition bind {A B} (m : M A) (k : A → M B) : M B :=
  fun w => match m w with
           | (Ok a, w') => k a w'
           | (Throw e, w') => (Throw e, w')
           | (Diverge, w') => (Diverge, w')
           end.
Definition gets {A} (f : World → A) : M A := fun w => (Ok (f w), w).
Definition modify (f : World → World) : M unit := fun w => (Ok tt, f w).

Notation "x <- m ;; k" := (bind m (fun x => k))
  (at level 100, m at next level, right associativity).
Notation "m ;;; k" := (bind m (fun _ => k))
  (at level 100, right associativity).

(** [for(const x of l) body(x)] *)
Fixpoint forEach {A} (l : list A) (body : A → M unit) : M unit :=
  match l with
  | [] => ret tt
  | x :: rest => body x ;;; forEach rest body
  end.

(** A path below the repository root: the profile it belongs to and the
    file of that profile's directory it names. *)
Record RepoPath (A : Type) := mkPath {
  path_profile : string;
  path_get : ProfileDir → option A;
  path_set : option A → ProfileDir → ProfileDir
}.
Arguments mkPath {A}.
Arguments path_profile {A}.
Arguments path_get {A}.
Arguments path_set {A}.

Definition directory (p : string) (w : World) : ProfileDir :=
  default emptyDir (profiles w !! p).

(** [exists(path)] *)
Definition exists_ {A} (path : RepoPath A) : M bool :=
  gets (fun w => bool_decide (is_Some (path_get path (directory (path_profile path) w)))).

(** [fse.readFile(path)], followed by the parse of the document. *)
Definition readFile {A} (path : RepoPath A) : M A :=
  d <- gets (directory (path_profile path)) ;;
  match path_get path d with
  | Some a => ret a
  | None => throw NoSuchFile
  end.

Definition update {A} (path : RepoPath A) (v : option A) : M unit :=
  modify (fun w => set_profiles
    (<[path_profile path := path_set path v (directory (path_profile path) w)]> (profiles w)) w).

(** [fse.writeFile(path, data)] and [fse.outputFile(path, data)] *)
Definition writeFile {A} (path : RepoPath A) (data : A) : M unit := update path (Some data).

(** [fse.remove(path)] *)
Definition remove {A} (path : RepoPath A) : M unit := update path None.

(** [globby('**', { cwd: path })]: the names of the files of a directory,
    none when the directory does not exist. *)
Definition globby {A} (path : RepoPath (gmap string A)) : M (list string) :=
  d <- gets (directory (path_profile path)) ;;
  ret (match path_get path d with
       | Some files => (map_to_list files).*1
       | None => []
       end).

(** [fse.readFile(path.join(dir, file))] *)
Definition readFileIn {A} (dir : RepoPath (gmap string A)) (file : string) : M A :=
  d <- gets (directory (path_profile dir)) ;;
  match path_get dir d ≫= (fun files => files !! file) with
  | Some a => ret a
  | None => throw NoSuchFile
  end.

(** [fse.ensureDir(path.join(root, 'profiles', profile))] *)
Definition ensureDir (profile : string) : M unit :=
  modify (fun w => set_profiles (<[profile := directory profile w]> (profiles w)) w).

(** *** Paths *)

Definition getProfileSettingsPath (profile : string) : RepoPath ProfileSettings :=
  mkPath profile profile_yml set_profile_yml.
Definition getProfileSyncSettingsPath (profile : string) : RepoPath SyncDocument :=
  mkPath profile sync_yml set_sync_yml.
Definition getProfileSyncSettingsOldPath (profile : string) : RepoPath SyncDocument :=
  mkPath profile config_yml set_config_yml.
Definition getProfileExtensionsPath (profile : string) : RepoPath ExtensionsDoc :=
  mkPath profile data_extensions_yml set_data_extensions_yml.
Definition getProfileExtensionsOldPath (profile : string) : RepoPath ExtensionsDoc :=
  mkPath profile extensions_yml set_extensions_yml.
Definition getProfileUserSettingsPath (profile : string) : RepoPath string :=
  mkPath profile data_settings_json set_data_settings_json.
Definition getProfileUIStatePath (profile : string) : RepoPath (gmap string jsval) :=
  mkPath profile data_ui_state_yml set_data_ui_state_yml.
Definition getDiffUIStatePath (profile : string) : RepoPath UIStateDiff :=
  mkPath profile data_ui_state_diff_yml set_data_ui_state_diff_yml.
Definition getDiffSnippetsPath (profile : string) : RepoPath SnippetsDiffDoc :=
  mkPath profile data_snippets_diff_yml set_data_snippets_diff_yml.
Definition getProfileSnippetsPath (profile : string) : RepoPath (gmap string string) :=
  mkPath profile data_snippets set_data_snippets.

(** The truth value of a policy field used as a condition. *)
Definition truthy (v : PolicyValue) : bool :=
  match v with
  | PBool b => b
  | PStrings _ => true
  end.

Section Repository.
Context {host : Collaborators}.

Definition getProfileKeybindingsPath (profile : string) (keybindingsPerPlatform : PolicyValue)
  : RepoPath string :=
  if truthy keybindingsPerPlatform then
    match platform with
    | darwin => mkPath profile data_keybindings_macos_json set_data_keybindings_macos_json
    | linux => mkPath profile data_keybindings_linux_json set_data_keybindings_linux_json
    | win32 => mkPath profile data_keybindings_windows_json set_data_keybindings_windows_json
    | otherPlatform => mkPath profile data_keybindings_json set_data_keybindings_json
    end
  else mkPath profile data_keybindings_json set_data_keybindings_json.

(** *** Reading a profile *)

(** [checkInitialized] (repository.ts) *)
Definition checkInitialized : M unit :=
  i <- gets _initialized ;;
  if i then ret tt else throw NotInitialized.

(** [loadProfileSettings]: the parsed profile.yml, [{}] when the file is
    missing or empty. *)
Definition loadProfileSettings (profile : string) : M ProfileSettings :=
  let path := getProfileSettingsPath profile in
  e <- exists_ path ;;
  if e then readFile path else ret (mkProfileSettings None).

(** The [while(settings.extends)] loop of [getAncestorProfile]. *)
Fixpoint ancestorLoop (fuel : nat) (profile : string) (settings : ProfileSettings) : M string :=
  match extendsOf settings with
  | Some parent =>
      match fuel with
      | O => diverge
      | S n => settings' <- loadProfileSettings parent ;; ancestorLoop n parent settings'
      end
  | None => ret profile
  end.

Definition getAncestorProfile (fuel : nat) (profile : string) : M string :=
  settings <- loadProfileSettings profile ;;
  ancestorLoop fuel profile settings.

(** [loadProfileSyncSettings]: the document at the current path, else at
    the legacy path, else the one of the profile it extends; the error
    when there is none and nothing is extended.  The parsed document is
    returned as it is, [null] included. *)
Fixpoint loadProfileSyncSettings (fuel : nat) (profile : string) : M SyncDocument :=
  match fuel with
  | O => diverge
  | S n =>
      let path := getProfileSyncSettingsPath profile in
      e <- exists_ path ;;
      if e then readFile path else
        let path := getProfileSyncSettingsOldPath profile in
        e <- exists_ path ;;
        if e then readFile path else
          settings <- loadProfileSettings profile ;;
          match extendsOf settings with
          | Some parent => loadProfileSyncSettings n parent
          | None => throw SyncSettingsNotFound
          end
  end.

(** [syncSettings.key]: reading a property of [null] throws a TypeError. *)
Definition field (syncSettings : SyncDocument) (key : string) : M (option PolicyValue) :=
  match syncSettings with
  | Fields fields => ret (fields !! key)
  | NullDocument => throw TypeError
  end.

(** [raw.length > 0 && typeof raw[0] === 'string'
      ? raw.map((id) => ({ id, uuid: NIL_UUID })) : raw] *)
Definition namesToRecords (names : list string) : list ExtensionId :=
  (fun i => mkExt i NIL_UUID) <$> names.

Definition decodeList (raw : RawList) : list ExtensionId :=
  match raw with
  | RawNames names => namesToRecords names
  | RawRecords items => items
  end.

(** The [uninstall] entry of the object [extensions] that
    [listProfileExtensions] builds for an inheriting profile.  When the
    stored uninstall list starts with a name, the source maps over
    [raw.disabled].  If that list holds records, each of them lands in the
    [id] field of an entry; such an [id] is identical to no id of the merge,
    the entries change nothing in [applyExtensionsDiff], and the embedding
    leaves them out. *)
Definition decodeUninstall (raw : ExtensionsDoc) : option (list ExtensionId) :=
  match raw_uninstall raw with
  | None => None
  | Some (RawNames (_ :: _)) =>
      Some (match raw_disabled raw with
            | RawNames names => namesToRecords names
            | RawRecords _ => []
            end)
  | Some (RawNames []) => Some []
  | Some (RawRecords items) => Some items
  end.

(** The object [extensions] decoded from the document of an inheriting
    profile. *)
Definition decodeDiffDocument (raw : ExtensionsDoc) : ExtensionList :=
  {| builtin := None;
     disabled := decodeList (raw_disabled raw);
     enabled := decodeList (raw_enabled raw);
     uninstall := decodeUninstall raw |}.

(** [listProfileExtensions]: the stored list of a profile that extends
    nothing; for an inheriting profile, its document applied as a diff to
    the list of its ancestor, or that list alone when it has no
    document. *)
Fixpoint listProfileExtensions (fuel : nat) (profile : string) : M ExtensionList :=
  match fuel with
  | O => diverge
  | S n =>
      settings <- loadProfileSettings profile ;;
      let dataPath := getProfileExtensionsPath profile in
      match extendsOf settings with
      | None =>
          let decode (path : RepoPath ExtensionsDoc) : M ExtensionList :=
            raw <- readFile path ;;
            ret {| builtin := None;
                   disabled := decodeList (raw_disabled raw);
                   enabled := decodeList (raw_enabled raw);
                   uninstall := None |} in
          e <- exists_ dataPath ;;
          if e then decode dataPath else
            let dataPath := getProfileExtensionsOldPath profile in
            e <- exists_ dataPath ;;
            if e then decode dataPath
            else ret {| builtin := None; disabled := []; enabled := []; uninstall := None |}
      | Some parent =>
          let merge (path : RepoPath ExtensionsDoc) : M ExtensionList :=
            raw <- readFile path ;;
            let extensions := decodeDiffDocument raw in
            ancestors <- listProfileExtensions n parent ;;
            ret (applyExtensionsDiff ancestors extensions) in
          e <- exists_ dataPath ;;
          if e then merge dataPath else
            let dataPath := getProfileExtensionsOldPath profile in
            e <- exists_ dataPath ;;
            if e then merge dataPath else listProfileExtensions n parent
      end
  end.


Definition loadSnippetsDiff : M (option SnippetsDiffDoc) :=
  profile <- gets _profile ;;
  let diffPath := getDiffSnippetsPath profile in
  e <- exists_ diffPath ;;
  if e then (data <- readFile diffPath ;; ret (Some data)) else ret None.

Definition loadUIStateDiff (profile : string) : M (option UIStateDiff) :=
  let diffPath := getDiffUIStatePath profile in
  e <- exists_ diffPath ;;
  if e then (data <- readFile diffPath ;; ret (Some data)) else ret None.

(** [for(const name of names) if(snippets[name]) delete snippets[name]];
    an entry is there when its value is a non-empty string. *)
Definition deleteNames {A} (nonEmpty : A → bool) (names : list string) (snippets : gmap string A)
  : gmap string A :=
  foldl (fun m name => match m !! name with
                       | Some v => if nonEmpty v then delete name m else m
                       | None => m
                       end) snippets names.

Definition nonEmptyString (s : string) : bool := negb (bool_decide (s = "")).

(** [for(const name of array)] throws a TypeError when [array] is
    [undefined]. *)
Definition iterable {A} (array : option (list A)) : M (list A) :=
  match array with
  | Some l => ret l
  | None => throw TypeError
  end.

(** [listProfileSnippetHashes]: from file name to content hash. *)
Fixpoint listProfileSnippetHashes (fuel : nat) (profile : string) : M (gmap string string) :=
  match fuel with
  | O => diverge
  | S n =>
      settings <- loadProfileSettings profile ;;
      let dataPath := getProfileSnippetsPath profile in
      start <-
        match extendsOf settings with
        | Some parent =>
            snippets <- listProfileSnippetHashes n parent ;;
            let diffPath := getDiffSnippetsPath profile in
            e <- exists_ diffPath ;;
            snippets <-
              (if e then
                 diff <- readFile diffPath ;;
                 names <- iterable (diff !! "remove") ;;
                 ret (deleteNames nonEmptyString names snippets)
               else ret snippets) ;;
            newFiles <- globby dataPath ;;
            ret (snippets, newFiles)
        | None =>
            newFiles <- globby dataPath ;;
            ret (∅, newFiles)
        end ;;
      let fix hashAll (files : list string) (snippets : gmap string string) :=
        match files with
        | [] => ret snippets
        | file :: rest =>
            data <- readFileIn dataPath file ;;
            hashAll rest (<[file := sha1 data]> snippets)
        end in
      hashAll start.2 start.1
  end.

(** The value of an entry of [listProfileSnippetPaths] is the path of the
    file: the profile that holds it and its name. *)
Fixpoint listProfileSnippetPaths (fuel : nat) (profile : string) : M (gmap string (string * string)) :=
  match fuel with
  | O => diverge
  | S n =>
      settings <- loadProfileSettings profile ;;
      let dataPath := getProfileSnippetsPath profile in
      start <-
        match extendsOf settings with
        | Some parent =>
            snippets <- listProfileSnippetPaths n parent ;;
            let diffPath := getDiffSnippetsPath profile in
            e <- exists_ diffPath ;;
            snippets <-
              (if e then
                 diff <- readFile diffPath ;;
                 names <- iterable (diff !! "removed") ;;
                 ret (deleteNames (fun _ => true) names snippets)
               else ret snippets) ;;
            newFiles <- globby dataPath ;;
            ret (snippets, newFiles)
        | None =>
            newFiles <- globby dataPath ;;
            ret (∅, newFiles)
        end ;;
      ret (foldl (fun m file => <[file := (profile, file)]> m) start.1 start.2)
  end.

(** [listProfileUIStateProperties]: the stored snapshot of a profile that
    extends nothing; for an inheriting profile, the properties of its
    ancestor with the keys of [modified] overwritten and the keys of
    [removed] deleted. *)
Fixpoint listProfileUIStateProperties (fuel : nat) (profile : string) : M (gmap string jsval) :=
  match fuel with
  | O => diverge
  | S n =>
      settings <- loadProfileSettings profile ;;
      let dataPath := getProfileUIStatePath profile in
      match extendsOf settings with
      | None =>
          e <- exists_ dataPath ;;
          if e then readFile dataPath else ret ∅
      | Some parent =>
          properties <- listProfileUIStateProperties n parent ;;
          diff <- loadUIStateDiff profile ;;
          match diff with
          | None => ret properties
          | Some diff =>
              let properties :=
                foldl (fun m entry => <[entry.1 := entry.2]> m) properties
                      (map_to_list (modified diff)) in
              ret (foldl (fun m key => delete key m) properties (removed diff))
          end
      end
  end.

(** [syncSettings.keybindingsPerPlatform ?? true], with [value] what
    reading the property gave. *)
Definition orTrue (value : option PolicyValue) : PolicyValue := default (PBool true) value.

(** The per-platform flag of a document that is a mapping. *)
Definition perPlatform (fields : ProfileSyncSettings) : PolicyValue :=
  orTrue (fields !! "keybindingsPerPlatform").

(** [a === b] on two flags that come from two parses of a document:
    booleans are compared by value, two arrays are never the same
    object. *)
Definition sameFlag (a b : PolicyValue) : bool :=
  match a, b with
  | PBool x, PBool y => bool_decide (x = y)
  | _, _ => false
  end.

(** [getProfileKeybindings]: the stored key bindings of a profile, nothing
    when its per-platform flag is not the one asked for or when the file
    is missing. *)
Definition getProfileKeybindings (fuel : nat) (profile : string) (keybindingsPerPlatform : PolicyValue)
  : M (option string) :=
  syncSettings <- loadProfileSyncSettings fuel profile ;;
  value <- field syncSettings "keybindingsPerPlatform" ;;
  let profilePerPlatform := orTrue value in
  if negb (sameFlag profilePerPlatform keybindingsPerPlatform) then ret None else
    let dataPath := getProfileKeybindingsPath profile keybindingsPerPlatform in
    e <- exists_ dataPath ;;
    if e then (data <- readFile dataPath ;; ret (Some data)) else ret None.

Definition getProfileUserSettings (profile : string) : M (option string) :=
  let dataPath := getProfileUserSettingsPath profile in
  e <- exists_ dataPath ;;
  if e then (data <- readFile dataPath ;; ret (Some data)) else ret None.

(** *** Reading the live editor (repository.ts) *)

Definition canManageExtensions : M bool :=
  cmds <- gets (fun w => commands (live w)) ;;
  ret (existsb (fun command =>
         bool_decide (command = "workbench.extensions.disableExtension")
         || bool_decide (command = "workbench.extensions.enableExtension")) cmds).

(** [ignoredExtensions.includes(id)]; a flag in the place of the list has
    no [includes]. *)
Definition includesId (ignoredExtensions : PolicyValue) (i : string) : M bool :=
  match ignoredExtensions with
  | PStrings l => ret (bool_decide (i ∈ l))
  | PBool _ => throw TypeError
  end.

Definition isDigit (c : Ascii.ascii) : bool :=
  let n := Ascii.nat_of_ascii c in (48 <=? n)%nat && (n <=? 57)%nat.

(** One or more digits, read from the end of the name, then [k]. *)
Fixpoint digitsThen (k : list Ascii.ascii → bool) (seen : bool) (l : list Ascii.ascii) : bool :=
  match l with
  | c :: rest => if isDigit c then digitsThen k true rest else seen && k l
  | [] => false
  end.

Definition charThen (c : Ascii.ascii) (k : list Ascii.ascii → bool) (l : list Ascii.ascii) : bool :=
  match l with
  | c' :: rest => bool_decide (c' = c) && k rest
  | [] => false
  end.

(** [/^(.*?)-\d+\.\d+\.\d+$/.exec(name)] finds a match: the name ends with
    a dash and three groups of digits separated by dots.  Names are
    taken to hold no line terminator. *)
Definition versionedName (name : string) : bool :=
  let dot := Ascii.ascii_of_nat 46 in
  let dash := Ascii.ascii_of_nat 45 in
  digitsThen (charThen dot (digitsThen (charThen dot (digitsThen (charThen dash (fun _ => true))
    false)) false)) false (rev (String.list_ascii_of_string name)).

(** [for(const x of l)] with the variables the body assigns as state. *)
Fixpoint foldM {A S} (l : list A) (s : S) (body : S → A → M S) : M S :=
  match l with
  | [] => ret s
  | x :: rest => s' <- body s x ;; foldM rest s' body
  end.

Definition flagOf (m : gmap string bool) (k : string) : bool := default false (m !! k).

Definition listEditorExtensions (ignoredExtensions : PolicyValue) : M ExtensionList :=
  ed <- gets live ;;
  self <- gets settings_extensionId ;;
  first <- foldM (extensions_all ed) ([], (∅ : gmap string bool))
    (fun '(enabled, seen) extension =>
       let i := extension_id extension in
       match packageJSON extension with
       | None => ret (enabled, seen)
       | Some pj =>
           if isUnderDevelopment pj || bool_decide (i = self) then ret (enabled, seen) else
             ignored <- includesId ignoredExtensions i ;;
             if ignored then ret (enabled, seen) else
               ret (if isBuiltin pj then enabled else enabled ++ [mkExt i (package_uuid pj)],
                    <[i := true]> seen)
       end) ;;
  let '(enabled, seen) := first in
  let obsolete := default ∅ (obsolete ed) in
  disabled <- foldM (extension_packages ed) []
    (fun disabled '(name, pkg) =>
       if flagOf obsolete name then ret disabled else
       if negb (versionedName name) then ret disabled else
         let i := package_publisher pkg +:+ "." +:+ package_name pkg in
         if flagOf obsolete i then ret disabled else
           if negb (flagOf seen i) && negb (bool_decide (i = self)) then
             ignored <- includesId ignoredExtensions i ;;
             ret (if ignored then disabled
                  else disabled ++ [mkExt i (default NIL_UUID (metadata_id pkg))])
           else ret disabled) ;;
  let builtinDisabled :=
    foldl (fun acc pkg =>
             let i := package_publisher pkg +:+ "." +:+ package_name pkg in
             if flagOf seen i then acc else acc ++ [i]) [] (builtin_packages ed) in
  ret (if bool_decide (0 < length builtinDisabled)%nat
       then {| builtin := Some (mkBuiltin (Some builtinDisabled) None);
               disabled := disabled; enabled := enabled; uninstall := None |}
       else {| builtin := None; disabled := disabled; enabled := enabled; uninstall := None |}).

Definition listEditorSnippets : M (list string) :=
  ed <- gets live ;;
  ret (match snippets ed with
       | Some files => (map_to_list files).*1
       | None => []
       end).

Definition lowerAscii (c : Ascii.ascii) : Ascii.ascii :=
  let n := Ascii.nat_of_ascii c in
  if (65 <=? n)%nat && (n <=? 90)%nat then Ascii.ascii_of_nat (n + 32) else c.

Fixpoint lowerCase (s : string) : string :=
  match s with
  | EmptyString => EmptyString
  | String c rest => String (lowerAscii c) (lowerCase rest)
  end.

(** The list between the parentheses of [key IN ('...')]: the keys joined
    by [', '] inside one pair of quotes, which for no key at all is the
    empty string alone.  Keys are taken to hold no quote. *)
Definition inList (keys : list string) : list string :=
  match keys with
  | [] => [""]
  | _ => keys
  end.

(** Modelled from the spec: [readStateDB] of utils/read-statedb, which is
    not part of the sources at hand, run on the one query the engine
    sends: the rows of [ItemTable] whose key is in the list built from
    [keys] or is [LIKE 'workbench.%'] (a comparison that ignores the case
    of ASCII letters); nothing when there is no table. *)
Definition readStateDB (keys : list string) : M (option (list (string * jsval))) :=
  ed <- gets live ;;
  ret (match itemTable ed with
       | Some table =>
           Some (filter (fun row => row.1 ∈ inList keys
                                    ∨ String.prefix "workbench." (lowerCase row.1) = true)
                        (map_to_list table))
       | None => None
       end).

Definition listEditorUIStateProperties (extensions : option ExtensionList) : M (gmap string jsval) :=
  extensions <- match extensions with
                | Some l => ret l
                | None => listEditorExtensions (PStrings [])
                end ;;
  let keys := ids (disabled extensions) ++ ids (enabled extensions) in
  data <- readStateDB keys ;;
  match data with
  | None => ret ∅
  | Some rows =>
      let extDataPath := extensionDataUri in
      let homeDirectory := homedir in
      ret (foldl (fun properties row =>
                    match row.2 with
                    | JStr value =>
                        let value := replaceAll extDataPath EXTENSION_DATA_PATH value in
                        if includes homeDirectory value then properties
                        else <[row.1 := JStr value]> properties
                    | value => <[row.1 := value]> properties
                    end) ∅ rows)
  end.

(** *** Acting on the live editor *)

(** A call of one of the host's extension commands: it may change the
    editor and reports whether it succeeded. *)
Definition hostCall (op : HostOp) (command : Editor → bool * Editor) : M bool :=
  fun w => let r := command (live w) in (Ok r.1, record op (set_live r.2 w)).

(** Modelled from the spec: [writeStateDB] of utils/write-statedb, which is
    not part of the sources at hand, run on the statements the engine
    sends, [INSERT OR REPLACE INTO ItemTable (key, value) VALUES ...]: each
    row replaces the row of the same key or is added to the table. *)
Definition writeStateDB (rows : list (string * jsval)) : M unit :=
  modify (fun w =>
    let table := foldl (fun t row => <[row.1 := row.2]> t) (default ∅ (itemTable (live w))) rows in
    record (OpWriteStateDB rows) (set_live (set_itemTable (Some table) (live w)) w)).

(** [fse.outputFile(this.getEditorKeybindingsPath(userDataPath), data)] *)
Definition outputKeybindings (data : string) : M unit :=
  modify (fun w => record (OpOutputKeybindings data) (set_live (set_keybindings_json (Some data) (live w)) w)).

(** [fse.outputFile(this.getEditorUserSettingsPath(userDataPath), data)] *)
Definition outputUserSettings (data : string) : M unit :=
  modify (fun w => record (OpOutputSettings data) (set_live (set_settings_json (Some data) (live w)) w)).

(** [fse.emptyDir(this.getEditorSnippetsPath(userDataPath))] *)
Definition emptySnippets : M unit :=
  modify (fun w => record OpEmptySnippets (set_live (set_snippets (Some ∅) (live w)) w)).

(** [fse.copyFile(snippetPath, path.join(snippetsPath, name))] into the
    directory that [fse.emptyDir] has just emptied: no sub-directory is
    left there and [copyFile] makes none, so that a name with a directory
    part fails. *)
Definition copySnippet (snippetPath : string * string) (name : string) : M unit :=
  data <- readFileIn (getProfileSnippetsPath snippetPath.1) snippetPath.2 ;;
  if nested name then throw NoSuchFile else
  modify (fun w => record (OpCopySnippet name)
    (set_live (set_snippets (Some (<[name := data]> (default ∅ (snippets (live w))))) (live w)) w)).

(** [vscode.window.showInformationMessage(..., 'Yes')]: the answer is the
    user's. *)
Definition showInformationMessage : M bool :=
  fun w => (Ok (answersYes (live w)), record OpPrompt w).

Definition restartApp : M unit := modify (record OpRestartApp).
Definition reloadWindow : M unit := modify (record OpReloadWindow).

(** A policy field used as an array of names; a flag is not one. *)
Definition asArray (v : PolicyValue) : M (list string) :=
  match v with
  | PStrings l => ret l
  | PBool _ => throw TypeError
  end.

Definition quote : string := String (Ascii.ascii_of_nat 34) EmptyString.

(** [JSON.stringify(disabled)] for a list of id/uuid records. *)
Definition stringifyExtensions (l : list ExtensionId) : string :=
  let field k v := quote +:+ k +:+ quote +:+ ":" +:+ quote +:+ v +:+ quote in
  let one ext := "{" +:+ field "id" (id ext) +:+ "," +:+ field "uuid" (uuid ext) +:+ "}" in
  "[" +:+ String.concat "," (one <$> l) +:+ "]".

(** [failures = !(await first && await second) || failures] *)
Definition both (first second : M bool) : M bool :=
  a <- first ;; if a then second else ret false.

(** [restoreExtensions].  The dictionary [installed] is kept with the
    order in which its keys were entered, which is the order [for ... in]
    visits them (extension ids are not integers); [sweep] is the loop
    [for(const id in installed)]. *)
Definition restoreExtensions (fuel : nat) (syncSettings : SyncDocument) : M bool :=
  ignoredExtensions <- field syncSettings "ignoredExtensions" ;;
  editor <- listEditorExtensions (default (PStrings []) ignoredExtensions) ;;
  let mark (m : gmap string bool * list string) (i : string) (v : bool) :=
    (<[i := v]> m.1, if bool_decide (i ∈ m.2) then m.2 else m.2 ++ [i]) in
  let currentlyDisabled : gmap string bool :=
    foldl (fun m ext => <[id ext := true]> m) ∅ (disabled editor) in
  let currentlyEnabled : gmap string bool :=
    foldl (fun m ext => <[id ext := true]> m) ∅ (enabled editor) in
  let installed :=
    foldl (fun m ext => mark m (id ext) true) (∅, []) (disabled editor ++ enabled editor) in
  profile <- gets _profile ;;
  target <- listProfileExtensions fuel profile ;;
  let install i := hostCall (OpInstall i) (installExtension i) in
  let uninstall_ i := hostCall (OpUninstall i) (uninstallExtension i) in
  let enable i := hostCall (OpEnable i) (enableExtension i) in
  let disable i := hostCall (OpDisable i) (disableExtension i) in
  let sweep (s : (gmap string bool * list string) * bool) :=
    foldM s.1.2 s (fun '(installed, failures) i =>
      if flagOf installed.1 i then
        ok <- uninstall_ i ;; ret (installed, negb ok || failures)
      else ret (installed, failures)) in
  can <- canManageExtensions ;;
  s <-
    (if can then
       s <- foldM (disabled target) (installed, false) (fun '(installed, failures) ext =>
         let i := id ext in
         failures <-
           (if negb (flagOf installed.1 i) then
              ok <- both (install i) (disable i) ;; ret (negb ok || failures)
            else if flagOf currentlyEnabled i then
              ok <- disable i ;; ret (negb ok || failures)
            else ret failures) ;;
         ret (mark installed i false, failures)) ;;
       s <- foldM (enabled target) s (fun '(installed, failures) ext =>
         let i := id ext in
         failures <-
           (if negb (flagOf installed.1 i) then
              ok <- install i ;; ret (negb ok || failures)
            else if flagOf currentlyDisabled i then
              ok <- enable i ;; ret (negb ok || failures)
            else ret failures) ;;
         ret (mark installed i false, failures)) ;;
       sweep s
     else
       s <- foldM (disabled target) (installed, false) (fun '(installed, failures) ext =>
         let i := id ext in
         failures <-
           (if negb (flagOf installed.1 i) then
              ok <- install i ;; ret (negb ok || failures)
            else ret failures) ;;
         ret (mark installed i false, failures)) ;;
       s <- foldM (enabled target) s (fun '(installed, failures) ext =>
         let i := id ext in
         failures <-
           (if negb (flagOf installed.1 i) then
              ok <- install i ;; ret (negb ok || failures)
            else if flagOf currentlyDisabled i then
              ok <- both (uninstall_ i) (install i) ;; ret (negb ok || failures)
            else ret failures) ;;
         ret (mark installed i false, failures)) ;;
       s <- sweep s ;;
       (if bool_decide (0 < length (disabled target))%nat then
          writeStateDB [("extensionsIdentifiers/disabled", JStr (stringifyExtensions (disabled target)))]
        else ret tt) ;;;
       ret s) ;;
  match uninstall target with
  | Some us =>
      s <- foldM us s (fun '(installed, failures) ext =>
        if flagOf installed.1 (id ext) then
          ok <- uninstall_ (id ext) ;; ret (installed, negb ok || failures)
        else ret (installed, failures)) ;;
      ret s.2
  | None => ret s.2
  end.

(** [if(data) data = preprocessJSONC(data, settings) else data = fallback]:
    a missing file and an empty one both give the fallback. *)
Definition preprocessOr (fallback : string) (data : option string) : string :=
  match data with
  | Some text => if nonEmptyString text then preprocessJSONC text else fallback
  | None => fallback
  end.

Definition restoreKeybindings (fuel : nat) (ancestorProfile : string) : M unit :=
  syncSettings <- loadProfileSyncSettings fuel ancestorProfile ;;
  value <- field syncSettings "keybindingsPerPlatform" ;;
  let keybindingsPerPlatform := orTrue value in
  data <- getProfileKeybindings fuel ancestorProfile keybindingsPerPlatform ;;
  let data := preprocessOr "[]" data in
  outputKeybindings data.

Definition restoreUserSettings (fuel : nat) (ancestorProfile : string) : M unit :=
  current <- gets (fun w => settings_json (live w)) ;;
  extracted <-
    match current with
    | Some text =>
        syncSettings <- loadProfileSyncSettings fuel ancestorProfile ;;
        value <- field syncSettings "ignoredSettings" ;;
        ignoredSettings <- asArray (default (PStrings []) value) ;;
        ret (extractProperties text ignoredSettings)
    | None => ret ""
    end ;;
  data <- getProfileUserSettings ancestorProfile ;;
  let data := preprocessOr "{}" data in
  let data := if bool_decide (0 < String.length extracted)%nat
              then insertProperties data extracted else data in
  outputUserSettings data.

Definition restoreSnippets (fuel : nat) : M unit :=
  emptySnippets ;;;
  diff <- loadSnippetsDiff ;;
  ignore <- match diff with
            | Some diff => iterable (diff !! "removed")
            | None => ret []
            end ;;
  profile <- gets _profile ;;
  snippets <- listProfileSnippetPaths fuel profile ;;
  forEach (map_to_list snippets) (fun '(name, snippetPath) =>
    if bool_decide (name ∈ ignore) then ret tt else copySnippet snippetPath name).

Definition restoreUIState (fuel : nat) : M unit :=
  let extDataPath := extensionDataUri in
  this <- gets _profile ;;
  profile <- listProfileUIStateProperties fuel this ;;
  let rows := (fun entry : string * jsval =>
                 match entry.2 with
                 | JStr value =>
                     (entry.1, JStr (replaceAllTemplate EXTENSION_DATA_PATH extDataPath value))
                 | _ => entry
                 end) <$> map_to_list profile in
  if bool_decide (0 < length rows)%nat then writeStateDB rows else ret tt.

Definition Resource_Settings : string := "settings".
Definition Resource_Keybindings : string := "keybindings".
Definition Resource_Snippets : string := "snippets".
Definition Resource_Extensions : string := "extensions".
Definition Resource_UIState : string := "uiState".

Definition allResources : list string :=
  [Resource_Extensions; Resource_Keybindings; Resource_Settings; Resource_Snippets; Resource_UIState].

(** [shouldRestartApp] *)
Definition shouldRestartApp (fuel : nat) (resources : list string) : M bool :=
  if negb (bool_decide (Resource_UIState ∈ resources) || bool_decide (Resource_Extensions ∈ resources))
  then ret false else
    this <- gets _profile ;;
    extensions <- listProfileExtensions fuel this ;;
    unmanaged <- (if bool_decide (0 < length (disabled extensions))%nat
                  then can <- canManageExtensions ;; ret (negb can)
                  else ret false) ;;
    if unmanaged then ret true else
      editor <- listEditorUIStateProperties (Some extensions) ;;
      profile <- listProfileUIStateProperties fuel this ;;
      ret (existsb (fun entry : string * jsval => negb (strictEqual entry.2 (editor !! entry.1)))
                   (map_to_list profile)).

(** The [switch(resource)] of [restoreProfile]; [reload] is the variable
    [reloadWindow]. *)
Definition restoreResource (fuel : nat) (syncSettings : SyncDocument)
    (ancestorProfile : string) (reload : bool) (resource : string) : M bool :=
  if bool_decide (resource = Resource_Extensions) then restoreExtensions fuel syncSettings
  else if bool_decide (resource = Resource_Keybindings) then
    restoreKeybindings fuel ancestorProfile ;;; ret reload
  else if bool_decide (resource = Resource_Settings) then
    restoreUserSettings fuel ancestorProfile ;;; ret reload
  else if bool_decide (resource = Resource_Snippets) then
    restoreSnippets fuel ;;; ret reload
  else if bool_decide (resource = Resource_UIState) then
    restoreUIState fuel ;;; ret reload
  else ret reload.

(** [restoreProfile].  A [resources] field that is not an array makes the
    first use of it, in [shouldRestartApp], throw. *)
Definition restoreProfile (fuel : nat) : M unit :=
  checkInitialized ;;;
  this <- gets _profile ;;
  syncSettings <- loadProfileSyncSettings fuel this ;;
  ancestorProfile <- getAncestorProfile fuel this ;;
  value <- field syncSettings "resources" ;;
  resources <- asArray (default (PStrings allResources) value) ;;
  restart <- shouldRestartApp fuel resources ;;
  result <- (if restart then showInformationMessage else ret true) ;;
  if negb result then ret tt else
    reload <- foldM resources false (restoreResource fuel syncSettings ancestorProfile) ;;
    if restart then restartApp
    else if reload then reloadWindow
    else ret tt.

(** *** Serializing the live editor into a profile *)

(** [yaml.stringify] of an extension list: the records as they are. *)
Definition documentOf (l : ExtensionList) : ExtensionsDoc :=
  {| raw_builtin := builtin l;
     raw_disabled := RawRecords (disabled l);
     raw_enabled := RawRecords (enabled l);
     raw_uninstall := RawRecords <$> uninstall l |}.

(** [config.get(key) ?? fallback] *)
Definition configGet (key : string) (fallback : PolicyValue) : M PolicyValue :=
  config <- gets (fun w => configuration (live w)) ;;
  ret (default fallback (effectiveValue config !! key)).

Definition serializeExtensions (fuel : nat) (profileSettings : ProfileSettings) : M ExtensionList :=
  ignoredExtensions <- configGet "ignoredExtensions" (PStrings []) ;;
  editor <- listEditorExtensions ignoredExtensions ;;
  this <- gets _profile ;;
  data <- match extendsOf profileSettings with
          | Some parent =>
              profile <- listProfileExtensions fuel parent ;;
              ret (documentOf (computeExtensionsDiff editor profile))
          | None => ret (documentOf editor)
          end ;;
  writeFile (getProfileExtensionsPath this) data ;;;
  remove (getProfileExtensionsOldPath this) ;;;
  ret editor.

Definition serializeKeybindings : M unit :=
  keybindingsPerPlatform <- configGet "keybindingsPerPlatform" (PBool true) ;;
  current <- gets (fun w => keybindings_json (live w)) ;;
  let editor := comment <$> current in
  this <- gets _profile ;;
  let dataPath := getProfileKeybindingsPath this keybindingsPerPlatform in
  match editor with
  | Some text => if nonEmptyString text then writeFile dataPath text else remove dataPath
  | None => remove dataPath
  end.

Definition saveSnippetsDiff (removed : list string) : M unit :=
  this <- gets _profile ;;
  writeFile (getDiffSnippetsPath this) ({[ "removed" := removed ]} : SnippetsDiffDoc).

(** Modelled from the spec: [isEmpty] of utils/is-empty, which is not part
    of the sources at hand; an object is empty when it has no key. *)
Definition isEmpty {A} (o : gmap string A) : bool := bool_decide (size o = 0%nat).

Definition saveUIStateDiff (diff : UIStateDiff) : M unit :=
  if bool_decide (0 < length (removed diff))%nat || negb (isEmpty (modified diff)) then
    this <- gets _profile ;;
    writeFile (getDiffUIStatePath this) diff
  else ret tt.

(** [fse.readFile(path.join(snippetsPath, file))] in the editor *)
Definition readEditorSnippet (file : string) : M string :=
  files <- gets (fun w => snippets (live w)) ;;
  match files ≫= (fun m => m !! file) with
  | Some data => ret data
  | None => throw NoSuchFile
  end.

(** [index = editor.indexOf(file); if(index !== -1) editor.splice(index, 1)] *)
Fixpoint spliceName (file : string) (editor : list string) : list string :=
  match editor with
  | [] => []
  | x :: rest => if bool_decide (x = file) then rest else x :: spliceName file rest
  end.

(** [serializeSnippets].  [profile[file]] reads a plain object: a name
    the hash index does not have is still answered through the prototype
    when it is one of [objectPrototypeNames], by a function, which is
    truthy and identical to no hash.  [fse.copyFile] into the directory
    that [fse.emptyDir] has just emptied fails for a name with a directory
    part.  The listing and the hash index are finite maps, so [editor] and
    [Object.keys(profile)] come in the order of the map: the list [removed]
    has the elements the code lists, in an order of its own. *)
Definition serializeSnippets (fuel : nat) (profileSettings : ProfileSettings) : M unit :=
  editor <- listEditorSnippets ;;
  this <- gets _profile ;;
  editor <-
    match extendsOf profileSettings with
    | Some parent =>
        profile <- listProfileSnippetHashes fuel parent ;;
        s <- (if bool_decide (0 < length editor)%nat then
                foldM editor (editor, []) (fun '(editor, removed) file =>
                  data <- readEditorSnippet file ;;
                  let hash := sha1 data in
                  match profile !! file with
                  | Some inherited =>
                      if nonEmptyString inherited then
                        ret (if bool_decide (hash = inherited) then spliceName file editor else editor,
                             removed)
                      else ret (editor, removed ++ [file])
                  | None =>
                      if bool_decide (file ∈ objectPrototypeNames) then ret (editor, removed)
                      else ret (editor, removed ++ [file])
                  end)
              else ret (editor, (map_to_list profile).*1)) ;;
        (if bool_decide (0 < length s.2)%nat then saveSnippetsDiff s.2 else ret tt) ;;;
        ret s.1
    | None => ret editor
    end ;;
  let dataPath := getProfileSnippetsPath this in
  if bool_decide (0 < length editor)%nat then
    writeFile dataPath ∅ ;;;
    forEach editor (fun file =>
      data <- readEditorSnippet file ;;
      if nested file then throw NoSuchFile else
      files <- gets (fun w => default ∅ (data_snippets (directory this w))) ;;
      writeFile dataPath (<[file := data]> files))
  else remove dataPath.

(** The [modified] dictionary of [serializeUIState]:
    [for(const [key, value] of Object.entries(editor))
       if(value !== profile[key]) modified[key] = value]. *)
Definition modifiedProperties (editor profile : gmap string jsval) : gmap string jsval :=
  foldl (fun modified entry =>
           if negb (strictEqual entry.2 (profile !! entry.1))
           then <[entry.1 := entry.2]> modified else modified)
        ∅ (map_to_list editor).

(** [serializeUIState].  A stored document is a finite map here, so
    [Object.keys(profile)] comes in the order of the map and not in the
    order of the document: the list [removed] has the elements the code
    lists, in an order of its own, and what is proved of it below is
    proved of every order. *)
Definition serializeUIState (fuel : nat) (profileSettings : ProfileSettings)
    (extensions : option ExtensionList) : M unit :=
  editor <- listEditorUIStateProperties extensions ;;
  match extendsOf profileSettings with
  | Some parent =>
      profile <- listProfileUIStateProperties fuel parent ;;
      let removed := arrayDiff (map_to_list profile).*1 (map_to_list editor).*1 in
      let modified := modifiedProperties editor profile in
      saveUIStateDiff {| modified := modified; removed := removed |}
  | None =>
      this <- gets _profile ;;
      writeFile (getProfileUIStatePath this) editor
  end.

(** [getIgnoredSettings] (repository.ts) *)
Definition getIgnoredSettings : M (list string) :=
  value <- configGet "ignoredSettings" (PStrings []) ;;
  ignoredSettings <- asArray value ;;
  ret (filter (fun value => String.prefix "syncSettings" value = false) ignoredSettings).

Definition serializeUserSettings : M unit :=
  current <- gets (fun w => settings_json (live w)) ;;
  editor <- match current with
            | Some text =>
                ignoredSettings <- getIgnoredSettings ;;
                ret (Some (comment (removeProperties text ignoredSettings)))
            | None => ret None
            end ;;
  this <- gets _profile ;;
  let dataPath := getProfileUserSettingsPath this in
  match editor with
  | Some text => if nonEmptyString text then writeFile dataPath text else remove dataPath
  | None => remove dataPath
  end.

Definition policyProperties : list string :=
  ["keybindingsPerPlatform"; "ignoredExtensions"; "ignoredSettings"; "resources"].

(** The body of the loop of [saveProfileSyncSettings] over the four policy
    fields; the state is the dictionary [settings] and the counter
    [length]. *)
Definition policyStep (config : WorkspaceConfiguration) (ancestors : option ProfileSyncSettings)
    (state : ProfileSyncSettings * nat) (property : string) : ProfileSyncSettings * nat :=
  match globalValue config !! property with
  | Some value =>
      (<[property := value]> state.1,
       match ancestors with
       | None => S state.2
       | Some doc => if negb (deepEqualPolicy (doc !! property) value) then S state.2 else state.2
       end)
  | None => state
  end.

Definition collectPolicy (config : WorkspaceConfiguration) (ancestors : option ProfileSyncSettings)
  : ProfileSyncSettings * nat :=
  foldl (policyStep config ancestors) (∅, 0%nat) policyProperties.

Definition saveProfileSyncSettings (fuel : nat) : M unit :=
  config <- gets (fun w => configuration (live w)) ;;
  this <- gets _profile ;;
  profile <- loadProfileSettings this ;;
  ancestors <- match extendsOf profile with
               | Some parent => doc <- loadProfileSyncSettings fuel parent ;; ret (fieldsOf doc)
               | None => ret None
               end ;;
  let '(settings, length) := collectPolicy config ancestors in
  remove (getProfileSyncSettingsOldPath this) ;;;
  if bool_decide (0 < length)%nat then writeFile (getProfileSyncSettingsPath this) (Fields settings)
  else remove (getProfileSyncSettingsPath this).

(** [serializeProfile].  A [resources] value that is not an array makes
    its first use, after [ensureDir], throw. *)
Definition serializeProfile (fuel : nat) : M unit :=
  checkInitialized ;;;
  value <- configGet "resources" (PStrings allResources) ;;
  this <- gets _profile ;;
  profileSettings <- loadProfileSettings this ;;
  ensureDir this ;;;
  resources <- asArray value ;;
  extensions <- (if bool_decide (Resource_Extensions ∈ resources)
                 then editor <- serializeExtensions fuel profileSettings ;; ret (Some editor)
                 else ret None) ;;
  (if bool_decide (Resource_Snippets ∈ resources)
   then serializeSnippets fuel profileSettings else ret tt) ;;;
  (if bool_decide (Resource_UIState ∈ resources)
   then serializeUIState fuel profileSettings extensions else ret tt) ;;;
  (match extendsOf profileSettings with
   | None =>
       (if bool_decide (Resource_Keybindings ∈ resources) then serializeKeybindings else ret tt) ;;;
       (if bool_decide (Resource_Settings ∈ resources) then serializeUserSettings else ret tt)
   | Some _ => ret tt
   end) ;;;
  saveProfileSyncSettings fuel.

(** [initialize], [setProfile], [extendProfileTo], [duplicateProfileTo],
    [listProfiles], [download] and [upload] *)
Definition initialize : M unit :=
  this <- gets _profile ;;
  ensureDir this ;;;
  modify (fun w => mkWorld (_profile w) true (settings_extensionId w) (profiles w) (live w) (journal w)).

Definition setProfile (profile : string) : M unit :=
  modify (fun w => mkWorld profile (_initialized w) (settings_extensionId w) (profiles w) (live w) (journal w)) ;;;
  initialize.

Definition extendProfileTo (originalProfile newProfile : string) : M unit :=
  checkInitialized ;;;
  writeFile (getProfileSettingsPath newProfile) (mkProfileSettings (Some originalProfile)).

Definition duplicateProfileTo (originalProfile newProfile : string) : M unit :=
  checkInitialized ;;;
  modify (fun w => set_profiles (<[newProfile := directory originalProfile w]> (profiles w)) w).

Definition listProfiles : M (list string) :=
  checkInitialized ;;;
  gets (fun w => (map_to_list (profiles w)).*1).

Definition download (fuel : nat) : M unit := restoreProfile fuel.

Definition upload (fuel : nat) : M unit := serializeProfile fuel.
End Repository.

(** ** Notions used in the statements *)

(** The two arrays of a merge in progress hold no id twice. *)
Definition wfLists (s : Lists) : Prop := NoDup (ids s.1 ++ ids s.2).

Definition swap (s : Lists) : Lists := (s.2, s.1).

(** The ids a diff asks to uninstall, none when it has no [uninstall]. *)
Definition uninstallIds (diff : ExtensionList) : list string :=
  ids (default [] (uninstall diff)).

(** The two arrays after the first two loops of [applyExtensionsDiff]. *)
Definition afterEnabled (base diff : ExtensionList) : Lists :=
  foldl stepEnabled (foldl stepDisabled (disabled base, enabled base) (disabled diff)) (enabled diff).

(** A computation that leaves the repository tree, the live editor and
    the journal as they were, whatever it returns. *)
Definition ReadOnly {A} (m : M A) : Prop := ∀ w, (m w).2 = w.

(** What [loadProfileSettings] returns for a profile. *)
Definition settingsOf (w : World) (profile : string) : ProfileSettings :=
  default (mkProfileSettings None) (profile_yml (directory profile w)).

(** The ancestor chain of a profile: the profiles met by following the
    [extends] links from it up to a profile that extends nothing. *)
Inductive Chain (w : World) : string → list string → Prop :=
| chain_root profile :
    extendsOf (settingsOf w profile) = None → Chain w profile [profile]
| chain_step profile parent rest :
    extendsOf (settingsOf w profile) = Some parent →
    Chain w parent rest → Chain w profile (profile :: rest).

(** The sync-policy document of a profile, at its current path or else at
    its legacy path. *)
Definition syncDocument (w : World) (profile : string) : option SyncDocument :=
  match sync_yml (directory profile w) with
  | Some doc => Some doc
  | None => config_yml (directory profile w)
  end.

(** The operations journalled since [w]. *)
Definition performed (w w' : World) : list HostOp := drop (length (journal w)) (journal w').

(** Nothing of the live editor or of the repository tree differs between
    [w] and [w'], and no mutating operation was performed in between. *)
Definition untouched (w w' : World) : Prop :=
  live w' = live w ∧ profiles w' = profiles w
  ∧ Forall (fun op => isMutation op = false) (performed w w').

(** ** Example hosts, repositories and editors *)

(** A host whose helpers leave their text as it is and whose extension
    commands always succeed. *)
Definition exampleHost : Collaborators :=
  {| sha1 := fun data => "sha1:" +:+ data;
     preprocessJSONC := fun data => data;
     comment := fun data => data;
     removeProperties := fun data _ => data;
     extractProperties := fun _ _ => "";
     insertProperties := fun data _ => data;
     installExtension := fun _ e => (true, e);
     uninstallExtension := fun _ e => (true, e);
     enableExtension := fun _ e => (true, e);
     disableExtension := fun _ e => (true, e);
     platform := linux;
     homedir := "/home/user";
     extensionDataUri := "/opt/extensions" |}.

(** An editor with no extension, no file and no configured value. *)
Definition exampleEditor : Editor :=
  mkEditor [] [] None [] [] None None None None (mkConfig ∅ ∅) false.

(** The directory of a profile that extends [parent] and holds nothing
    else. *)
Definition inheriting (parent : string) : ProfileDir :=
  set_profile_yml (Some (mkProfileSettings (Some parent))) emptyDir.

Definition exampleWorld (this : string) (tree : gmap string ProfileDir) (ed : Editor) : World :=
  mkWorld this true "zokugun.sync-settings" tree ed [].

(** [base] holds one snippet; [work] extends [base]. *)
Definition snippetsWorld : World :=
  exampleWorld "work"
    {[ "base" := set_data_snippets (Some {[ "foo.code-snippets" := "{}" ]}) emptyDir;
       "work" := inheriting "base" ]}
    exampleEditor.

(** The same after [saveSnippetsDiff] has recorded the removal of the
    snippet for [work]. *)
Definition snippetsWorldWithDiff : World :=
  (saveSnippetsDiff ["foo.code-snippets"] snippetsWorld).2.

Definition ext_by : ExtensionId := mkExt "b.y" "11111111-1111-1111-1111-111111111111".
Definition ext_cz : ExtensionId := mkExt "c.z" "22222222-2222-2222-2222-222222222222".

(** The extension document of [work] in the legacy shape: it disables
    [c.z] and uninstalls [b.y]. *)
Definition legacyDocument : ExtensionsDoc :=
  {| raw_builtin := None;
     raw_disabled := RawNames ["c.z"];
     raw_enabled := RawNames [];
     raw_uninstall := Some (RawNames ["b.y"]) |}.

(** [base] enables [b.y] and [c.z]; [work] extends it with
    [legacyDocument]. *)
Definition legacyWorld : World :=
  exampleWorld "work"
    {[ "base" := set_data_extensions_yml
                   (Some (mkExtensionsDoc None (RawRecords []) (RawRecords [ext_by; ext_cz]) None))
                   emptyDir;
       "work" := set_data_extensions_yml (Some legacyDocument) (inheriting "base") ]}
    exampleEditor.

(** [base] has a sync-policy document, a UI state and a snippet; [work]
    extends it and holds nothing yet. *)
Definition freshTree : gmap string ProfileDir :=
  {[ "base" := set_sync_yml (Some (Fields ∅))
                 (set_data_ui_state_yml (Some {[ "workbench.panel" := JStr "left" ]})
                   (set_data_snippets (Some {[ "foo.json" := "{}" ]}) emptyDir));
     "work" := inheriting "base" ]}.

(** An editor that differs from [base]: another panel side, no snippet. *)
Definition changedEditor : Editor :=
  set_itemTable (Some {[ "workbench.panel" := JStr "right" ]})
    (set_snippets (Some ∅) exampleEditor).

(** An editor in the state of [base]. *)
Definition revertedEditor : Editor :=
  set_itemTable (Some {[ "workbench.panel" := JStr "left" ]})
    (set_snippets (Some {[ "foo.json" := "{}" ]}) exampleEditor).

(** [work] after a first serialize from [changedEditor]. *)
Definition afterFirstSerialize : World :=
  (serializeProfile (host := exampleHost) 5 (exampleWorld "work" freshTree changedEditor)).2.

(** [work] after the editor went back to the state of [base] and was
    serialized again. *)
Definition afterSecondSerialize : World :=
  (serializeProfile (host := exampleHost) 5 (set_live revertedEditor afterFirstSerialize)).2.

(** [base] sets two policy fields; [work] extends it. *)
Definition policyTree : gmap string ProfileDir :=
  {[ "base" := set_sync_yml
                 (Some (Fields {[ "ignoredSettings" := PStrings ["editor.fontSize"];
                                  "keybindingsPerPlatform" := PBool true ]})) emptyDir;
     "work" := inheriting "base" ]}.

(** The user keeps the ignore list of [base] and turns the per-platform
    key bindings off. *)
Definition policyEditor : Editor :=
  mkEditor [] [] None [] [] None None None None
    (mkConfig {[ "ignoredSettings" := PStrings ["editor.fontSize"];
                 "keybindingsPerPlatform" := PBool false ]} ∅) false.

Definition policyWorld : World := exampleWorld "work" policyTree policyEditor.

(** [base] stores a UI-state value that is an array; the editor holds an
    array of the same content under the same key. *)
Definition arrayWorld : World :=
  exampleWorld "work"
    {[ "base" := set_data_ui_state_yml (Some {[ "workbench.view" := JArr [JNum 1; JNum 2] ]}) emptyDir;
       "work" := inheriting "base" ]}
    (set_itemTable (Some {[ "workbench.view" := JArr [JNum 1; JNum 2] ]}) exampleEditor).

(** [base] stores one interface-state key, the editor's table has none. *)
Definition clearedWorld : World :=
  exampleWorld "work"
    {[ "base" := set_data_ui_state_yml (Some {[ "workbench.view" := JArr [JNum 1; JNum 2] ]}) emptyDir;
       "work" := inheriting "base" ]}
    (set_itemTable (Some ∅) exampleEditor).

Definition noExtensions : ExtensionList := mkList None [] [] None.

(** [work] has a sync-policy document of its own, its root [base] has
    none; the editor has key bindings. *)
Definition rootWithoutPolicy : World :=
  exampleWorld "work"
    {[ "base" := emptyDir;
       "work" := set_sync_yml (Some (Fields ∅)) (inheriting "base") ]}
    (set_keybindings_json (Some "[{ }]") exampleEditor).

(** [base] has a sync-policy document that is empty, and stored key
    bindings; the editor has key bindings. *)
Definition rootWithEmptyPolicy : World :=
  exampleWorld "work"
    {[ "base" := set_sync_yml (Some NullDocument)
                   (set_data_keybindings_linux_json (Some "[]") emptyDir);
       "work" := inheriting "base" ]}
    (set_keybindings_json (Some "[{ }]") exampleEditor).

(** Neither [base] nor anything above has a sync-policy document; [work]
    extends [base] and holds a legacy document; the user has set a policy
    field. *)
Definition policyOrphans : World :=
  exampleWorld "work"
    {[ "base" := emptyDir;
       "work" := set_config_yml (Some (Fields ∅)) (inheriting "base") ]}
    policyEditor.

(** [base] has a sync-policy document and no key bindings file; the editor
    has key bindings. *)
Definition rootWithPolicy : World :=
  exampleWorld "work"
    {[ "base" := set_config_yml (Some (Fields ∅)) emptyDir;
       "work" := inheriting "base" ]}
    (set_keybindings_json (Some "[{ }]") exampleEditor).

(** A profile of its own whose stored panel side differs from the
    editor's; the user answers no. *)
Definition restartWorld : World :=
  exampleWorld "base"
    {[ "base" := set_sync_yml (Some (Fields ∅))
                   (set_data_ui_state_yml (Some {[ "workbench.panel" := JStr "left" ]}) emptyDir) ]}
    (set_itemTable (Some {[ "workbench.panel" := JStr "right" ]}) exampleEditor).

Definition ext_ax : ExtensionId := mkExt "a.x" "33333333-3333-3333-3333-333333333333".

(** A base list that names [a.x] twice among its enabled extensions, and
    a diff that disables [a.x]. *)
Definition doubledBase : ExtensionList := mkList None [] [ext_ax; ext_ax] None.
Definition disablingDiff : ExtensionList := mkList None [ext_ax] [] None.

(** A base list without duplicates, and a diff that names [a.x] both as
    disabled and as enabled. *)
Definition plainBase : ExtensionList := mkList None [] [ext_ax; ext_by] None.
Definition twoSidedDiff : ExtensionList := mkList None [ext_ax] [ext_ax; ext_cz] None.

(** A stored list and a live list: [a.x] was disabled meanwhile, [b.y]
    uninstalled and [c.z] installed. *)
Definition storedList : ExtensionList := mkList None [] [ext_ax; ext_by] None.
Definition liveList : ExtensionList := mkList None [ext_ax] [ext_cz] None.

(** The document that a walk along [chain] meets first. *)
Fixpoint nearestDocument (w : World) (chain : list string) : option SyncDocument :=
  match chain with
  | [] => None
  | profile :: rest =>
      match syncDocument w profile with
      | Some doc => Some doc
      | None => nearestDocument w rest
      end
  end.

(** [ancestors[property]] as [saveProfileSyncSettings] reads it, after
    [!ancestors] has ruled out an empty document: nothing is inherited
    from one. *)
Definition inheritedValue (ancestors : SyncDocument) (property : string) : option PolicyValue :=
  fieldsOf ancestors ≫= (fun fields => fields !! property).

(** ** Notions used in the further statements *)

(** The extension document of a profile, at its current path or else at
    its legacy path. *)
Definition extensionsDocument (w : World) (profile : string) : option ExtensionsDoc :=
  match data_extensions_yml (directory profile w) with
  | Some doc => Some doc
  | None => extensions_yml (directory profile w)
  end.

(** The stored documents of a chain replayed oldest ancestor first: the
    list of the root, then the document of each descendant applied as a
    diff, a profile without a document adding nothing. *)
Fixpoint replayChain (w : World) (chain : list string) : ExtensionList :=
  match chain with
  | [] => mkList None [] [] None
  | [root] =>
      match extensionsDocument w root with
      | Some raw => mkList None (decodeList (raw_disabled raw)) (decodeList (raw_enabled raw)) None
      | None => mkList None [] [] None
      end
  | profile :: rest =>
      match extensionsDocument w profile with
      | Some raw => applyExtensionsDiff (replayChain w rest) (decodeDiffDocument raw)
      | None => replayChain w rest
      end
  end.

(** Every value the computation returns satisfies [P]. *)
Definition Returns {A} (P : A → Prop) (m : M A) : Prop :=
  ∀ w a w', m w = (Ok a, w') → P a.

(** A computation that leaves the repository tree as it was. *)
Definition KeepsRepository {A} (m : M A) : Prop := ∀ w, profiles (m w).2 = profiles w.

(** A computation that leaves the live editor and the journal as they
    were. *)
Definition KeepsEditor {A} (m : M A) : Prop :=
  ∀ w, live (m w).2 = live w ∧ journal (m w).2 = journal w.

(** A computation that, run for the current profile [p], keeps [p] current
    and changes no directory of the tree but the one of [p]. *)
Definition WritesOwn {A} (p : string) (m : M A) : Prop :=
  ∀ w, _profile w = p →
    _profile (m w).2 = p ∧ ∀ q, q ≠ p → profiles (m w).2 !! q = profiles w !! q.

(** The UI-state documents of a chain replayed oldest ancestor first: the
    snapshot of the root, then for each descendant that has a diff
    document its [modified] entries written over and its [removed] keys
    deleted. *)
Fixpoint replayUIState (w : World) (chain : list string) : gmap string jsval :=
  match chain with
  | [] => ∅
  | [root] => default ∅ (data_ui_state_yml (directory root w))
  | profile :: rest =>
      match data_ui_state_diff_yml (directory profile w) with
      | Some diff =>
          foldl (fun m key => delete key m)
                (foldl (fun m entry => <[entry.1 := entry.2]> m) (replayUIState w rest)
                       (map_to_list (modified diff)))
                (removed diff)
      | None => replayUIState w rest
      end
  end.

(** What [listEditorUIStateProperties] keeps of the value of a row: a
    string with the extension-data path replaced by the placeholder,
    unless it then holds the home directory; any other value as it is. *)
Definition captured `{Collaborators} (value : jsval) : option jsval :=
  match value with
  | JStr text =>
      let text := replaceAll extensionDataUri EXTENSION_DATA_PATH text in
      if includes homedir text then None else Some (JStr text)
  | _ => Some value
  end.

(** The rows the query of [listEditorUIStateProperties] selects. *)
Definition selected (extensions : ExtensionList) (key : string) : Prop :=
  key ∈ inList (ids (disabled extensions) ++ ids (enabled extensions))
  ∨ String.prefix "workbench." (lowerCase key) = true.

(** An editor with one enabled extension, the engine's own extension, a
    built-in one, and two extension directories of which one belongs to
    the enabled extension. *)
Definition extensionsEditor : Editor :=
  mkEditor
    [ mkHostExtension "a.x" (Some (mkPackageJSON false false "33333333-3333-3333-3333-333333333333"));
      mkHostExtension "zokugun.sync-settings" (Some (mkPackageJSON false false "0"));
      mkHostExtension "vscode.git" (Some (mkPackageJSON true false "1")) ]
    [] None
    [ ("a.x-1.0.0", mkPackage "x" "a" None);
      ("c.z-2.1.0", mkPackage "z" "c" (Some "22222222-2222-2222-2222-222222222222")) ]
    [] None None None None (mkConfig ∅ ∅) false.

(** The names a profile's removal diff lists under [removed]: none when
    there is no diff document, [None] when the document lacks the key. *)
Definition removedNames (w : World) (profile : string) : option (list string) :=
  match data_snippets_diff_yml (directory profile w) with
  | Some diff => diff !! "removed"
  | None => Some []
  end.

(** The files of a profile's own snippets directory. *)
Definition ownSnippets (w : World) (profile : string) : gmap string string :=
  default ∅ (data_snippets (directory profile w)).

(** One turn of the copy loop of [restoreSnippets], on the files of the
    repository [w0]. *)
Definition copyStep (w0 : World) (ignore : list string) (row : string * (string * string))
  : option string :=
  if bool_decide (row.1 ∈ ignore) then None else ownSnippets w0 row.2.1 !! row.2.2.

(** The world after the directory of [this] is rewritten by [f]. *)
Definition storeIn (this : string) (f : ProfileDir → ProfileDir) (w : World) : World :=
  set_profiles (<[this := f (directory this w)]> (profiles w)) w.

(** The files of the editor's snippets directory. *)
Definition liveSnippets (w : World) : gmap string string := default ∅ (snippets (live w)).

(** [if(profile[file])] on the hash index of the ancestors. *)
Definition knownSnippet (inherited : gmap string string) (file : string) : bool :=
  match inherited !! file with
  | Some hash => nonEmptyString hash
  | None => false
  end.

(** A live file whose hash is the one the ancestors have for its name. *)
Definition unchangedSnippet {host : Collaborators} (inherited files : gmap string string)
    (file : string) : bool :=
  match inherited !! file, files !! file with
  | Some hash, Some data => nonEmptyString hash && bool_decide (sha1 data = hash)
  | _, _ => false
  end.

(** The live files [serializeSnippets] copies into the profile, and the
    names it lists under [removed]. *)
Definition storedSnippets {host : Collaborators} (inherited files : gmap string string)
  : gmap string string :=
  filter (fun row => unchangedSnippet inherited files row.1 = false) files.

(** [if(profile[file])] in [serializeSnippets], where [profile] is the
    hash index of the ancestors, a plain object: true of a name the index
    has a non-empty hash for, and of a name the index does not have but
    every object answers to. *)
Definition answersTo (inherited : gmap string string) (file : string) : bool :=
  match inherited !! file with
  | Some hash => nonEmptyString hash
  | None => bool_decide (file ∈ objectPrototypeNames)
  end.

Definition removedSnippets (inherited files : gmap string string) : list string :=
  if bool_decide (files = ∅) then (map_to_list inherited).*1
  else filter (fun file => answersTo inherited file = false) (map_to_list files).*1.

(** The names a profile's removal diff lists under [remove], the key
    [listProfileSnippetHashes] reads. *)
Definition hashRemovals (w : World) (profile : string) : option (list string) :=
  match data_snippets_diff_yml (directory profile w) with
  | Some diff => diff !! "remove"
  | None => Some []
  end.

(** An editor with two snippets, one of them the snippet of [base]; and
    the repository of [snippetsWorld] opened on a profile from it. *)
Definition snippetsEditor : Editor :=
  set_snippets (Some {[ "foo.code-snippets" := "{}"; "new.code-snippets" := "{n}" ]}) exampleEditor.

Definition editingWorld (this : string) : World :=
  exampleWorld this (profiles snippetsWorld) snippetsEditor.

(** The editor holds one snippet, below a sub-directory. *)
Definition nestedWorld (this : string) : World :=
  exampleWorld this (profiles snippetsWorld)
    (set_snippets (Some {[ "sub/foo.code-snippets" := "{}" ]}) exampleEditor).

(** [if(typeof value === 'string') value = value.replaceAll(placeholder, extDataPath)] *)
Definition substituted {host : Collaborators} (value : jsval) : jsval :=
  match value with
  | JStr text => JStr (replaceAllTemplate EXTENSION_DATA_PATH extensionDataUri text)
  | _ => value
  end.

(** * Properties *)

(** ** The merge of extension lists *)

Lemma hasId_spec i l : hasId i l = true ↔ i ∈ ids l.
Proof.
  unfold hasId, ids. induction l as [|x l IH]; simpl.
  - split; [done | intros Hin; inversion Hin].
  - rewrite orb_true_iff, IH, bool_decide_eq_true, elem_of_cons. split; intros [?|?]; auto.
Qed.

Lemma hasId_false i l : hasId i l = false ↔ i ∉ ids l.
Proof. rewrite <- hasId_spec. destruct (hasId i l); naive_solver. Qed.

Lemma spliceFirst_absent i l : i ∉ ids l → spliceFirst i l = l.
Proof.
  unfold ids. induction l as [|x l IH]; simpl; [done|].
  intros Hn. rewrite not_elem_of_cons in Hn. destruct Hn as [Hne Hn].
  rewrite bool_decide_eq_false_2 by congruence. by rewrite IH.
Qed.

Lemma spliceFirst_filter i l :
  NoDup (ids l) → spliceFirst i l = filter (fun x => id x ≠ i) l.
Proof.
  unfold ids. induction l as [|x l IH]; simpl; [done|].
  intros Hnd. apply NoDup_cons in Hnd as [Hx Hnd].
  destruct (decide (id x = i)) as [Heq|Hne].
  - rewrite bool_decide_eq_true_2 by done.
    rewrite filter_cons_False by (intros Hc; by apply Hc).
    rewrite <- IH by done. symmetry. apply spliceFirst_absent. by rewrite <- Heq.
  - rewrite bool_decide_eq_false_2 by done.
    rewrite filter_cons_True by done. by rewrite IH.
Qed.

Lemma ids_filter (P : string → Prop) `{!∀ i, Decision (P i)} l :
  ids (filter (fun x => P (id x)) l) = filter P (ids l).
Proof.
  unfold ids. induction l as [|x l IH]; [done|].
  rewrite fmap_cons, !filter_cons.
  destruct (decide (P (id x))); by rewrite ?fmap_cons, IH.
Qed.

Lemma ids_app l k : ids (l ++ k) = ids l ++ ids k.
Proof. apply fmap_app. Qed.

Lemma pushIfAbsent_present x l : id x ∈ ids l → pushIfAbsent x l = l.
Proof. intros Hin. unfold pushIfAbsent. by rewrite (proj2 (hasId_spec _ _) Hin). Qed.

Lemma pushIfAbsent_absent x l : id x ∉ ids l → pushIfAbsent x l = l ++ [x].
Proof. intros Hin. unfold pushIfAbsent. by rewrite (proj2 (hasId_false _ _) Hin). Qed.

Lemma wfLists_parts s :
  wfLists s ↔ NoDup (ids s.1) ∧ (∀ i, i ∈ ids s.1 → i ∉ ids s.2) ∧ NoDup (ids s.2).
Proof. apply NoDup_app. Qed.

Lemma elem_of_ids_filter (P : string → Prop) `{!∀ i, Decision (P i)} i l :
  i ∈ ids (filter (fun x => P (id x)) l) ↔ P i ∧ i ∈ ids l.
Proof. rewrite ids_filter. apply list_elem_of_filter. Qed.

Lemma elem_of_ids_drop j i l :
  i ∈ ids (filter (fun y => id y ≠ j) l) ↔ i ∈ ids l ∧ i ≠ j.
Proof.
  pose proof (elem_of_ids_filter (fun k => k ≠ j) i l) as Hm. simpl in Hm.
  rewrite Hm. tauto.
Qed.

Lemma NoDup_ids_drop j l :
  NoDup (ids l) → NoDup (ids (filter (fun y => id y ≠ j) l)).
Proof.
  intros Hnd. pose proof (ids_filter (fun k => k ≠ j) l) as Hm. simpl in Hm.
  rewrite Hm. by apply NoDup_filter.
Qed.

Lemma stepDisabled_spec s x :
  wfLists s →
  wfLists (stepDisabled s x)
  ∧ (∀ i, i ∈ ids (stepDisabled s x).1 ↔ i ∈ ids s.1 ∨ i = id x)
  ∧ (∀ i, i ∈ ids (stepDisabled s x).2 ↔ i ∈ ids s.2 ∧ i ≠ id x).
Proof.
  destruct s as [d e]. rewrite !wfLists_parts. simpl. intros (Hd & Hde & He).
  rewrite (spliceFirst_filter _ _ He).
  pose proof (elem_of_ids_drop (id x)) as Hmem2.
  pose proof (NoDup_ids_drop (id x) e He) as Hnd2.
  destruct (decide (id x ∈ ids d)) as [Hin|Hnin].
  - rewrite (pushIfAbsent_present _ _ Hin). split_and!; [done| |done| |done].
    + intros i Hi [Hie _]%Hmem2. by eapply Hde.
    + intros i. split; [auto|]. intros [?|Heq]; [done|by rewrite Heq].
  - rewrite (pushIfAbsent_absent _ _ Hnin). rewrite ids_app. simpl.
    split_and!; [| |done| |done].
    + apply NoDup_app. split_and!; [done| |apply NoDup_singleton].
      intros i Hi Hs%list_elem_of_singleton. by rewrite Hs in Hi.
    + intros i [Hi|Hs%list_elem_of_singleton]%elem_of_app [Hie Hne]%Hmem2.
      * by eapply Hde.
      * done.
    + intros i. by rewrite elem_of_app, list_elem_of_singleton.
Qed.

Lemma wfLists_swap s : wfLists s → wfLists (swap s).
Proof.
  unfold wfLists, swap. simpl. intros (H1 & H2 & H3)%NoDup_app.
  apply NoDup_app. split_and!; [done| |done].
  intros i Hi Hj. by eapply H2.
Qed.

Lemma stepEnabled_swap s x : stepEnabled s x = swap (stepDisabled (swap s) x).
Proof. by destruct s. Qed.

Lemma stepEnabled_spec s x :
  wfLists s →
  wfLists (stepEnabled s x)
  ∧ (∀ i, i ∈ ids (stepEnabled s x).1 ↔ i ∈ ids s.1 ∧ i ≠ id x)
  ∧ (∀ i, i ∈ ids (stepEnabled s x).2 ↔ i ∈ ids s.2 ∨ i = id x).
Proof.
  intros Hwf. rewrite stepEnabled_swap.
  destruct (stepDisabled_spec (swap s) x (wfLists_swap _ Hwf)) as (Hw & H1 & H2).
  split_and!; [by apply wfLists_swap | apply H2 | apply H1].
Qed.

Lemma filter_ids_absent i l : i ∉ ids l → filter (fun y => id y ≠ i) l = l.
Proof.
  unfold ids. induction l as [|x l IH]; [done|].
  rewrite fmap_cons, not_elem_of_cons. intros [Hne Hn].
  rewrite filter_cons_True by done. by rewrite IH.
Qed.

Lemma stepUninstall_filter s u :
  wfLists s →
  stepUninstall s u
  = (filter (fun y => id y ≠ id u) s.1, filter (fun y => id y ≠ id u) s.2).
Proof.
  destruct s as [d e]. rewrite wfLists_parts. simpl. intros (Hd & Hde & He).
  unfold stepUninstall. simpl. destruct (hasId (id u) d) eqn:Hh.
  - apply hasId_spec in Hh. rewrite (spliceFirst_filter _ _ Hd).
    by rewrite (filter_ids_absent _ e (Hde _ Hh)).
  - apply hasId_false in Hh. rewrite (spliceFirst_filter _ _ He).
    by rewrite (filter_ids_absent _ d Hh).
Qed.

Lemma wfLists_drop j s :
  wfLists s →
  wfLists (filter (fun y => id y ≠ j) s.1, filter (fun y => id y ≠ j) s.2).
Proof.
  destruct s as [d e]. rewrite !wfLists_parts. simpl. intros (Hd & Hde & He).
  split_and!; [by apply NoDup_ids_drop | | by apply NoDup_ids_drop].
  intros i [Hi _]%elem_of_ids_drop [Hie _]%elem_of_ids_drop. by eapply Hde.
Qed.

Lemma filter_keep_all {A} (P : A → Prop) `{!∀ x, Decision (P x)} (l : list A) :
  (∀ x, x ∈ l → P x) → filter P l = l.
Proof.
  induction l as [|x l IH]; [done|]. intros Hall.
  rewrite filter_cons_True by (apply Hall; left).
  rewrite IH; [done|]. intros y Hy. apply Hall. by right.
Qed.

Lemma filter_drop_all {A} (P : A → Prop) `{!∀ x, Decision (P x)} (l : list A) :
  (∀ x, x ∈ l → ¬ P x) → filter P l = [].
Proof.
  induction l as [|x l IH]; [done|]. intros Hall.
  rewrite filter_cons_False by (apply Hall; left).
  apply IH. intros y Hy. apply Hall. by right.
Qed.

Lemma foldl_stepUninstall_filter us s :
  wfLists s →
  foldl stepUninstall s us
  = (filter (fun y => id y ∉ ids us) s.1, filter (fun y => id y ∉ ids us) s.2).
Proof.
  revert s. induction us as [|u us IH]; intros s Hwf.
  - simpl. destruct s as [d e]. simpl.
    rewrite !filter_keep_all; [done| |]; intros x _ Hin; inversion Hin.
  - cbn [foldl]. rewrite (stepUninstall_filter _ _ Hwf).
    rewrite IH by (by apply wfLists_drop). cbn [fst snd].
    rewrite !list_filter_filter. f_equal; apply list_filter_iff; intros y;
      unfold ids; rewrite fmap_cons, not_elem_of_cons; tauto.
Qed.

Lemma foldl_stepDisabled_spec xs s :
  wfLists s →
  wfLists (foldl stepDisabled s xs)
  ∧ (∀ i, i ∈ ids (foldl stepDisabled s xs).1 ↔ i ∈ ids s.1 ∨ i ∈ ids xs)
  ∧ (∀ i, i ∈ ids (foldl stepDisabled s xs).2 ↔ i ∈ ids s.2 ∧ i ∉ ids xs).
Proof.
  revert s. induction xs as [|x xs IH]; intros s Hwf; cbn [foldl].
  - split_and!; [done| |]; intros i; split; try tauto.
    + intros [?|Hin]; [done|inversion Hin].
    + intros ?; split; [done|]. intros Hin; inversion Hin.
  - destruct (stepDisabled_spec s x Hwf) as (Hw & H1 & H2).
    destruct (IH _ Hw) as (Hw' & H1' & H2').
    split_and!; [done| |]; intros i.
    + rewrite H1', H1. unfold ids at 4. rewrite fmap_cons, elem_of_cons. tauto.
    + rewrite H2', H2. unfold ids at 4. rewrite fmap_cons, not_elem_of_cons. tauto.
Qed.

Lemma foldl_stepEnabled_spec xs s :
  wfLists s →
  wfLists (foldl stepEnabled s xs)
  ∧ (∀ i, i ∈ ids (foldl stepEnabled s xs).1 ↔ i ∈ ids s.1 ∧ i ∉ ids xs)
  ∧ (∀ i, i ∈ ids (foldl stepEnabled s xs).2 ↔ i ∈ ids s.2 ∨ i ∈ ids xs).
Proof.
  revert s. induction xs as [|x xs IH]; intros s Hwf; cbn [foldl].
  - split_and!; [done| |]; intros i; split; try tauto.
    + intros ?; split; [done|]. intros Hin; inversion Hin.
    + intros [?|Hin]; [done|inversion Hin].
  - destruct (stepEnabled_spec s x Hwf) as (Hw & H1 & H2).
    destruct (IH _ Hw) as (Hw' & H1' & H2').
    split_and!; [done| |]; intros i.
    + rewrite H1', H1. unfold ids at 4. rewrite fmap_cons, not_elem_of_cons. tauto.
    + rewrite H2', H2. unfold ids at 4. rewrite fmap_cons, elem_of_cons. tauto.
Qed.

Lemma applyExtensionsDiff_unfold base diff :
  applyExtensionsDiff base diff
  = let s := foldl stepUninstall (afterEnabled base diff) (default [] (uninstall diff)) in
    {| builtin := None; disabled := s.1; enabled := s.2; uninstall := None |}.
Proof. unfold applyExtensionsDiff, afterEnabled. by destruct (uninstall diff). Qed.

Lemma afterEnabled_spec base diff :
  wellFormed base →
  wfLists (afterEnabled base diff)
  ∧ (∀ i, i ∈ ids (afterEnabled base diff).1
          ↔ (i ∈ ids (disabled base) ∨ i ∈ ids (disabled diff)) ∧ i ∉ ids (enabled diff))
  ∧ (∀ i, i ∈ ids (afterEnabled base diff).2
          ↔ (i ∈ ids (enabled base) ∧ i ∉ ids (disabled diff)) ∨ i ∈ ids (enabled diff)).
Proof.
  intros Hwf. unfold afterEnabled.
  destruct (foldl_stepDisabled_spec (disabled diff) (disabled base, enabled base) Hwf)
    as (Hw1 & Hd1 & He1).
  destruct (foldl_stepEnabled_spec (enabled diff) _ Hw1) as (Hw2 & Hd2 & He2).
  split_and!; [done| |]; intros i.
  - rewrite Hd2, Hd1. done.
  - rewrite He2, He1. done.
Qed.

Lemma applyExtensionsDiff_spec base diff :
  wellFormed base →
  wellFormed (applyExtensionsDiff base diff)
  ∧ (∀ i, i ∈ ids (disabled (applyExtensionsDiff base diff))
          ↔ (i ∈ ids (disabled base) ∨ i ∈ ids (disabled diff))
            ∧ (i ∉ ids (enabled diff)) ∧ (i ∉ uninstallIds diff))
  ∧ (∀ i, i ∈ ids (enabled (applyExtensionsDiff base diff))
          ↔ ((i ∈ ids (enabled base) ∧ i ∉ ids (disabled diff)) ∨ i ∈ ids (enabled diff))
            ∧ (i ∉ uninstallIds diff)).
Proof.
  intros Hwf. rewrite applyExtensionsDiff_unfold. cbn zeta.
  destruct (afterEnabled_spec base diff Hwf) as (Hw & Hd & He).
  rewrite (foldl_stepUninstall_filter _ _ Hw). unfold wellFormed. cbn [disabled enabled fst snd].
  fold (uninstallIds diff).
  pose proof (ids_filter (fun k => k ∉ uninstallIds diff)) as Hf. cbn beta in Hf.
  rewrite !Hf. split_and!.
  - apply NoDup_app. apply NoDup_app in Hw as (H1 & H2 & H3).
    split_and!; [by apply NoDup_filter| |by apply NoDup_filter].
    intros i [_ Hi]%list_elem_of_filter [_ Hj]%list_elem_of_filter. by eapply H2.
  - intros i. rewrite list_elem_of_filter, Hd. tauto.
  - intros i. rewrite list_elem_of_filter, He. tauto.
Qed.

Lemma indexById_key l i e : indexById l !! i = Some e → id e = i.
Proof.
  unfold indexById.
  assert (Hgen : ∀ (m : gmap string ExtensionId),
            (∀ j x, m !! j = Some x → id x = j) →
            ∀ j x, foldl (fun m ext => <[id ext := ext]> m) m l !! j = Some x → id x = j).
  { induction l as [|y l IH]; intros m Hm j x; cbn [foldl]; [apply Hm|].
    apply IH. intros j' x'. rewrite lookup_insert. case_decide; [|apply Hm].
    intros [= <-]. congruence. }
  apply Hgen. intros j x. by rewrite lookup_empty.
Qed.

Lemma ids_resolveIds l names : ids (resolveIds (indexById l) names) = names.
Proof.
  unfold ids, resolveIds. rewrite <- list_fmap_compose.
  rewrite <- (list_fmap_id names) at 2. apply list_fmap_ext.
  intros _ i _. simpl. destruct (indexById l !! i) as [e|] eqn:Hl; simpl; [|done].
  by apply indexById_key in Hl.
Qed.

Lemma elem_of_arrayDiff i a b : i ∈ arrayDiff a b ↔ i ∈ a ∧ i ∉ b.
Proof. unfold arrayDiff. rewrite list_elem_of_filter. tauto. Qed.

Lemma uninstallIds_compute editor profile :
  uninstallIds (computeExtensionsDiff editor profile)
  = arrayDiff (ids (disabled profile ++ enabled profile)) (ids (disabled editor ++ enabled editor)).
Proof.
  unfold uninstallIds, computeExtensionsDiff. cbn [uninstall].
  case_bool_decide as Hlen; cbn [default]; [apply ids_resolveIds|].
  rewrite <- (ids_resolveIds (disabled profile ++ enabled profile ++ disabled editor ++ enabled editor)).
  destruct (resolveIds _ _); [done|]. simpl in Hlen. lia.
Qed.

(** The diff that serialize stores is read back as it was computed. *)
Lemma stored_diff_decodes_to_itself editor profile :
  decodeDiffDocument (documentOf (computeExtensionsDiff editor profile))
  = computeExtensionsDiff editor profile.
Proof.
  unfold decodeDiffDocument, documentOf, decodeUninstall, computeExtensionsDiff.
  cbn [raw_disabled raw_enabled raw_uninstall decodeList disabled enabled uninstall builtin].
  by case_bool_decide.
Qed.

(** C1.  Set-diff correctness: when neither the stored list [L1] nor the
    live list [L2] names an id twice, applying to [L1] the diff that
    serialize computes from [L2] against [L1] gives a list whose disabled
    ids are those of [L2], whose enabled ids are those of [L2], and which
    names no id twice, neither inside one array nor across the two. *)
Theorem set_diff_correctness (L1 L2 : ExtensionList) :
  wellFormed L1 → wellFormed L2 →
  let result := applyExtensionsDiff L1 (computeExtensionsDiff L2 L1) in
  (∀ i, i ∈ ids (disabled result) ↔ i ∈ ids (disabled L2))
  ∧ (∀ i, i ∈ ids (enabled result) ↔ i ∈ ids (enabled L2))
  ∧ wellFormed result.
Proof.
  intros Hwf1 Hwf2 result. subst result.
  destruct (applyExtensionsDiff_spec L1 (computeExtensionsDiff L2 L1) Hwf1) as (Hw & Hd & He).
  apply NoDup_app in Hwf1 as (_ & Hx1 & _). apply NoDup_app in Hwf2 as (_ & Hx2 & _).
  assert (HD : ids (disabled (computeExtensionsDiff L2 L1))
               = arrayDiff (ids (disabled L2)) (ids (disabled L1))) by apply ids_resolveIds.
  assert (HE : ids (enabled (computeExtensionsDiff L2 L1))
               = arrayDiff (ids (enabled L2)) (ids (enabled L1))) by apply ids_resolveIds.
  split_and!; [| |done]; intros i.
  - rewrite Hd, HD, HE, uninstallIds_compute, !elem_of_arrayDiff, !ids_app, !elem_of_app.
    specialize (Hx1 i). specialize (Hx2 i).
    destruct (decide (i ∈ ids (disabled L1))), (decide (i ∈ ids (enabled L1))),
      (decide (i ∈ ids (disabled L2))), (decide (i ∈ ids (enabled L2))); tauto.
  - rewrite He, HD, HE, uninstallIds_compute, !elem_of_arrayDiff, !ids_app, !elem_of_app.
    specialize (Hx1 i). specialize (Hx2 i).
    destruct (decide (i ∈ ids (disabled L1))), (decide (i ∈ ids (enabled L1))),
      (decide (i ∈ ids (disabled L2))), (decide (i ∈ ids (enabled L2))); tauto.
Qed.

Lemma foldl_stepDisabled_append xs d e :
  (∀ i, i ∈ ids xs → i ∉ ids e) →
  ∃ added, foldl stepDisabled (d, e) xs = (d ++ added, e)
           ∧ ∀ i, i ∈ ids added → i ∈ ids xs ∧ i ∉ ids d.
Proof.
  revert d. induction xs as [|x xs IH]; intros d Hxs; cbn [foldl].
  - exists []. rewrite app_nil_r. split; [done|]. intros i Hi; inversion Hi.
  - assert (Hx : id x ∉ ids e) by (apply Hxs; unfold ids; rewrite fmap_cons; left).
    assert (Hrest : ∀ i, i ∈ ids xs → i ∉ ids e).
    { intros i Hi. apply Hxs. unfold ids. rewrite fmap_cons. by right. }
    unfold stepDisabled at 2. cbn [fst snd]. rewrite (spliceFirst_absent _ _ Hx).
    destruct (decide (id x ∈ ids d)) as [Hin|Hnin].
    + rewrite (pushIfAbsent_present _ _ Hin).
      destruct (IH d Hrest) as (added & Heq & Hadded). exists added. split; [done|].
      intros i Hi. destruct (Hadded i Hi) as [Hi1 Hi2]. split; [|done].
      unfold ids. rewrite fmap_cons. by right.
    + rewrite (pushIfAbsent_absent _ _ Hnin).
      destruct (IH (d ++ [x]) Hrest) as (added & Heq & Hadded).
      exists (x :: added). rewrite Heq, <- app_assoc. split; [done|].
      intros i. unfold ids at 1 2. rewrite !fmap_cons, !elem_of_cons.
      intros [->|Hi]; [by split; [left|]|].
      destruct (Hadded i Hi) as [Hi1 Hi2]. split; [by right|].
      rewrite ids_app, elem_of_app in Hi2. tauto.
Qed.

Lemma foldl_stepEnabled_append ys d e :
  (∀ i, i ∈ ids ys → i ∉ ids d) →
  ∃ added, foldl stepEnabled (d, e) ys = (d, e ++ added)
           ∧ ∀ i, i ∈ ids added → i ∈ ids ys ∧ i ∉ ids e.
Proof.
  intros Hys. destruct (foldl_stepDisabled_append ys e d Hys) as (added & Heq & Hadded).
  exists added. split; [|done].
  assert (Hswap : ∀ l s, foldl stepEnabled s l = swap (foldl stepDisabled (swap s) l)).
  { induction l as [|y l IH]; intros s; cbn [foldl]; [by destruct s|].
    rewrite IH. by destruct s. }
  rewrite Hswap. unfold swap at 2. cbn [fst snd]. by rewrite Heq.
Qed.

(** C9, as amended.  Applying a diff a second time changes nothing, when
    the base names no id twice and the diff names no id both as disabled
    and as enabled. *)
Theorem apply_twice (B D : ExtensionList) :
  wellFormed B →
  (∀ i, i ∈ ids (disabled D) → i ∉ ids (enabled D)) →
  applyExtensionsDiff (applyExtensionsDiff B D) D = applyExtensionsDiff B D.
Proof.
  intros Hwf Hdisj.
  destruct (applyExtensionsDiff_spec B D Hwf) as (HwR & HdR & HeR).
  set (R := applyExtensionsDiff B D) in *.
  rewrite (applyExtensionsDiff_unfold R D). cbn zeta.
  destruct (afterEnabled_spec R D HwR) as (Hw2 & _ & _).
  rewrite (foldl_stepUninstall_filter _ _ Hw2). fold (uninstallIds D).
  unfold afterEnabled.
  destruct (foldl_stepDisabled_append (disabled D) (disabled R) (enabled R)) as (A & -> & HA).
  { intros i Hi [[[_ Hn]|Hin] _]%HeR; [done|]. by eapply Hdisj. }
  destruct (foldl_stepEnabled_append (enabled D) (disabled R ++ A) (enabled R)) as (C & -> & HC).
  { intros i Hi. rewrite ids_app, elem_of_app. intros [(_ & Hn & _)%HdR|Hin]; [done|].
    destruct (HA i Hin) as [Hin' _]. by eapply Hdisj. }
  cbn [fst snd]. rewrite !filter_app.
  assert (HA' : filter (fun y => id y ∉ uninstallIds D) A = []).
  { apply filter_drop_all. intros x Hx Hnu.
    assert (Hxi : id x ∈ ids A) by (by apply list_elem_of_fmap_2).
    destruct (HA _ Hxi) as [Hin Hnot]. apply Hnot, HdR.
    split_and!; [by right| |done]. by apply Hdisj. }
  assert (HC' : filter (fun y => id y ∉ uninstallIds D) C = []).
  { apply filter_drop_all. intros x Hx Hnu.
    assert (Hxi : id x ∈ ids C) by (by apply list_elem_of_fmap_2).
    destruct (HC _ Hxi) as [Hin Hnot]. apply Hnot, HeR.
    split; [by right|done]. }
  rewrite HA', HC', !app_nil_r.
  rewrite !filter_keep_all.
  - subst R. reflexivity.
  - intros x Hx. assert (Hxi : id x ∈ ids (enabled R)) by (by apply list_elem_of_fmap_2).
    apply HeR in Hxi. tauto.
  - intros x Hx. assert (Hxi : id x ∈ ids (disabled R)) by (by apply list_elem_of_fmap_2).
    apply HdR in Hxi. tauto.
Qed.

(** [set_diff_correctness] at [storedList] and [liveList]. *)
Lemma set_diff_correctness_witness :
  wellFormed storedList ∧ wellFormed liveList
  ∧ let result := applyExtensionsDiff storedList (computeExtensionsDiff liveList storedList) in
    (∀ i, i ∈ ids (disabled result) ↔ i ∈ ids (disabled liveList))
    ∧ (∀ i, i ∈ ids (enabled result) ↔ i ∈ ids (enabled liveList))
    ∧ wellFormed result.
Proof.
  assert (H1 : wellFormed storedList) by (apply (bool_decide_unpack _); vm_compute; reflexivity).
  assert (H2 : wellFormed liveList) by (apply (bool_decide_unpack _); vm_compute; reflexivity).
  split; [exact H1|]. split; [exact H2|].
  exact (set_diff_correctness storedList liveList H1 H2).
Defined.

(** C9, as stated, fails.  With a base that names [a.x] twice, the first
    application takes out one of the two entries and the second takes out
    the other; with a diff that names [a.x] on both sides, the second
    application moves [a.x] behind [c.z]. *)
Lemma apply_twice_counterexample :
  applyExtensionsDiff (applyExtensionsDiff doubledBase disablingDiff) disablingDiff
    ≠ applyExtensionsDiff doubledBase disablingDiff
  ∧ applyExtensionsDiff (applyExtensionsDiff plainBase twoSidedDiff) twoSidedDiff
    ≠ applyExtensionsDiff plainBase twoSidedDiff.
Proof. split; vm_compute; intros Heq; discriminate Heq. Qed.

(** [apply_twice] at [storedList] and the diff towards [liveList]. *)
Lemma apply_twice_witness :
  wellFormed storedList
  ∧ (∀ i, i ∈ ids (disabled (computeExtensionsDiff liveList storedList)) →
          i ∉ ids (enabled (computeExtensionsDiff liveList storedList)))
  ∧ applyExtensionsDiff
      (applyExtensionsDiff storedList (computeExtensionsDiff liveList storedList))
      (computeExtensionsDiff liveList storedList)
    = applyExtensionsDiff storedList (computeExtensionsDiff liveList storedList).
Proof.
  assert (H1 : wellFormed storedList) by (apply (bool_decide_unpack _); vm_compute; reflexivity).
  assert (H2 : ∀ i, i ∈ ids (disabled (computeExtensionsDiff liveList storedList)) →
                    i ∉ ids (enabled (computeExtensionsDiff liveList storedList))).
  { assert (Hd : ids (disabled (computeExtensionsDiff liveList storedList)) = ["a.x"])
      by (vm_compute; reflexivity).
    assert (He : ids (enabled (computeExtensionsDiff liveList storedList)) = ["c.z"])
      by (vm_compute; reflexivity).
    rewrite Hd, He. intros i Hi%list_elem_of_singleton Hj%list_elem_of_singleton.
    rewrite Hi in Hj. discriminate Hj. }
  split; [exact H1|]. split; [exact H2|].
  exact (apply_twice storedList (computeExtensionsDiff liveList storedList) H1 H2).
Defined.

(** ** Computations that only read *)

Create HintDb readonly.

Lemma ReadOnly_run {A} (m : M A) w : ReadOnly m → m w = ((m w).1, w).
Proof. intros Hm. specialize (Hm w). destruct (m w) as [r w']. simpl in *. by subst. Qed.

Lemma ReadOnly_ret {A} (a : A) : ReadOnly (ret a).
Proof. by intros w. Qed.

Lemma ReadOnly_throw {A} e : ReadOnly (@throw A e).
Proof. by intros w. Qed.

Lemma ReadOnly_diverge {A} : ReadOnly (@diverge A).
Proof. by intros w. Qed.

Lemma ReadOnly_gets {A} (f : World → A) : ReadOnly (gets f).
Proof. by intros w. Qed.

Lemma ReadOnly_bind {A B} (m : M A) (k : A → M B) :
  ReadOnly m → (∀ a, ReadOnly (k a)) → ReadOnly (bind m k).
Proof.
  intros Hm Hk w. unfold bind. rewrite (ReadOnly_run m w Hm).
  destruct (m w).1; [apply Hk|done|done].
Qed.

Lemma ReadOnly_exists {A} (path : RepoPath A) : ReadOnly (exists_ path).
Proof. apply ReadOnly_gets. Qed.

Ltac read_only_step :=
  match goal with
  | |- ReadOnly (bind _ _) => apply ReadOnly_bind; [|intros ?]
  | |- ReadOnly (ret _) => apply ReadOnly_ret
  | |- ReadOnly (throw _) => apply ReadOnly_throw
  | |- ReadOnly diverge => apply ReadOnly_diverge
  | |- ReadOnly (gets _) => apply ReadOnly_gets
  | |- ReadOnly (exists_ _) => apply ReadOnly_exists
  | |- ReadOnly (match ?x with _ => _ end) => destruct x
  | |- ReadOnly _ => progress cbv zeta
  | |- ReadOnly _ => solve [auto with readonly]
  end.
Ltac read_only := repeat read_only_step.

Lemma ReadOnly_readFile {A} (path : RepoPath A) : ReadOnly (readFile path).
Proof. unfold readFile. read_only. Qed.

Lemma ReadOnly_globby {A} (path : RepoPath (gmap string A)) : ReadOnly (globby path).
Proof. unfold globby. read_only. Qed.

Lemma ReadOnly_readFileIn {A} (dir : RepoPath (gmap string A)) file : ReadOnly (readFileIn dir file).
Proof. unfold readFileIn. read_only. Qed.

Lemma ReadOnly_iterable {A} (array : option (list A)) : ReadOnly (iterable array).
Proof. unfold iterable. read_only. Qed.

Lemma ReadOnly_asArray v : ReadOnly (asArray v).
Proof. unfold asArray. read_only. Qed.

Lemma ReadOnly_field syncSettings key : ReadOnly (field syncSettings key).
Proof. unfold field. read_only. Qed.

Lemma ReadOnly_foldM {A S} (l : list A) (s : S) (body : S → A → M S) :
  (∀ s x, ReadOnly (body s x)) → ReadOnly (foldM l s body).
Proof.
  intros Hbody. revert s. induction l as [|x l IH]; intros s; cbn [foldM]; read_only.
Qed.

#[local] Hint Resolve ReadOnly_readFile ReadOnly_globby ReadOnly_readFileIn
  ReadOnly_iterable ReadOnly_asArray ReadOnly_field: readonly.

Lemma ReadOnly_checkInitialized : ReadOnly checkInitialized.
Proof. unfold checkInitialized. read_only. Qed.

Lemma ReadOnly_loadProfileSettings profile : ReadOnly (loadProfileSettings profile).
Proof. unfold loadProfileSettings. read_only. Qed.
#[local] Hint Resolve ReadOnly_checkInitialized ReadOnly_loadProfileSettings: readonly.

Lemma ReadOnly_ancestorLoop fuel profile settings : ReadOnly (ancestorLoop fuel profile settings).
Proof.
  revert profile settings. induction fuel as [|n IH]; intros profile settings;
    cbn [ancestorLoop]; read_only.
Qed.
#[local] Hint Resolve ReadOnly_ancestorLoop: readonly.

Lemma ReadOnly_getAncestorProfile fuel profile : ReadOnly (getAncestorProfile fuel profile).
Proof. unfold getAncestorProfile. read_only. Qed.

Lemma ReadOnly_loadProfileSyncSettings fuel profile : ReadOnly (loadProfileSyncSettings fuel profile).
Proof.
  revert profile. induction fuel as [|n IH]; intros profile;
    cbn [loadProfileSyncSettings]; read_only.
Qed.

Lemma ReadOnly_listProfileExtensions fuel profile : ReadOnly (listProfileExtensions fuel profile).
Proof.
  revert profile. induction fuel as [|n IH]; intros profile;
    cbn [listProfileExtensions]; read_only.
Qed.

Lemma ReadOnly_loadUIStateDiff profile : ReadOnly (loadUIStateDiff profile).
Proof. unfold loadUIStateDiff. read_only. Qed.
#[local] Hint Resolve ReadOnly_getAncestorProfile ReadOnly_loadProfileSyncSettings
  ReadOnly_listProfileExtensions ReadOnly_loadUIStateDiff: readonly.

Lemma ReadOnly_listProfileUIStateProperties fuel profile :
  ReadOnly (listProfileUIStateProperties fuel profile).
Proof.
  revert profile. induction fuel as [|n IH]; intros profile;
    cbn [listProfileUIStateProperties]; read_only.
Qed.

Lemma ReadOnly_canManageExtensions : ReadOnly canManageExtensions.
Proof. unfold canManageExtensions. read_only. Qed.

Lemma ReadOnly_includesId v i : ReadOnly (includesId v i).
Proof. unfold includesId. read_only. Qed.
#[local] Hint Resolve ReadOnly_listProfileUIStateProperties ReadOnly_canManageExtensions
  ReadOnly_includesId: readonly.

Lemma ReadOnly_listEditorExtensions v : ReadOnly (listEditorExtensions v).
Proof.
  unfold listEditorExtensions. read_only.
  - apply ReadOnly_foldM. intros [enabled seen] extension. read_only.
  - apply ReadOnly_foldM. intros disabled [name pkg]. read_only.
Qed.

Lemma ReadOnly_readStateDB keys : ReadOnly (readStateDB keys).
Proof. unfold readStateDB. read_only. Qed.
#[local] Hint Resolve ReadOnly_listEditorExtensions ReadOnly_readStateDB: readonly.

Section Properties.
Context {host : Collaborators}.

Lemma ReadOnly_listEditorUIStateProperties extensions :
  ReadOnly (listEditorUIStateProperties extensions).
Proof. unfold listEditorUIStateProperties. read_only. Qed.
#[local] Hint Resolve ReadOnly_listEditorUIStateProperties: readonly.

Lemma ReadOnly_shouldRestartApp fuel resources : ReadOnly (shouldRestartApp fuel resources).
Proof. unfold shouldRestartApp. read_only. Qed.

Lemma bind_ReadOnly {A B} (m : M A) (k : A → M B) w :
  ReadOnly m →
  bind m k w = match (m w).1 with
               | Ok a => k a w
               | Throw e => (Throw e, w)
               | Diverge => (Diverge, w)
               end.
Proof. intros Hm. unfold bind. rewrite (ReadOnly_run m w Hm). by destruct (m w).1. Qed.

Lemma untouched_refl w : untouched w w.
Proof.
  unfold untouched, performed. split_and!; [done|done|].
  rewrite drop_all. constructor.
Qed.

Lemma untouched_prompt w : untouched w (record OpPrompt w).
Proof.
  unfold untouched, performed, record. cbn [live profiles journal]. split_and!; [done|done|].
  rewrite drop_app_length. by repeat constructor.
Qed.

(** C3.  In [restoreProfile] the restart check runs before anything is
    changed: [shouldRestartApp] changes nothing itself; when it answers
    yes and the user declines, [restoreProfile] returns with the editor and
    the repository as they were, the prompt being all that happened; and
    whenever [restoreProfile] leaves a trace on the editor or the
    repository, the check had returned, on the world [restoreProfile]
    started from, and the user had agreed if it asked for a restart. *)
Theorem restart_check_before_mutation (fuel : nat) (w : World) :
  (∀ resources, (shouldRestartApp fuel resources w).2 = w)
  ∧ (∀ syncSettings ancestor resources,
       _initialized w = true →
       (loadProfileSyncSettings fuel (_profile w) w).1 = Ok (Fields syncSettings) →
       (getAncestorProfile fuel (_profile w) w).1 = Ok ancestor →
       default (PStrings allResources) (syncSettings !! "resources") = PStrings resources →
       (shouldRestartApp fuel resources w).1 = Ok true →
       answersYes (live w) = false →
       restoreProfile fuel w = (Ok tt, record OpPrompt w))
  ∧ (untouched w (restoreProfile fuel w).2
     ∨ ∃ syncSettings resources restart,
         (loadProfileSyncSettings fuel (_profile w) w).1 = Ok (Fields syncSettings)
         ∧ default (PStrings allResources) (syncSettings !! "resources") = PStrings resources
         ∧ shouldRestartApp fuel resources w = (Ok restart, w)
         ∧ (restart = true → answersYes (live w) = true)).
Proof.
  split_and!.
  - intros resources. apply ReadOnly_shouldRestartApp.
  - intros syncSettings ancestor resources Hinit Hsync Hanc Hres Hrestart Hno.
    unfold restoreProfile.
    rewrite bind_ReadOnly by auto with readonly. unfold checkInitialized at 1.
    rewrite bind_ReadOnly by apply ReadOnly_gets. cbn [gets fst]. rewrite Hinit. cbn [ret fst].
    rewrite bind_ReadOnly by apply ReadOnly_gets. cbn [gets fst].
    rewrite bind_ReadOnly by auto with readonly. rewrite Hsync.
    rewrite bind_ReadOnly by auto with readonly. rewrite Hanc.
    rewrite bind_ReadOnly by auto with readonly. cbn [field ret fst].
    rewrite bind_ReadOnly by auto with readonly. rewrite Hres. cbn [asArray ret fst].
    rewrite bind_ReadOnly by apply ReadOnly_shouldRestartApp. rewrite Hrestart.
    unfold bind, showInformationMessage. rewrite Hno. reflexivity.
  - unfold restoreProfile.
    rewrite bind_ReadOnly by auto with readonly.
    destruct (checkInitialized w).1; [|left; apply untouched_refl..].
    rewrite bind_ReadOnly by apply ReadOnly_gets. cbn [gets fst].
    rewrite bind_ReadOnly by auto with readonly.
    destruct (loadProfileSyncSettings fuel (_profile w) w).1 as [syncSettings| |] eqn:Hsync;
      [|left; apply untouched_refl..].
    rewrite bind_ReadOnly by auto with readonly.
    destruct (getAncestorProfile fuel (_profile w) w).1 as [ancestor| |];
      [|left; apply untouched_refl..].
    rewrite bind_ReadOnly by auto with readonly.
    destruct syncSettings as [|syncSettings]; cbn [field throw ret fst];
      [left; apply untouched_refl|].
    rewrite bind_ReadOnly by auto with readonly.
    destruct (default (PStrings allResources) (syncSettings !! "resources"))
      as [flag|resources] eqn:Hres; cbn [asArray throw ret fst];
      [left; apply untouched_refl|].
    rewrite bind_ReadOnly by apply ReadOnly_shouldRestartApp.
    destruct (shouldRestartApp fuel resources w).1 as [restart| |] eqn:Hrestart;
      [|left; apply untouched_refl..].
    destruct restart.
    + destruct (answersYes (live w)) eqn:Hanswer.
      * right. exists syncSettings, resources, true. split_and!; [done|done| |done].
        rewrite (ReadOnly_run _ w (ReadOnly_shouldRestartApp fuel resources)). by rewrite Hrestart.
      * left. unfold bind, showInformationMessage. rewrite Hanswer. cbn [negb fst snd ret].
        apply untouched_prompt.
    + right. exists syncSettings, resources, false. split_and!; [done|done| |done].
      rewrite (ReadOnly_run _ w (ReadOnly_shouldRestartApp fuel resources)). by rewrite Hrestart.
Qed.

(** ** Sync-policy documents along the chain *)

Lemma loadProfileSettings_run profile w : loadProfileSettings profile w = (Ok (settingsOf w profile), w).
Proof.
  unfold loadProfileSettings, settingsOf, bind, exists_, readFile, gets, ret. cbn.
  destruct (profile_yml (directory profile w)) eqn:Hfile; cbn; by rewrite ?Hfile.
Qed.

Lemma bind_exists {A B} (path : RepoPath A) (k : bool → M B) w :
  bind (exists_ path) k w
  = k (bool_decide (is_Some (path_get path (directory (path_profile path) w)))) w.
Proof. reflexivity. Qed.

Lemma readFile_run {A} (path : RepoPath A) w :
  readFile path w
  = (match path_get path (directory (path_profile path) w) with
     | Some a => Ok a
     | None => Throw NoSuchFile
     end, w).
Proof.
  unfold readFile, bind, gets.
  by destruct (path_get path (directory (path_profile path) w)).
Qed.

Lemma exists_Some {A} (a : A) : bool_decide (is_Some (Some a)) = true.
Proof. reflexivity. Qed.

Lemma exists_None {A} : bool_decide (is_Some (@None A)) = false.
Proof. reflexivity. Qed.

Lemma loadProfileSyncSettings_step n profile w :
  loadProfileSyncSettings (S n) profile w
  = match syncDocument w profile with
    | Some doc => (Ok doc, w)
    | None =>
        match extendsOf (settingsOf w profile) with
        | Some parent => loadProfileSyncSettings n parent w
        | None => (Throw SyncSettingsNotFound, w)
        end
    end.
Proof.
  cbn [loadProfileSyncSettings]. unfold syncDocument. rewrite bind_exists.
  cbn [path_get path_profile getProfileSyncSettingsPath].
  destruct (sync_yml (directory profile w)) as [doc|] eqn:Hs.
  - rewrite exists_Some. cbv iota. rewrite readFile_run.
    cbn [path_get path_profile getProfileSyncSettingsPath]. by rewrite Hs.
  - rewrite exists_None. cbv iota. rewrite bind_exists.
    cbn [path_get path_profile getProfileSyncSettingsOldPath].
    destruct (config_yml (directory profile w)) as [doc|] eqn:Hc.
    + rewrite exists_Some. cbv iota. rewrite readFile_run.
      cbn [path_get path_profile getProfileSyncSettingsOldPath]. by rewrite Hc.
    + rewrite exists_None. cbv iota. unfold bind. rewrite loadProfileSettings_run.
      by destruct (extendsOf (settingsOf w profile)).
Qed.

Lemma loadProfileSyncSettings_nearest fuel w profile chain :
  Chain w profile chain → (length chain ≤ fuel)%nat →
  loadProfileSyncSettings fuel profile w
  = (match nearestDocument w chain with
     | Some doc => Ok doc
     | None => Throw SyncSettingsNotFound
     end, w).
Proof.
  intros Hchain. revert fuel.
  induction Hchain as [profile Hroot|profile parent rest Hext Hchain IH]; intros fuel Hfuel;
    (destruct fuel as [|n]; [cbn in Hfuel; lia|]);
    rewrite loadProfileSyncSettings_step; cbn [nearestDocument];
    destruct (syncDocument w profile); try done.
  - by rewrite Hroot.
  - rewrite Hext. apply IH. cbn in Hfuel. lia.
Qed.

Lemma nearestDocument_None w chain :
  nearestDocument w chain = None ↔ ∀ p, p ∈ chain → syncDocument w p = None.
Proof.
  induction chain as [|q chain IH]; cbn [nearestDocument].
  - split; [|done]. intros _ p Hp. inversion Hp.
  - destruct (syncDocument w q) eqn:Hq.
    + split; [done|]. intros Hall. rewrite <- Hq. apply Hall. left.
    + rewrite IH. split.
      * intros Hall p [->|Hp]%elem_of_cons; [done|by apply Hall].
      * intros Hall p Hp. apply Hall. by right.
Qed.

Lemma nearestDocument_first w before p after doc :
  (∀ q, q ∈ before → syncDocument w q = None) →
  syncDocument w p = Some doc →
  nearestDocument w (before ++ p :: after) = Some doc.
Proof.
  intros Hbefore Hp. induction before as [|q before IH]; cbn [nearestDocument app].
  - by rewrite Hp.
  - rewrite (Hbefore q) by left. apply IH. intros r Hr. apply Hbefore. by right.
Qed.

(** C8.  Along a chain of [extends] links that ends, and with fuel for its
    length, [loadProfileSyncSettings] throws 'sync settings file of profile
    can not be found' exactly when no profile of the chain has a
    sync-policy document, at its current or at its legacy path; and when
    some profile has one, the document of the nearest such profile is
    returned and nothing is thrown. *)
Theorem sync_settings_error_iff_chain_without_document fuel w profile chain :
  Chain w profile chain → (length chain ≤ fuel)%nat →
  ((loadProfileSyncSettings fuel profile w).1 = Throw SyncSettingsNotFound
   ↔ ∀ p, p ∈ chain → syncDocument w p = None)
  ∧ (∀ before p after doc,
       chain = before ++ p :: after →
       (∀ q, q ∈ before → syncDocument w q = None) →
       syncDocument w p = Some doc →
       loadProfileSyncSettings fuel profile w = (Ok doc, w)).
Proof.
  intros Hchain Hfuel. rewrite (loadProfileSyncSettings_nearest fuel w profile chain Hchain Hfuel).
  split.
  - rewrite <- nearestDocument_None. cbn [fst]. by destruct (nearestDocument w chain).
  - intros before p after doc -> Hbefore Hp.
    by rewrite (nearestDocument_first w before p after doc Hbefore Hp).
Qed.


(** ** Key bindings *)

Lemma getProfileKeybindingsPath_profile profile value :
  path_profile (getProfileKeybindingsPath profile value) = profile.
Proof. unfold getProfileKeybindingsPath. by destruct (truthy value), platform. Qed.

Lemma getProfileKeybindings_run fuel profile value fields w :
  (loadProfileSyncSettings fuel profile w).1 = Ok (Fields fields) →
  getProfileKeybindings fuel profile value w
  = (Ok (if sameFlag (perPlatform fields) value
         then path_get (getProfileKeybindingsPath profile value) (directory profile w)
         else None), w).
Proof.
  intros Hdoc. unfold getProfileKeybindings.
  rewrite bind_ReadOnly by apply ReadOnly_loadProfileSyncSettings. rewrite Hdoc.
  rewrite bind_ReadOnly by apply ReadOnly_field. cbn [field ret fst].
  change (orTrue (fields !! "keybindingsPerPlatform")) with (perPlatform fields).
  destruct (sameFlag (perPlatform fields) value); cbn [negb]; [|done].
  rewrite bind_exists, getProfileKeybindingsPath_profile.
  destruct (path_get (getProfileKeybindingsPath profile value) (directory profile w))
    as [data|] eqn:Hfile.
  - rewrite exists_Some. cbv iota. unfold bind. rewrite readFile_run.
    rewrite getProfileKeybindingsPath_profile. by rewrite Hfile.
  - by rewrite exists_None.
Qed.

Lemma restoreKeybindings_run fuel ancestor fields w :
  (loadProfileSyncSettings fuel ancestor w).1 = Ok (Fields fields) →
  restoreKeybindings fuel ancestor w
  = outputKeybindings
      (preprocessOr "[]"
         (if sameFlag (perPlatform fields) (perPlatform fields)
          then path_get (getProfileKeybindingsPath ancestor (perPlatform fields))
                 (directory ancestor w)
          else None)) w.
Proof.
  intros Hdoc. unfold restoreKeybindings.
  rewrite bind_ReadOnly by apply ReadOnly_loadProfileSyncSettings. rewrite Hdoc.
  rewrite bind_ReadOnly by apply ReadOnly_field. cbn [field ret fst].
  change (orTrue (fields !! "keybindingsPerPlatform")) with (perPlatform fields).
  unfold bind. by rewrite (getProfileKeybindings_run fuel ancestor _ fields w Hdoc).
Qed.

Lemma restoreKeybindings_throws fuel ancestor e w :
  (loadProfileSyncSettings fuel ancestor w).1 = Throw e →
  restoreKeybindings fuel ancestor w = (Throw e, w).
Proof.
  intros Hdoc. unfold restoreKeybindings.
  rewrite bind_ReadOnly by apply ReadOnly_loadProfileSyncSettings. by rewrite Hdoc.
Qed.


(** ** Writing into the repository tree *)

Lemma update_run {A} (path : RepoPath A) v w :
  update path v w
  = (Ok tt, set_profiles
              (<[path_profile path := path_set path v (directory (path_profile path) w)]> (profiles w)) w).
Proof. reflexivity. Qed.

Lemma directory_set_profiles_same profile d tree w :
  directory profile (set_profiles (<[profile := d]> tree) w) = d.
Proof. unfold directory, set_profiles. cbn [profiles]. by rewrite lookup_insert_eq. Qed.

Lemma directory_set_profiles_other profile other d w :
  profile ≠ other →
  directory profile (set_profiles (<[other := d]> (profiles w)) w) = directory profile w.
Proof.
  intros Hne. unfold directory, set_profiles. cbn [profiles]. by rewrite lookup_insert_ne.
Qed.

(** ** The sync-policy override document *)

Lemma policy_fold_settings config ancestors props state key :
  (foldl (policyStep config ancestors) state props).1 !! key
  = match (if bool_decide (key ∈ props) then globalValue config !! key else None) with
    | Some value => Some value
    | None => state.1 !! key
    end.
Proof.
  revert state. induction props as [|p props IH]; intros state; cbn [foldl].
  - by rewrite bool_decide_eq_false_2 by (intros Hin; inversion Hin).
  - rewrite IH. unfold policyStep.
    destruct (decide (key = p)) as [->|Hne].
    + rewrite (bool_decide_eq_true_2 (p ∈ p :: props)) by left.
      destruct (globalValue config !! p) as [value|] eqn:Hp; cbn [fst].
      * rewrite lookup_insert_eq. by case_bool_decide.
      * by case_bool_decide.
    + assert (Hiff : bool_decide (key ∈ p :: props) = bool_decide (key ∈ props)).
      { apply bool_decide_ext. rewrite elem_of_cons. tauto. }
      rewrite Hiff. destruct (globalValue config !! p) as [value|]; cbn [fst]; [|done].
      by rewrite lookup_insert_ne.
Qed.

Lemma policy_fold_length config doc props state :
  (0 < (foldl (policyStep config (Some doc)) state props).2)%nat
  ↔ (0 < state.2)%nat
    ∨ ∃ property value, property ∈ props ∧ globalValue config !! property = Some value
                        ∧ doc !! property ≠ Some value.
Proof.
  revert state. induction props as [|p props IH]; intros state; cbn [foldl].
  - split; [by left|]. intros [?|(? & ? & Hin & _)]; [done|inversion Hin].
  - rewrite IH. unfold policyStep, deepEqualPolicy.
    destruct (globalValue config !! p) as [value|] eqn:Hp; cbn [snd].
    + case_bool_decide as Heq; cbn [negb].
      * split.
        -- intros [?|(q & v & Hin & Hq & Hne)]; [by left|]. right. exists q, v.
           split_and!; [by right|done|done].
        -- intros [?|(q & v & [->|Hin]%elem_of_cons & Hq & Hne)]; [by left| |].
           ++ congruence.
           ++ right. by exists q, v.
      * split; [|intros _; left; lia].
        intros _. right. exists p, value. split_and!; [left|done|done].
    + split.
      * intros [?|(q & v & Hin & Hq & Hne)]; [by left|]. right. exists q, v.
        split_and!; [by right|done|done].
      * intros [?|(q & v & [->|Hin]%elem_of_cons & Hq & Hne)]; [by left| |].
        -- congruence.
        -- right. by exists q, v.
Qed.

Lemma policy_fold_explicit config props state :
  (0 < (foldl (policyStep config None) state props).2)%nat
  ↔ (0 < state.2)%nat
    ∨ ∃ property, property ∈ props ∧ is_Some (globalValue config !! property).
Proof.
  revert state. induction props as [|p props IH]; intros state; cbn [foldl].
  - split; [by left|]. intros [?|(? & Hin & _)]; [done|inversion Hin].
  - rewrite IH. unfold policyStep.
    destruct (globalValue config !! p) as [value|] eqn:Hp; cbn [snd].
    + split; [|intros _; left; lia]. intros _. right. exists p. split; [left|by exists value].
    + split.
      * intros [?|(q & Hin & Hq)]; [by left|]. right. exists q. split; [by right|done].
      * intros [?|(q & [->|Hin]%elem_of_cons & Hq)]; [by left| |].
        -- rewrite Hp in Hq. by destruct Hq.
        -- right. by exists q.
Qed.

Lemma policy_fold_differs config ancestors :
  (0 < (collectPolicy config (fieldsOf ancestors)).2)%nat
  ↔ ∃ property value, property ∈ policyProperties
                      ∧ globalValue config !! property = Some value
                      ∧ inheritedValue ancestors property ≠ Some value.
Proof.
  unfold collectPolicy, inheritedValue. destruct ancestors as [|fields]; cbn [fieldsOf mbind option_bind].
  - rewrite policy_fold_explicit. cbn [snd]. split.
    + intros [?|(property & Hin & [value Hvalue])]; [lia|]. by exists property, value.
    + intros (property & value & Hin & Hvalue & _). right. exists property. by split; [|exists value].
  - rewrite policy_fold_length. cbn [snd]. split; [intros [?|?]; [lia|done]|by right].
Qed.

Lemma saveProfileSyncSettings_run fuel w parent :
  extendsOf (settingsOf w (_profile w)) = Some parent →
  saveProfileSyncSettings fuel w
  = match (loadProfileSyncSettings fuel parent w).1 with
    | Ok ancestors =>
        let state := collectPolicy (configuration (live w)) (fieldsOf ancestors) in
        let w1 := (remove (getProfileSyncSettingsOldPath (_profile w)) w).2 in
        if bool_decide (0 < state.2)%nat
        then writeFile (getProfileSyncSettingsPath (_profile w)) (Fields state.1) w1
        else remove (getProfileSyncSettingsPath (_profile w)) w1
    | Throw e => (Throw e, w)
    | Diverge => (Diverge, w)
    end.
Proof.
  intros Hext. unfold saveProfileSyncSettings.
  rewrite bind_ReadOnly by apply ReadOnly_gets. cbn [gets fst].
  rewrite bind_ReadOnly by apply ReadOnly_gets. cbn [gets fst].
  unfold bind at 1. rewrite loadProfileSettings_run. rewrite Hext.
  rewrite (bind_ReadOnly (bind (loadProfileSyncSettings fuel parent) (fun doc => ret (fieldsOf doc))))
    by (apply ReadOnly_bind; [apply ReadOnly_loadProfileSyncSettings|intros ?; apply ReadOnly_ret]).
  rewrite bind_ReadOnly by apply ReadOnly_loadProfileSyncSettings.
  destruct (loadProfileSyncSettings fuel parent w).1 as [ancestors| |]; [|done|done].
  cbn [ret fst].
  destruct (collectPolicy (configuration (live w)) (fieldsOf ancestors)) as [settings length].
  cbn [fst snd]. by case_bool_decide.
Qed.

(** C7, as amended.  [saveProfileSyncSettings] for an inheriting profile.
    When the sync-policy document of its ancestors loads, the call
    returns normally, takes away the legacy document, and: when at least
    one explicitly set policy field differs from the ancestors' value
    (from an empty document nothing is inherited), it writes an override
    document that holds every explicitly set policy field, the ones equal
    to the ancestors' value included; when no field differs, no override
    document is left.  When no profile of the ancestor chain has a
    sync-policy document, and whenever loading the ancestors' document
    throws, the call throws the same error before it writes or removes
    anything, the legacy document included. *)
Theorem sync_settings_override_document fuel w parent :
  extendsOf (settingsOf w (_profile w)) = Some parent →
  let config := configuration (live w) in
  let after := directory (_profile w) (saveProfileSyncSettings fuel w).2 in
  (∀ ancestors,
     (loadProfileSyncSettings fuel parent w).1 = Ok ancestors →
     let differs := ∃ property value,
                      property ∈ policyProperties
                      ∧ globalValue config !! property = Some value
                      ∧ inheritedValue ancestors property ≠ Some value in
     (saveProfileSyncSettings fuel w).1 = Ok tt
     ∧ config_yml after = None
     ∧ (differs →
        ∃ doc, sync_yml after = Some (Fields doc)
               ∧ ∀ property, doc !! property
                             = if bool_decide (property ∈ policyProperties)
                               then globalValue config !! property else None)
     ∧ (¬ differs → sync_yml after = None))
  ∧ (∀ chain,
       Chain w parent chain → (length chain ≤ fuel)%nat →
       (∀ p, p ∈ chain → syncDocument w p = None) →
       saveProfileSyncSettings fuel w = (Throw SyncSettingsNotFound, w))
  ∧ (∀ e, (loadProfileSyncSettings fuel parent w).1 = Throw e →
          saveProfileSyncSettings fuel w = (Throw e, w)).
Proof.
  intros Hext config after. subst after.
  rewrite (saveProfileSyncSettings_run fuel w parent Hext). fold config. split_and!.
  - intros ancestors Hanc differs. rewrite Hanc. cbn zeta.
    pose proof (policy_fold_settings config (fieldsOf ancestors) policyProperties (∅, 0%nat)) as Hset.
    fold (collectPolicy config (fieldsOf ancestors)) in Hset.
    pose proof (policy_fold_differs config ancestors) as Hdiff. fold differs in Hdiff.
    unfold remove, writeFile. rewrite !update_run. cbn [snd].
    case_bool_decide as Hpos; cbn [fst snd path_profile path_set
      getProfileSyncSettingsPath getProfileSyncSettingsOldPath];
      rewrite !directory_set_profiles_same.
    + split_and!; [done|done| |intros Hn; by apply Hdiff in Hpos].
      intros _. eexists. split; [reflexivity|]. intros property.
      rewrite Hset. cbn [fst]. rewrite lookup_empty. by repeat case_match.
    + split_and!; [done|done| |done]. intros Hd. by apply Hdiff in Hd.
  - intros chain Hchain Hfuel Hnone.
    rewrite (loadProfileSyncSettings_nearest fuel w parent chain Hchain Hfuel).
    apply nearestDocument_None in Hnone. by rewrite Hnone.
  - intros e Hthrow. by rewrite Hthrow.
Qed.

(** ** The UI-state diff *)

Lemma modified_fold (profile : gmap string jsval) (entries : list (string * jsval)) (start : gmap string jsval) key value :
  NoDup entries.*1 →
  foldl (fun modified entry =>
           if negb (strictEqual entry.2 (profile !! entry.1))
           then <[entry.1 := entry.2]> modified else modified) start entries !! key = Some value
  ↔ ((key, value) ∈ entries ∧ strictEqual value (profile !! key) = false)
    ∨ (start !! key = Some value
       ∧ ∀ other, (key, other) ∈ entries → strictEqual other (profile !! key) = true).
Proof.
  revert start. induction entries as [|[k v] entries IH]; intros start Hnd; cbn [foldl].
  - split; [intros Hs; right; split; [done|]; intros other Hin; inversion Hin|].
    intros [[Hin _]|[Hs _]]; [inversion Hin|done].
  - rewrite fmap_cons in Hnd. apply NoDup_cons in Hnd as [Hk Hnd]. cbn [fst snd] in *.
    rewrite (IH _ Hnd). clear IH.
    assert (Hfresh : ∀ other, (k, other) ∉ entries).
    { intros other Hin. apply Hk. by apply (list_elem_of_fmap_2 fst) in Hin. }
    destruct (strictEqual v (profile !! k)) eqn:Hsame; cbn [negb].
    + split.
      * intros [[Hin Hne]|[Hs Hall]]; [left; split; [by right|done]|].
        right. split; [done|]. intros other [Heq|Hin]%elem_of_cons; [|by apply Hall].
        by injection Heq as -> ->.
      * intros [[[Heq|Hin]%elem_of_cons Hne]|[Hs Hall]].
        -- injection Heq as -> ->. congruence.
        -- by left.
        -- right. split; [done|]. intros other Hin. apply Hall. by right.
    + split.
      * intros [[Hin Hne]|[Hs Hall]]; [left; split; [by right|done]|].
        destruct (decide (key = k)) as [->|Hkey].
        -- rewrite lookup_insert_eq in Hs. injection Hs as ->. left. split; [left|done].
        -- rewrite lookup_insert_ne in Hs by done. right. split; [done|].
           intros other [Heq|Hin]%elem_of_cons; [|by apply Hall]. by injection Heq as -> ->.
      * intros [[[Heq|Hin]%elem_of_cons Hne]|[Hs Hall]].
        -- injection Heq as -> ->. right. rewrite lookup_insert_eq. split; [done|].
           intros other Hin. by destruct (Hfresh other).
        -- by left.
        -- right. destruct (decide (key = k)) as [->|Hkey].
           ++ specialize (Hall v (list_elem_of_here _ _)). congruence.
           ++ rewrite lookup_insert_ne by done. split; [done|].
              intros other Hin. apply Hall. by right.
Qed.

Lemma modifiedProperties_lookup (editor profile : gmap string jsval) key value :
  modifiedProperties editor profile !! key = Some value
  ↔ editor !! key = Some value ∧ strictEqual value (profile !! key) = false.
Proof.
  unfold modifiedProperties.
  rewrite modified_fold by apply NoDup_fst_map_to_list.
  rewrite elem_of_map_to_list, lookup_empty. split; [|by left].
  intros [?|[? _]]; done.
Qed.

Lemma strictEqual_primitive value other :
  isPrimitive value = true →
  strictEqual value other = false ↔ other ≠ Some value.
Proof.
  intros Hprim. destruct value; try discriminate Hprim;
    destruct other as [[]|]; cbn [strictEqual];
    rewrite ?bool_decide_eq_false; split; try congruence; try done.
Qed.

(** C4, as amended.  For an inheriting profile, the diff [serializeUIState]
    hands to [saveUIStateDiff] holds a key in [modified] exactly when the
    key is in the live snapshot and its value is not identical ([!==]) to
    the ancestor's effective value; for a string, a number, a flag or null
    that is when the ancestor has another value or none; an array or an
    object is always taken as modified. *)
Theorem ui_state_modified_strict fuel w profileSettings parent extensions editor profile :
  extendsOf profileSettings = Some parent →
  (listEditorUIStateProperties extensions w).1 = Ok editor →
  (listProfileUIStateProperties fuel parent w).1 = Ok profile →
  ∃ diff,
    serializeUIState fuel profileSettings extensions w = saveUIStateDiff diff w
    ∧ (∀ key value,
         modified diff !! key = Some value
         ↔ editor !! key = Some value ∧ strictEqual value (profile !! key) = false)
    ∧ (∀ key value, isPrimitive value = true →
         modified diff !! key = Some value
         ↔ editor !! key = Some value ∧ profile !! key ≠ Some value)
    ∧ (∀ key value, isPrimitive value = false →
         modified diff !! key = Some value ↔ editor !! key = Some value).
Proof.
  intros Hext Heditor Hprofile.
  exists {| modified := modifiedProperties editor profile;
            removed := arrayDiff (map_to_list profile).*1 (map_to_list editor).*1 |}.
  split_and!.
  - unfold serializeUIState.
    rewrite bind_ReadOnly by apply ReadOnly_listEditorUIStateProperties.
    rewrite Heditor, Hext.
    rewrite bind_ReadOnly by apply ReadOnly_listProfileUIStateProperties.
    by rewrite Hprofile.
  - intros key value. apply modifiedProperties_lookup.
  - intros key value Hprim. cbn [modified].
    rewrite modifiedProperties_lookup, (strictEqual_primitive _ _ Hprim). done.
  - intros key value Hprim. cbn [modified]. rewrite modifiedProperties_lookup.
    split; [by intros [? _]|]. intros Hin. split; [done|]. by destruct value.
Qed.

(** ** The removal diff of snippets *)

(** Whatever [saveSnippetsDiff] wrote for an inheriting profile makes
    [listProfileSnippetHashes] throw once the index of the ancestor is
    there: the document has the key [removed], the loop reads [remove]. *)
Lemma listProfileSnippetHashes_removed_key n w profile parent names inherited :
  extendsOf (settingsOf w profile) = Some parent →
  data_snippets_diff_yml (directory profile w) = Some {[ "removed" := names ]} →
  listProfileSnippetHashes n parent w = (Ok inherited, w) →
  listProfileSnippetHashes (S n) profile w = (Throw TypeError, w).
Proof.
  intros Hext Hdiff Hparent. cbn [listProfileSnippetHashes].
  unfold bind at 1. rewrite loadProfileSettings_run, Hext.
  unfold bind at 1. unfold bind at 1. rewrite Hparent.
  rewrite bind_exists. cbn [path_get path_profile getDiffSnippetsPath].
  rewrite Hdiff, exists_Some. cbv iota.
  unfold bind at 1. unfold bind at 1. rewrite readFile_run.
  cbn [path_get path_profile getDiffSnippetsPath]. rewrite Hdiff.
  rewrite lookup_singleton_ne by done. reflexivity.
Qed.

(** ** Further properties of the merge *)

(** X1.  Whatever the diff, [applyExtensionsDiff] keeps a base that names
    no id twice free of doubled ids, and its result carries neither
    [builtin] nor [uninstall]. *)
Theorem apply_keeps_well_formed (base diff : ExtensionList) :
  wellFormed base →
  wellFormed (applyExtensionsDiff base diff)
  ∧ builtin (applyExtensionsDiff base diff) = None
  ∧ uninstall (applyExtensionsDiff base diff) = None.
Proof.
  intros Hwf. split; [apply (applyExtensionsDiff_spec base diff Hwf)|].
  by rewrite applyExtensionsDiff_unfold.
Qed.

(** X2.  Where the ids end up after a merge into a base that names no id
    twice: an id the diff uninstalls is in neither array; an id the diff
    enables (and does not uninstall) is enabled and not disabled, also
    when the diff disables it as well; an id the diff only disables is
    disabled; an id the diff does not name stays where the base has it. *)
Theorem apply_membership (base diff : ExtensionList) (i : string) :
  wellFormed base →
  let result := applyExtensionsDiff base diff in
  (i ∈ uninstallIds diff → (i ∉ ids (disabled result)) ∧ (i ∉ ids (enabled result)))
  ∧ (i ∈ ids (enabled diff) → i ∉ uninstallIds diff →
     i ∈ ids (enabled result) ∧ (i ∉ ids (disabled result)))
  ∧ (i ∈ ids (disabled diff) → i ∉ ids (enabled diff) → i ∉ uninstallIds diff →
     i ∈ ids (disabled result) ∧ (i ∉ ids (enabled result)))
  ∧ (i ∉ ids (disabled diff) → i ∉ ids (enabled diff) → i ∉ uninstallIds diff →
     (i ∈ ids (disabled result) ↔ i ∈ ids (disabled base))
     ∧ (i ∈ ids (enabled result) ↔ i ∈ ids (enabled base))).
Proof.
  intros Hwf result. subst result.
  destruct (applyExtensionsDiff_spec base diff Hwf) as (Hw & Hd & He).
  apply NoDup_app in Hw as (_ & Hx & _).
  specialize (Hd i). specialize (He i). specialize (Hx i).
  split_and!; intros; try split; tauto.
Qed.

(** ** The effective extension list along a chain *)

Lemma listProfileExtensions_step n profile w :
  listProfileExtensions (S n) profile w
  = match extendsOf (settingsOf w profile) with
    | None =>
        (Ok match extensionsDocument w profile with
            | Some raw => mkList None (decodeList (raw_disabled raw))
                            (decodeList (raw_enabled raw)) None
            | None => mkList None [] [] None
            end, w)
    | Some parent =>
        match extensionsDocument w profile with
        | Some raw =>
            (match (listProfileExtensions n parent w).1 with
             | Ok ancestors => Ok (applyExtensionsDiff ancestors (decodeDiffDocument raw))
             | Throw e => Throw e
             | Diverge => Diverge
             end, w)
        | None => listProfileExtensions n parent w
        end
    end.
Proof.
  cbn [listProfileExtensions]. unfold bind at 1. rewrite loadProfileSettings_run.
  unfold extensionsDocument.
  destruct (extendsOf (settingsOf w profile)) as [parent|]; cbv zeta.
  - rewrite bind_exists. cbn [path_get path_profile getProfileExtensionsPath].
    destruct (data_extensions_yml (directory profile w)) as [raw|] eqn:Hnew.
    + rewrite exists_Some. cbv iota. unfold bind at 1. rewrite readFile_run.
      cbn [path_get path_profile getProfileExtensionsPath]. rewrite Hnew.
      rewrite bind_ReadOnly by apply ReadOnly_listProfileExtensions.
      by destruct (listProfileExtensions n parent w).1.
    + rewrite exists_None. cbv iota. rewrite bind_exists.
      cbn [path_get path_profile getProfileExtensionsOldPath].
      destruct (extensions_yml (directory profile w)) as [raw|] eqn:Hold.
      * rewrite exists_Some. cbv iota. unfold bind at 1. rewrite readFile_run.
        cbn [path_get path_profile getProfileExtensionsOldPath]. rewrite Hold.
        rewrite bind_ReadOnly by apply ReadOnly_listProfileExtensions.
        by destruct (listProfileExtensions n parent w).1.
      * by rewrite exists_None.
  - rewrite bind_exists. cbn [path_get path_profile getProfileExtensionsPath].
    destruct (data_extensions_yml (directory profile w)) as [raw|] eqn:Hnew.
    + rewrite exists_Some. cbv iota. unfold bind. rewrite readFile_run.
      cbn [path_get path_profile getProfileExtensionsPath]. by rewrite Hnew.
    + rewrite exists_None. cbv iota. rewrite bind_exists.
      cbn [path_get path_profile getProfileExtensionsOldPath].
      destruct (extensions_yml (directory profile w)) as [raw|] eqn:Hold.
      * rewrite exists_Some. cbv iota. unfold bind. rewrite readFile_run.
        cbn [path_get path_profile getProfileExtensionsOldPath]. by rewrite Hold.
      * by rewrite exists_None.
Qed.

Lemma listProfileExtensions_chain fuel w profile chain :
  Chain w profile chain → (length chain ≤ fuel)%nat →
  listProfileExtensions fuel profile w = (Ok (replayChain w chain), w).
Proof.
  intros Hchain. revert fuel.
  induction Hchain as [profile Hroot|profile parent rest Hext Hchain IH]; intros fuel Hfuel;
    (destruct fuel as [|n]; [cbn in Hfuel; lia|]); rewrite listProfileExtensions_step.
  - rewrite Hroot. reflexivity.
  - rewrite Hext. rewrite IH by (cbn in Hfuel; lia). cbn [fst].
    destruct Hchain; cbn [replayChain]; by destruct (extensionsDocument w profile).
Qed.

(** X3.  Chain composition: along a chain of [extends] links that ends,
    and with fuel for its length, [listProfileExtensions] returns, changes
    nothing, and its result is the stored documents replayed oldest
    ancestor first: the list of the root, then each descendant's document
    applied as a diff, in the order of the chain; for a chain of three,
    the document of the leaf applied to the document of the middle profile
    applied to the list of the root. *)
Theorem listProfileExtensions_replays_chain fuel w profile chain :
  Chain w profile chain → (length chain ≤ fuel)%nat →
  listProfileExtensions fuel profile w = (Ok (replayChain w chain), w)
  ∧ ∀ leaf middle root leafDoc middleDoc,
      chain = [leaf; middle; root] →
      extensionsDocument w leaf = Some leafDoc →
      extensionsDocument w middle = Some middleDoc →
      replayChain w chain
      = applyExtensionsDiff
          (applyExtensionsDiff (replayChain w [root]) (decodeDiffDocument middleDoc))
          (decodeDiffDocument leafDoc).
Proof.
  intros Hchain Hfuel. split; [by apply listProfileExtensions_chain|].
  intros leaf middle root leafDoc middleDoc -> Hleaf Hmiddle.
  cbn [replayChain]. by rewrite Hleaf, Hmiddle.
Qed.

Lemma Returns_bind {A B} (Q : B → Prop) (m : M A) (k : A → M B) :
  (∀ a, Returns Q (k a)) → Returns Q (bind m k).
Proof.
  intros Hk w b w'. unfold bind. destruct (m w) as [[a|e|] w1]; [|done|done].
  apply Hk.
Qed.

Lemma Returns_ret {A} (Q : A → Prop) (a : A) : Q a → Returns Q (ret a).
Proof. intros Ha w b w' [= <- _]. done. Qed.

(** X4.  Whatever the fuel and the tree, a list that [listProfileExtensions]
    returns has neither [uninstall] nor [builtin]: the loop over
    [uninstall] at the end of [restoreExtensions] never has anything to
    do. *)
Theorem listProfileExtensions_never_uninstall fuel profile :
  Returns (fun l => uninstall l = None ∧ builtin l = None) (listProfileExtensions fuel profile).
Proof.
  revert profile. induction fuel as [|n IH]; intros profile; [by intros w l w'|].
  cbn [listProfileExtensions]. apply Returns_bind. intros settings.
  destruct (extendsOf settings) as [parent|]; cbv zeta.
  - apply Returns_bind. intros [|].
    + apply Returns_bind. intros raw. apply Returns_bind. intros ancestors.
      apply Returns_ret. by rewrite applyExtensionsDiff_unfold.
    + apply Returns_bind. intros [|]; [|apply IH].
      apply Returns_bind. intros raw. apply Returns_bind. intros ancestors.
      apply Returns_ret. by rewrite applyExtensionsDiff_unfold.
  - apply Returns_bind. intros [|].
    + apply Returns_bind. intros raw. by apply Returns_ret.
    + apply Returns_bind. intros [|]; [|by apply Returns_ret].
      apply Returns_bind. intros raw. by apply Returns_ret.
Qed.

Lemma replayChain_well_formed w chain root :
  last chain = Some root →
  wellFormed (replayChain w [root]) →
  wellFormed (replayChain w chain).
Proof.
  intros Hlast Hroot. induction chain as [|p rest IH]; [done|].
  destruct rest as [|q rest].
  - by injection Hlast as ->.
  - assert (Hrest : wellFormed (replayChain w (q :: rest))) by (by apply IH).
    change (replayChain w (p :: q :: rest))
      with (match extensionsDocument w p with
            | Some raw => applyExtensionsDiff (replayChain w (q :: rest)) (decodeDiffDocument raw)
            | None => replayChain w (q :: rest)
            end).
    destruct (extensionsDocument w p); [|done].
    by apply applyExtensionsDiff_spec.
Qed.

(** X5.  When the stored list of the root names no id twice, neither does
    the effective list of any profile of a chain that ends, whatever the
    documents of the descendants hold. *)
Theorem effective_list_well_formed fuel w profile chain root :
  Chain w profile chain → (length chain ≤ fuel)%nat →
  last chain = Some root →
  wellFormed (replayChain w [root]) →
  ∃ l, listProfileExtensions fuel profile w = (Ok l, w) ∧ wellFormed l.
Proof.
  intros Hchain Hfuel Hlast Hroot. exists (replayChain w chain). split.
  - by apply listProfileExtensions_chain.
  - by eapply replayChain_well_formed.
Qed.

(** ** The root of a chain *)

Lemma ancestorLoop_chain fuel w profile chain root :
  Chain w profile chain → (length chain ≤ S fuel)%nat → last chain = Some root →
  ancestorLoop fuel profile (settingsOf w profile) w = (Ok root, w).
Proof.
  intros Hchain. revert fuel.
  induction Hchain as [profile Hroot|profile parent rest Hext Hchain IH]; intros fuel Hfuel Hlast.
  - injection Hlast as <-. destruct fuel; cbn [ancestorLoop]; by rewrite Hroot.
  - destruct fuel as [|n]; [destruct Hchain; cbn in Hfuel; lia|].
    cbn [ancestorLoop]. rewrite Hext. unfold bind. rewrite loadProfileSettings_run.
    apply IH; [cbn in Hfuel; lia|]. by destruct Hchain.
Qed.

Lemma ancestorLoop_sound fuel w profile settings root w' :
  settings = settingsOf w profile →
  ancestorLoop fuel profile settings w = (Ok root, w') →
  w' = w ∧ ∃ chain, Chain w profile chain ∧ last chain = Some root
                    ∧ (length chain ≤ S fuel)%nat.
Proof.
  revert profile settings. induction fuel as [|n IH]; intros profile settings -> Hrun.
  - cbn [ancestorLoop] in Hrun.
    destruct (extendsOf (settingsOf w profile)) as [parent|] eqn:Hext; [done|].
    injection Hrun as <- <-. split; [done|]. exists [profile].
    split_and!; [by apply chain_root|done|cbn; lia].
  - cbn [ancestorLoop] in Hrun.
    destruct (extendsOf (settingsOf w profile)) as [parent|] eqn:Hext.
    + unfold bind in Hrun. rewrite loadProfileSettings_run in Hrun.
      destruct (IH parent _ eq_refl Hrun) as (-> & chain & Hchain & Hlast & Hlen).
      split; [done|]. exists (profile :: chain). split_and!.
      * by eapply chain_step.
      * destruct Hchain; done.
      * cbn. lia.
    + injection Hrun as <- <-. split; [done|]. exists [profile].
      split_and!; [by apply chain_root|done|cbn; lia].
Qed.

(** X6.  [getAncestorProfile] returns a profile exactly when the [extends]
    links from the given profile end within the fuel, and then it returns
    the profile they end at, which extends nothing, and changes nothing;
    on links that run in a circle it never returns. *)
Theorem getAncestorProfile_root fuel w profile root :
  getAncestorProfile fuel profile w = (Ok root, w)
  ↔ ∃ chain, Chain w profile chain ∧ last chain = Some root ∧ (length chain ≤ S fuel)%nat.
Proof.
  unfold getAncestorProfile, bind. rewrite loadProfileSettings_run. split.
  - intros Hrun. by destruct (ancestorLoop_sound fuel w profile _ root w eq_refl Hrun).
  - intros (chain & Hchain & Hlast & Hlen).
    by apply (ancestorLoop_chain fuel w profile chain root).
Qed.

Lemma Chain_last_root w profile chain root :
  Chain w profile chain → last chain = Some root → extendsOf (settingsOf w root) = None.
Proof.
  induction 1 as [profile Hroot|profile parent rest Hext Hchain IH]; intros Hlast.
  - by injection Hlast as <-.
  - apply IH. by destruct Hchain.
Qed.

(** X7.  The profile [getAncestorProfile] returns extends nothing, and
    asking again from it gives it back. *)
Theorem getAncestorProfile_idempotent fuel w profile root :
  getAncestorProfile fuel profile w = (Ok root, w) →
  extendsOf (settingsOf w root) = None
  ∧ getAncestorProfile fuel root w = (Ok root, w).
Proof.
  intros Hrun. unfold getAncestorProfile, bind in Hrun.
  rewrite loadProfileSettings_run in Hrun.
  destruct (ancestorLoop_sound fuel w profile _ root w eq_refl Hrun)
    as (_ & chain & Hchain & Hlast & Hlen).
  assert (Hroot : extendsOf (settingsOf w root) = None) by (by eapply Chain_last_root).
  split; [done|]. unfold getAncestorProfile, bind. rewrite loadProfileSettings_run.
  destruct fuel; cbn [ancestorLoop]; by rewrite Hroot.
Qed.

#[local] Hint Resolve ReadOnly_listEditorUIStateProperties : readonly.

(** ** What restore and serialize leave alone *)

Lemma ReadOnly_listProfileSnippetPaths fuel profile : ReadOnly (listProfileSnippetPaths fuel profile).
Proof.
  revert profile. induction fuel as [|n IH]; intros profile;
    cbn [listProfileSnippetPaths]; read_only.
Qed.

Lemma ReadOnly_loadSnippetsDiff : ReadOnly loadSnippetsDiff.
Proof. unfold loadSnippetsDiff. read_only. Qed.

Lemma ReadOnly_getProfileKeybindings fuel profile value :
  ReadOnly (getProfileKeybindings fuel profile value).
Proof. unfold getProfileKeybindings. read_only. Qed.

Lemma ReadOnly_getProfileUserSettings profile : ReadOnly (getProfileUserSettings profile).
Proof. unfold getProfileUserSettings. read_only. Qed.

Lemma ReadOnly_configGet key fallback : ReadOnly (configGet key fallback).
Proof. unfold configGet. read_only. Qed.

Lemma ReadOnly_listEditorSnippets : ReadOnly listEditorSnippets.
Proof. unfold listEditorSnippets. read_only. Qed.

Lemma ReadOnly_readEditorSnippet file : ReadOnly (readEditorSnippet file).
Proof. unfold readEditorSnippet. read_only. Qed.

Lemma ReadOnly_getIgnoredSettings : ReadOnly getIgnoredSettings.
Proof. unfold getIgnoredSettings. read_only; apply ReadOnly_configGet. Qed.

Lemma ReadOnly_listProfileSnippetHashes fuel profile :
  ReadOnly (listProfileSnippetHashes fuel profile).
Proof.
  revert profile. induction fuel as [|n IH]; intros profile;
    cbn [listProfileSnippetHashes]; [apply ReadOnly_diverge|].
  apply ReadOnly_bind; [auto with readonly|intros settings].
  apply ReadOnly_bind; [read_only|intros [snippets files]].
  cbn [fst snd]. revert snippets. induction files as [|file files IHfiles]; intros snippets.
  - apply ReadOnly_ret.
  - apply ReadOnly_bind; [auto with readonly|intros data]. apply IHfiles.
Qed.

#[local] Hint Resolve ReadOnly_listProfileSnippetPaths ReadOnly_loadSnippetsDiff
  ReadOnly_getProfileKeybindings ReadOnly_getProfileUserSettings ReadOnly_configGet
  ReadOnly_listEditorSnippets ReadOnly_readEditorSnippet ReadOnly_getIgnoredSettings
  ReadOnly_listProfileSnippetHashes : readonly.

Lemma KeepsRepository_ReadOnly {A} (m : M A) : ReadOnly m → KeepsRepository m.
Proof. intros Hm w. by rewrite Hm. Qed.

Lemma KeepsRepository_bind {A B} (m : M A) (k : A → M B) :
  KeepsRepository m → (∀ a, KeepsRepository (k a)) → KeepsRepository (bind m k).
Proof.
  intros Hm Hk w. unfold bind. specialize (Hm w).
  destruct (m w) as [[a|e|] w1]; cbn [snd] in *; [|done|done].
  by rewrite Hk.
Qed.

Lemma KeepsRepository_modify f :
  (∀ w, profiles (f w) = profiles w) → KeepsRepository (modify f).
Proof. intros Hf w. apply Hf. Qed.

Lemma KeepsRepository_hostCall op command : KeepsRepository (hostCall op command).
Proof. by intros w. Qed.

Lemma KeepsRepository_showInformationMessage : KeepsRepository showInformationMessage.
Proof. by intros w. Qed.

Ltac keeps_repository_step :=
  match goal with
  | |- KeepsRepository (bind _ _) => apply KeepsRepository_bind; [|intros ?]
  | |- KeepsRepository (hostCall _ _) => apply KeepsRepository_hostCall
  | |- KeepsRepository showInformationMessage => apply KeepsRepository_showInformationMessage
  | |- KeepsRepository (modify _) => apply KeepsRepository_modify; intros ?; reflexivity
  | |- KeepsRepository _ => solve [apply KeepsRepository_ReadOnly; read_only]
  | |- KeepsRepository (match ?x with _ => _ end) => destruct x
  | |- KeepsRepository _ => progress cbv zeta
  | |- KeepsRepository _ => solve [auto]
  end.
Ltac keeps_repository := repeat keeps_repository_step.

Lemma KeepsRepository_foldM {A S} (l : list A) (s : S) (body : S → A → M S) :
  (∀ s x, KeepsRepository (body s x)) → KeepsRepository (foldM l s body).
Proof.
  intros Hbody. revert s. induction l as [|x l IH]; intros s; cbn [foldM]; keeps_repository.
Qed.

Lemma KeepsRepository_forEach {A} (l : list A) (body : A → M unit) :
  (∀ x, KeepsRepository (body x)) → KeepsRepository (forEach l body).
Proof.
  intros Hbody. induction l as [|x l IH]; cbn [forEach]; keeps_repository.
Qed.

Lemma KeepsRepository_both first second :
  KeepsRepository first → KeepsRepository second → KeepsRepository (both first second).
Proof. intros H1 H2. unfold both. keeps_repository. Qed.

Lemma KeepsRepository_writeStateDB rows : KeepsRepository (writeStateDB rows).
Proof. unfold writeStateDB. keeps_repository. Qed.

Lemma KeepsRepository_restoreExtensions fuel syncSettings :
  KeepsRepository (restoreExtensions fuel syncSettings).
Proof.
  unfold restoreExtensions.
  repeat first
    [ apply KeepsRepository_foldM; intros [[? ?] ?] ?
    | apply KeepsRepository_both
    | apply KeepsRepository_writeStateDB
    | keeps_repository_step ].
Qed.

Lemma KeepsRepository_restoreKeybindings fuel ancestor :
  KeepsRepository (restoreKeybindings fuel ancestor).
Proof. unfold restoreKeybindings, outputKeybindings. keeps_repository. Qed.

Lemma KeepsRepository_restoreUserSettings fuel ancestor :
  KeepsRepository (restoreUserSettings fuel ancestor).
Proof. unfold restoreUserSettings, outputUserSettings. keeps_repository. Qed.

Lemma KeepsRepository_restoreSnippets fuel : KeepsRepository (restoreSnippets fuel).
Proof.
  unfold restoreSnippets, emptySnippets.
  repeat first
    [ apply KeepsRepository_forEach; intros [? ?]; unfold copySnippet
    | keeps_repository_step ].
Qed.

Lemma KeepsRepository_restoreUIState fuel : KeepsRepository (restoreUIState fuel).
Proof.
  unfold restoreUIState.
  repeat first [ apply KeepsRepository_writeStateDB | keeps_repository_step ].
Qed.

(** X8.  Restore only reads the repository: whatever it does to the
    editor, however it ends, [restoreProfile] leaves every stored document
    of every profile as it was. *)
Theorem restore_never_writes_repository fuel w :
  profiles (restoreProfile fuel w).2 = profiles w.
Proof.
  revert w. change (KeepsRepository (restoreProfile fuel)).
  unfold restoreProfile, restartApp, reloadWindow.
  repeat first
    [ apply KeepsRepository_foldM; intros ? ?; unfold restoreResource
    | apply KeepsRepository_restoreExtensions
    | apply KeepsRepository_restoreKeybindings
    | apply KeepsRepository_restoreUserSettings
    | apply KeepsRepository_restoreSnippets
    | apply KeepsRepository_restoreUIState
    | apply KeepsRepository_ReadOnly; apply ReadOnly_shouldRestartApp
    | keeps_repository_step ].
Qed.

Lemma KeepsEditor_ReadOnly {A} (m : M A) : ReadOnly m → KeepsEditor m.
Proof. intros Hm w. by rewrite Hm. Qed.

Lemma KeepsEditor_bind {A B} (m : M A) (k : A → M B) :
  KeepsEditor m → (∀ a, KeepsEditor (k a)) → KeepsEditor (bind m k).
Proof.
  intros Hm Hk w. unfold bind. specialize (Hm w).
  destruct (m w) as [[a|e|] w1]; cbn [snd] in *; [|done|done].
  destruct (Hk a w1) as [-> ->]. done.
Qed.

Lemma KeepsEditor_update {A} (path : RepoPath A) v : KeepsEditor (update path v).
Proof. by intros w. Qed.

Lemma KeepsEditor_ensureDir profile : KeepsEditor (ensureDir profile).
Proof. by intros w. Qed.

Ltac keeps_editor_step :=
  match goal with
  | |- KeepsEditor (bind _ _) => apply KeepsEditor_bind; [|intros ?]
  | |- KeepsEditor (update _ _) => apply KeepsEditor_update
  | |- KeepsEditor (writeFile _ _) => apply KeepsEditor_update
  | |- KeepsEditor (remove _) => apply KeepsEditor_update
  | |- KeepsEditor (ensureDir _) => apply KeepsEditor_ensureDir
  | |- KeepsEditor _ => solve [apply KeepsEditor_ReadOnly; read_only]
  | |- KeepsEditor (match ?x with _ => _ end) => destruct x
  | |- KeepsEditor _ => progress cbv zeta
  | |- KeepsEditor _ => solve [auto]
  end.
Ltac keeps_editor := repeat keeps_editor_step.

Lemma KeepsEditor_foldM {A S} (l : list A) (s : S) (body : S → A → M S) :
  (∀ s x, KeepsEditor (body s x)) → KeepsEditor (foldM l s body).
Proof.
  intros Hbody. revert s. induction l as [|x l IH]; intros s; cbn [foldM]; keeps_editor.
Qed.

Lemma KeepsEditor_forEach {A} (l : list A) (body : A → M unit) :
  (∀ x, KeepsEditor (body x)) → KeepsEditor (forEach l body).
Proof.
  intros Hbody. induction l as [|x l IH]; cbn [forEach]; keeps_editor.
Qed.

Lemma KeepsEditor_serializeExtensions fuel settings :
  KeepsEditor (serializeExtensions fuel settings).
Proof. unfold serializeExtensions. keeps_editor. Qed.

Lemma KeepsEditor_serializeSnippets fuel settings : KeepsEditor (serializeSnippets fuel settings).
Proof.
  unfold serializeSnippets, saveSnippetsDiff.
  repeat first
    [ apply KeepsEditor_foldM; intros [? ?] ?
    | apply KeepsEditor_forEach; intros ?
    | keeps_editor_step ].
Qed.

Lemma KeepsEditor_serializeUIState fuel settings extensions :
  KeepsEditor (serializeUIState fuel settings extensions).
Proof. unfold serializeUIState, saveUIStateDiff. keeps_editor. Qed.

Lemma KeepsEditor_serializeKeybindings : KeepsEditor serializeKeybindings.
Proof. unfold serializeKeybindings. keeps_editor. Qed.

Lemma KeepsEditor_serializeUserSettings : KeepsEditor serializeUserSettings.
Proof. unfold serializeUserSettings. keeps_editor. Qed.

Lemma KeepsEditor_saveProfileSyncSettings fuel : KeepsEditor (saveProfileSyncSettings fuel).
Proof. unfold saveProfileSyncSettings. keeps_editor. Qed.

(** X9.  Serialize only reads the editor: however it ends,
    [serializeProfile] leaves the live editor as it was and performs no
    host operation. *)
Theorem serialize_never_touches_editor fuel w :
  live (serializeProfile fuel w).2 = live w
  ∧ journal (serializeProfile fuel w).2 = journal w.
Proof.
  revert w. change (KeepsEditor (serializeProfile fuel)). unfold serializeProfile.
  repeat first
    [ apply KeepsEditor_serializeExtensions
    | apply KeepsEditor_serializeSnippets
    | apply KeepsEditor_serializeUIState
    | apply KeepsEditor_serializeKeybindings
    | apply KeepsEditor_serializeUserSettings
    | apply KeepsEditor_saveProfileSyncSettings
    | keeps_editor_step ].
Qed.

Lemma WritesOwn_ReadOnly {A} p (m : M A) : ReadOnly m → WritesOwn p m.
Proof. intros Hm w Hp. split; [by rewrite Hm|]. intros q Hq. by rewrite Hm. Qed.

Lemma WritesOwn_bind {A B} p (m : M A) (k : A → M B) :
  WritesOwn p m → (∀ a, WritesOwn p (k a)) → WritesOwn p (bind m k).
Proof.
  intros Hm Hk w Hp. unfold bind. destruct (Hm w Hp) as [Hp1 Hq1].
  destruct (m w) as [[a|e|] w1]; cbn [snd] in *; [|done|done].
  destruct (Hk a w1 Hp1) as [Hp2 Hq2]. split; [done|].
  intros q Hq. by rewrite Hq2, Hq1.
Qed.

Lemma WritesOwn_this {B} p (k : string → M B) :
  WritesOwn p (k p) → WritesOwn p (bind (gets _profile) k).
Proof. intros Hk w Hp. unfold bind, gets. rewrite Hp. by apply Hk. Qed.

Lemma WritesOwn_update {A} p (path : RepoPath A) v :
  path_profile path = p → WritesOwn p (update path v).
Proof.
  intros Hpath w Hp. rewrite update_run. cbn [snd]. split; [done|].
  intros q Hq. unfold set_profiles. cbn [profiles]. rewrite lookup_insert_ne; [done|congruence].
Qed.

Lemma WritesOwn_ensureDir p : WritesOwn p (ensureDir p).
Proof.
  intros w Hp. unfold ensureDir, modify, set_profiles. cbn [snd profiles _profile].
  split; [done|]. intros q Hq. by rewrite lookup_insert_ne.
Qed.

Ltac writes_own_step :=
  match goal with
  | |- WritesOwn _ (bind (gets _profile) _) => apply WritesOwn_this
  | |- WritesOwn _ (bind _ _) => apply WritesOwn_bind; [|intros ?]
  | |- WritesOwn _ (update _ _) => apply WritesOwn_update; try reflexivity
  | |- WritesOwn _ (writeFile _ _) => apply WritesOwn_update; try reflexivity
  | |- WritesOwn _ (remove _) => apply WritesOwn_update; try reflexivity
  | |- WritesOwn _ (ensureDir _) => apply WritesOwn_ensureDir
  | |- WritesOwn _ _ => solve [apply WritesOwn_ReadOnly; read_only]
  | |- WritesOwn _ (match ?x with _ => _ end) => destruct x
  | |- WritesOwn _ _ => progress cbv zeta
  | |- WritesOwn _ _ => solve [auto]
  end.
Ltac writes_own := repeat writes_own_step.

Lemma WritesOwn_foldM {A S} p (l : list A) (s : S) (body : S → A → M S) :
  (∀ s x, WritesOwn p (body s x)) → WritesOwn p (foldM l s body).
Proof.
  intros Hbody. revert s. induction l as [|x l IH]; intros s; cbn [foldM]; writes_own.
Qed.

Lemma WritesOwn_forEach {A} p (l : list A) (body : A → M unit) :
  (∀ x, WritesOwn p (body x)) → WritesOwn p (forEach l body).
Proof.
  intros Hbody. induction l as [|x l IH]; cbn [forEach]; writes_own.
Qed.

Lemma WritesOwn_serializeExtensions p fuel settings :
  WritesOwn p (serializeExtensions fuel settings).
Proof. unfold serializeExtensions. writes_own. Qed.

Lemma WritesOwn_serializeSnippets p fuel settings : WritesOwn p (serializeSnippets fuel settings).
Proof.
  unfold serializeSnippets, saveSnippetsDiff.
  repeat first
    [ apply WritesOwn_foldM; intros [? ?] ?
    | apply WritesOwn_forEach; intros ?
    | writes_own_step ].
Qed.

Lemma WritesOwn_serializeUIState p fuel settings extensions :
  WritesOwn p (serializeUIState fuel settings extensions).
Proof. unfold serializeUIState, saveUIStateDiff. writes_own. Qed.

Lemma WritesOwn_serializeKeybindings p : WritesOwn p serializeKeybindings.
Proof.
  unfold serializeKeybindings. writes_own; apply getProfileKeybindingsPath_profile.
Qed.

Lemma WritesOwn_serializeUserSettings p : WritesOwn p serializeUserSettings.
Proof. unfold serializeUserSettings. writes_own. Qed.

Lemma WritesOwn_saveProfileSyncSettings p fuel : WritesOwn p (saveProfileSyncSettings fuel).
Proof. unfold saveProfileSyncSettings. writes_own. Qed.

(** X10.  Serialize writes into the directory of the current profile
    only: however it ends, [serializeProfile] leaves the directory of every
    other profile, ancestors included, as it was. *)
Theorem serialize_writes_own_directory_only fuel w other :
  other ≠ _profile w →
  profiles (serializeProfile fuel w).2 !! other = profiles w !! other.
Proof.
  intros Hother.
  assert (Hown : WritesOwn (_profile w) (serializeProfile fuel)).
  { unfold serializeProfile.
    repeat first
      [ apply WritesOwn_serializeExtensions
      | apply WritesOwn_serializeSnippets
      | apply WritesOwn_serializeUIState
      | apply WritesOwn_serializeKeybindings
      | apply WritesOwn_serializeUserSettings
      | apply WritesOwn_saveProfileSyncSettings
      | writes_own_step ]. }
  by apply (Hown w eq_refl).
Qed.

(** X11.  On a repository that was not initialized, [restoreProfile],
    [serializeProfile], [extendProfileTo], [duplicateProfileTo] and
    [listProfiles] throw before they read or write anything. *)
Theorem uninitialized_operations_throw fuel w original new :
  _initialized w = false →
  restoreProfile fuel w = (Throw NotInitialized, w)
  ∧ serializeProfile fuel w = (Throw NotInitialized, w)
  ∧ extendProfileTo original new w = (Throw NotInitialized, w)
  ∧ duplicateProfileTo original new w = (Throw NotInitialized, w)
  ∧ listProfiles w = (Throw NotInitialized, w).
Proof.
  intros Hinit.
  assert (Hcheck : checkInitialized w = (Throw NotInitialized, w)).
  { unfold checkInitialized, bind, gets. by rewrite Hinit. }
  unfold restoreProfile, serializeProfile, extendProfileTo, duplicateProfileTo, listProfiles.
  split_and!; unfold bind at 1; by rewrite Hcheck.
Qed.

(** ** The UI state: capture, diff and reconstruction *)

Lemma fold_rows_lookup {V R} (g : string * V → option R)
    (step : gmap string R → string * V → gmap string R)
    (rows : list (string * V)) (start : gmap string R) key value :
  (∀ m row, step m row = match g row with
                         | Some v => <[row.1 := v]> m
                         | None => m
                         end) →
  NoDup rows.*1 →
  foldl step start rows !! key = Some value
  ↔ (∃ v0, (key, v0) ∈ rows ∧ g (key, v0) = Some value)
    ∨ (start !! key = Some value ∧ ∀ v0, (key, v0) ∈ rows → g (key, v0) = None).
Proof.
  intros Hstep. revert start. induction rows as [|[k v] rows IH]; intros start Hnd; cbn [foldl].
  - split; [intros Hs; right; split; [done|]; intros v0 Hin; inversion Hin|].
    intros [(v0 & Hin & _)|[Hs _]]; [inversion Hin|done].
  - rewrite fmap_cons in Hnd. apply NoDup_cons in Hnd as [Hk Hnd]. cbn [fst] in Hk.
    rewrite (IH _ Hnd). clear IH. rewrite Hstep. cbn [fst].
    assert (Hfresh : ∀ v0, (k, v0) ∉ rows).
    { intros v0 Hin. apply Hk. by apply (list_elem_of_fmap_2 fst) in Hin. }
    destruct (g (k, v)) as [v'|] eqn:Hg.
    + split.
      * intros [(v0 & Hin & Hv0)|[Hs Hall]]; [left; exists v0; split; [by right|done]|].
        destruct (decide (key = k)) as [->|Hkey].
        -- rewrite lookup_insert_eq in Hs. injection Hs as ->. left. exists v. split; [left|done].
        -- rewrite lookup_insert_ne in Hs by done. right. split; [done|].
           intros v0 [Heq|Hin]%elem_of_cons; [|by apply Hall]. by injection Heq as -> ->.
      * intros [(v0 & [Heq|Hin]%elem_of_cons & Hv0)|[Hs Hall]].
        -- injection Heq as -> ->. right. rewrite lookup_insert_eq. split; [congruence|].
           intros v0 Hin. by destruct (Hfresh v0).
        -- left. by exists v0.
        -- right. destruct (decide (key = k)) as [->|Hkey].
           ++ specialize (Hall v (list_elem_of_here _ _)). congruence.
           ++ rewrite lookup_insert_ne by done. split; [done|].
              intros v0 Hin. apply Hall. by right.
    + split.
      * intros [(v0 & Hin & Hv0)|[Hs Hall]]; [left; exists v0; split; [by right|done]|].
        right. split; [done|]. intros v0 [Heq|Hin]%elem_of_cons; [|by apply Hall].
        by injection Heq as -> ->.
      * intros [(v0 & [Heq|Hin]%elem_of_cons & Hv0)|[Hs Hall]].
        -- injection Heq as -> ->. congruence.
        -- left. by exists v0.
        -- right. split; [done|]. intros v0 Hin. apply Hall. by right.
Qed.

Lemma lookup_foldl_insert {A} (entries m : gmap string A) key :
  foldl (fun m entry => <[entry.1 := entry.2]> m) m (map_to_list entries) !! key
  = match entries !! key with
    | Some value => Some value
    | None => m !! key
    end.
Proof.
  apply option_eq. intros value.
  rewrite (fold_rows_lookup (fun row => Some row.2)); [|done|apply NoDup_fst_map_to_list].
  cbn [snd]. split.
  - intros [(v0 & Hin%elem_of_map_to_list & [= ->])|[Hs Hall]]; [by rewrite Hin|].
    destruct (entries !! key) as [v0|] eqn:Hk; [|done].
    apply elem_of_map_to_list in Hk. by specialize (Hall _ Hk).
  - destruct (entries !! key) as [v0|] eqn:Hk.
    + intros [= ->]. left. exists value. by rewrite elem_of_map_to_list.
    + intros Hs. right. split; [done|]. intros v0 Hin%elem_of_map_to_list. congruence.
Qed.

Lemma lookup_foldl_delete {A} (keys : list string) (m : gmap string A) key :
  foldl (fun m key => delete key m) m keys !! key
  = if bool_decide (key ∈ keys) then None else m !! key.
Proof.
  revert m. induction keys as [|k keys IH]; intros m; cbn [foldl].
  - by rewrite bool_decide_eq_false_2 by (intros Hin; inversion Hin).
  - rewrite IH. destruct (decide (key = k)) as [->|Hne].
    + rewrite (bool_decide_eq_true_2 (k ∈ k :: keys)) by left.
      case_bool_decide; [done|apply lookup_delete_eq].
    + rewrite lookup_delete_ne by done. apply (f_equal (fun b : bool => if b then _ else _)).
      apply bool_decide_ext. rewrite elem_of_cons. tauto.
Qed.

Lemma loadUIStateDiff_run profile w :
  loadUIStateDiff profile w = (Ok (data_ui_state_diff_yml (directory profile w)), w).
Proof.
  unfold loadUIStateDiff. rewrite bind_exists. cbn [path_get path_profile getDiffUIStatePath].
  destruct (data_ui_state_diff_yml (directory profile w)) as [diff|] eqn:Hdiff.
  - rewrite exists_Some. cbv iota. unfold bind. rewrite readFile_run.
    cbn [path_get path_profile getDiffUIStatePath]. by rewrite Hdiff.
  - by rewrite exists_None.
Qed.

Lemma listProfileUIStateProperties_step n profile w :
  listProfileUIStateProperties (S n) profile w
  = match extendsOf (settingsOf w profile) with
    | None => (Ok (default ∅ (data_ui_state_yml (directory profile w))), w)
    | Some parent =>
        (match (listProfileUIStateProperties n parent w).1 with
         | Ok properties =>
             Ok match data_ui_state_diff_yml (directory profile w) with
                | Some diff =>
                    foldl (fun m key => delete key m)
                          (foldl (fun m entry => <[entry.1 := entry.2]> m) properties
                                 (map_to_list (modified diff)))
                          (removed diff)
                | None => properties
                end
         | Throw e => Throw e
         | Diverge => Diverge
         end, w)
    end.
Proof.
  cbn [listProfileUIStateProperties]. unfold bind at 1. rewrite loadProfileSettings_run.
  destruct (extendsOf (settingsOf w profile)) as [parent|]; cbv zeta.
  - rewrite bind_ReadOnly by apply ReadOnly_listProfileUIStateProperties.
    destruct (listProfileUIStateProperties n parent w).1 as [properties| |]; [|done|done].
    unfold bind. rewrite loadUIStateDiff_run.
    by destruct (data_ui_state_diff_yml (directory profile w)).
  - rewrite bind_exists. cbn [path_get path_profile getProfileUIStatePath].
    destruct (data_ui_state_yml (directory profile w)) as [doc|] eqn:Hdoc.
    + rewrite exists_Some. cbv iota. rewrite readFile_run.
      cbn [path_get path_profile getProfileUIStatePath]. by rewrite Hdoc.
    + by rewrite exists_None.
Qed.

Lemma listProfileUIStateProperties_chain fuel w profile chain :
  Chain w profile chain → (length chain ≤ fuel)%nat →
  listProfileUIStateProperties fuel profile w = (Ok (replayUIState w chain), w).
Proof.
  intros Hchain. revert fuel.
  induction Hchain as [profile Hroot|profile parent rest Hext Hchain IH]; intros fuel Hfuel;
    (destruct fuel as [|n]; [cbn in Hfuel; lia|]); rewrite listProfileUIStateProperties_step.
  - by rewrite Hroot.
  - rewrite Hext. rewrite IH by (cbn in Hfuel; lia). cbn [fst].
    destruct Hchain; reflexivity.
Qed.

Lemma Chain_head w profile chain : Chain w profile chain → head chain = Some profile.
Proof. by destruct 1. Qed.

Lemma Chain_tail w profile parent rest :
  Chain w profile (profile :: parent :: rest) →
  extendsOf (settingsOf w profile) = Some parent ∧ Chain w parent (parent :: rest).
Proof.
  intros Hchain. inversion Hchain as [|p q r Hext Hrest]; subst.
  pose proof (Chain_head _ _ _ Hrest) as Hhead. injection Hhead as ->. done.
Qed.

(** X12.  Reconstruction of the effective UI state: along a chain that
    ends, [listProfileUIStateProperties] returns and changes nothing; for a
    profile with a diff document, a key listed in [removed] is absent,
    also when [modified] names it too; any other key has its value from
    [modified] if it is there, and else the value the ancestor has; a
    profile without a diff document has the state of its ancestor. *)
Theorem ui_state_reconstruction fuel w profile parent rest :
  Chain w profile (profile :: parent :: rest) → (length (profile :: parent :: rest) ≤ fuel)%nat →
  ∃ effective inherited,
    listProfileUIStateProperties fuel profile w = (Ok effective, w)
    ∧ listProfileUIStateProperties fuel parent w = (Ok inherited, w)
    ∧ match data_ui_state_diff_yml (directory profile w) with
      | Some diff =>
          ∀ key, effective !! key
                 = if bool_decide (key ∈ removed diff) then None
                   else match modified diff !! key with
                        | Some value => Some value
                        | None => inherited !! key
                        end
      | None => effective = inherited
      end.
Proof.
  intros Hchain Hfuel.
  destruct (Chain_tail _ _ _ _ Hchain) as [Hext Hparent].
  exists (replayUIState w (profile :: parent :: rest)), (replayUIState w (parent :: rest)).
  split_and!.
  - by apply listProfileUIStateProperties_chain.
  - apply listProfileUIStateProperties_chain; [done|]. cbn in *. lia.
  - change (replayUIState w (profile :: parent :: rest))
      with (match data_ui_state_diff_yml (directory profile w) with
            | Some diff =>
                foldl (fun m key => delete key m)
                      (foldl (fun m entry => <[entry.1 := entry.2]> m)
                             (replayUIState w (parent :: rest)) (map_to_list (modified diff)))
                      (removed diff)
            | None => replayUIState w (parent :: rest)
            end).
    destruct (data_ui_state_diff_yml (directory profile w)) as [diff|]; [|done].
    intros key. by rewrite lookup_foldl_delete, lookup_foldl_insert.
Qed.

Lemma foldl_same {A B} (f g : A → B → A) (l : list B) (a : A) :
  (∀ a x, f a x = g a x) → foldl f a l = foldl g a l.
Proof.
  intros Hfg. revert a. induction l as [|x l IH]; intros a; cbn [foldl]; [done|].
  by rewrite Hfg, IH.
Qed.

Lemma listEditorUIStateProperties_run extensions w :
  listEditorUIStateProperties (Some extensions) w
  = (Ok match itemTable (live w) with
        | Some table =>
            foldl (fun properties row =>
                     match captured row.2 with
                     | Some value => <[row.1 := value]> properties
                     | None => properties
                     end) ∅
                  (filter (fun row : string * jsval => selected extensions row.1) (map_to_list table))
        | None => ∅
        end, w).
Proof.
  unfold listEditorUIStateProperties, readStateDB, bind, gets, ret. cbn [fst snd].
  destruct (itemTable (live w)) as [table|]; [|done]. f_equal. f_equal.
  apply foldl_same. intros properties [key value]. unfold captured. cbn [fst snd].
  destruct value; try done. by destruct (includes _ _).
Qed.

(** X13.  What [listEditorUIStateProperties] captures: a key is in the
    snapshot exactly when the key-value store has a row for it that the
    query selects and whose value is kept; the value is the row's, a
    string with the extension-data path replaced by the placeholder; and
    no string of the snapshot holds the home directory.  Nothing is
    changed. *)
Theorem ui_state_capture extensions w :
  ∃ snapshot,
    listEditorUIStateProperties (Some extensions) w = (Ok snapshot, w)
    ∧ (∀ key, snapshot !! key
              = match itemTable (live w) ≫= (fun table => table !! key) with
                | Some value => if bool_decide (selected extensions key)
                                then captured value else None
                | None => None
                end)
    ∧ (∀ key text, snapshot !! key = Some (JStr text) → includes homedir text = false).
Proof.
  rewrite listEditorUIStateProperties_run.
  match goal with |- context [Ok ?m] => set (snapshot := m) end.
  exists snapshot. split; [reflexivity|].
  assert (Hlookup : ∀ key,
    snapshot !! key
    = match itemTable (live w) ≫= (fun table => table !! key) with
      | Some value => if bool_decide (selected extensions key) then captured value else None
      | None => None
      end).
  { intros key. subst snapshot.
    destruct (itemTable (live w)) as [table|]; [|by rewrite lookup_empty].
    cbn [mbind option_bind]. apply option_eq. intros value.
    rewrite (fold_rows_lookup (fun row => captured row.2)); [|done|].
    - rewrite lookup_empty. cbn [snd]. split.
      + intros [(v0 & [Hsel Hin%elem_of_map_to_list]%list_elem_of_filter & Hcap)|[? _]]; [|done].
        cbn [fst] in Hsel. rewrite Hin. by rewrite bool_decide_eq_true_2.
      + destruct (table !! key) as [v0|] eqn:Hk; [|done].
        case_bool_decide as Hsel; [|done]. intros Hcap. left. exists v0. split; [|done].
        apply list_elem_of_filter. split; [done|]. by apply elem_of_map_to_list.
    - eapply sublist_NoDup; [apply (NoDup_fst_map_to_list table)|].
      apply fmap_sublist, sublist_filter. }
  split; [exact Hlookup|].
  intros key text. rewrite Hlookup.
  destruct (itemTable (live w) ≫= _) as [value|]; [|done].
  case_bool_decide; [|done]. unfold captured. destruct value; try done.
  destruct (includes homedir _) eqn:Hhome; [done|]. by intros [= <-].
Qed.

Lemma strictEqual_true value other : strictEqual value other = true → other = Some value.
Proof.
  destruct value, other as [[]|]; cbn [strictEqual]; try done;
    by intros ->%bool_decide_eq_true.
Qed.

Lemma elem_of_keys {A} (m : gmap string A) key : key ∈ (map_to_list m).*1 ↔ is_Some (m !! key).
Proof.
  rewrite list_elem_of_fmap. split.
  - intros ([k v] & -> & Hin%elem_of_map_to_list). by exists v.
  - intros [v Hv]. exists (key, v). split; [done|]. by apply elem_of_map_to_list.
Qed.

Lemma serializeUIState_run fuel w profileSettings parent extensions editor profile :
  extendsOf profileSettings = Some parent →
  (listEditorUIStateProperties extensions w).1 = Ok editor →
  (listProfileUIStateProperties fuel parent w).1 = Ok profile →
  serializeUIState fuel profileSettings extensions w
  = saveUIStateDiff {| modified := modifiedProperties editor profile;
                       removed := arrayDiff (map_to_list profile).*1 (map_to_list editor).*1 |} w.
Proof.
  intros Hext Heditor Hprofile. unfold serializeUIState.
  rewrite bind_ReadOnly by apply ReadOnly_listEditorUIStateProperties.
  rewrite Heditor, Hext.
  rewrite bind_ReadOnly by apply ReadOnly_listProfileUIStateProperties.
  by rewrite Hprofile.
Qed.

(** X14.  The diff [serializeUIState] computes for an inheriting profile:
    [modified] holds the live entries that are not identical to the
    ancestor's; [removed] holds, once each and in whatever order, the keys
    the ancestor has and the live snapshot lacks; no key is both in
    [modified] and in [removed]; and this diff is written as the diff
    document exactly when one of the two is not empty, the tree staying as
    it was otherwise. *)
Theorem ui_state_diff_structure fuel w profileSettings parent extensions editor profile :
  extendsOf profileSettings = Some parent →
  (listEditorUIStateProperties extensions w).1 = Ok editor →
  (listProfileUIStateProperties fuel parent w).1 = Ok profile →
  ∃ diff,
    modified diff = modifiedProperties editor profile
    ∧ (∀ key, key ∈ removed diff ↔ is_Some (profile !! key) ∧ editor !! key = None)
    ∧ NoDup (removed diff)
    ∧ (∀ key, key ∈ removed diff → modified diff !! key = None)
    ∧ serializeUIState fuel profileSettings extensions w
      = (Ok tt, if bool_decide (removed diff = [] ∧ modified diff = ∅) then w
                else (writeFile (getDiffUIStatePath (_profile w)) diff w).2).
Proof.
  intros Hext Heditor Hprofile.
  set (diff := {| modified := modifiedProperties editor profile;
                  removed := arrayDiff (map_to_list profile).*1 (map_to_list editor).*1 |}).
  exists diff.
  assert (Hremoved : ∀ key, key ∈ removed diff ↔ is_Some (profile !! key) ∧ editor !! key = None).
  { intros key. subst diff. cbn [removed]. rewrite elem_of_arrayDiff, !elem_of_keys.
    by rewrite <- eq_None_not_Some. }
  split_and!; [done|done| | |].
  - subst diff. cbn [removed]. unfold arrayDiff. apply NoDup_filter, NoDup_fst_map_to_list.
  - intros key [_ Hnone]%Hremoved. subst diff. cbn [modified].
    destruct (modifiedProperties editor profile !! key) as [value|] eqn:Hmod; [|done].
    apply modifiedProperties_lookup in Hmod as [Hin _]. congruence.
  - rewrite (serializeUIState_run fuel w profileSettings parent extensions editor profile)
      by done.
    fold diff. unfold saveUIStateDiff, isEmpty.
    destruct (removed diff) as [|key keys] eqn:Hrem; cbn [length].
    + rewrite (bool_decide_eq_false_2 (0 < 0)%nat) by lia. cbn [orb].
      case_bool_decide as Hsize; cbn [negb].
      * apply map_size_empty_iff in Hsize. by rewrite bool_decide_eq_true_2.
      * rewrite bool_decide_eq_false_2; [done|]. intros [_ Hempty]. apply Hsize.
        by apply map_size_empty_iff.
    + rewrite (bool_decide_eq_true_2 (0 < S _)%nat) by lia. cbn [orb].
      rewrite bool_decide_eq_false_2; [done|]. by intros [? _].
Qed.

(** ** Round trips of the UI state *)

Lemma settingsOf_frame w w' profile :
  directory profile w' = directory profile w → settingsOf w' profile = settingsOf w profile.
Proof. unfold settingsOf. by intros ->. Qed.

Lemma Chain_frame w w' profile chain :
  (∀ q, q ∈ chain → directory q w' = directory q w) →
  Chain w profile chain → Chain w' profile chain.
Proof.
  intros Hsame Hchain. induction Hchain as [profile Hroot|profile parent rest Hext Hchain IH].
  - apply chain_root. rewrite (settingsOf_frame w w'); [done|]. apply Hsame. left.
  - apply chain_step with (parent := parent).
    + rewrite (settingsOf_frame w w'); [done|]. apply Hsame. left.
    + apply IH. intros q Hq. apply Hsame. by right.
Qed.

Lemma replayUIState_frame w w' chain :
  (∀ q, q ∈ chain → directory q w' = directory q w) →
  replayUIState w' chain = replayUIState w chain.
Proof.
  induction chain as [|p rest IH]; intros Hsame; [done|].
  assert (Hp : directory p w' = directory p w) by (apply Hsame; left).
  assert (Hrest : replayUIState w' rest = replayUIState w rest).
  { apply IH. intros q Hq. apply Hsame. by right. }
  destruct rest as [|q rest]; cbn [replayUIState]; [by rewrite Hp|].
  cbn [replayUIState] in Hrest. by rewrite Hp, Hrest.
Qed.

Lemma diff_empty_same (editor profile : gmap string jsval) :
  arrayDiff (map_to_list profile).*1 (map_to_list editor).*1 = [] →
  modifiedProperties editor profile = ∅ →
  editor = profile.
Proof.
  intros Hremoved Hmodified. apply map_eq. intros key.
  destruct (editor !! key) as [value|] eqn:Heditor.
  - destruct (strictEqual value (profile !! key)) eqn:Hsame.
    + symmetry. by apply strictEqual_true.
    + assert (Hin : modifiedProperties editor profile !! key = Some value)
        by (by apply modifiedProperties_lookup).
      by rewrite Hmodified, lookup_empty in Hin.
  - destruct (profile !! key) as [value|] eqn:Hprofile; [|done].
    assert (Hin : key ∈ arrayDiff (map_to_list profile).*1 (map_to_list editor).*1).
    { rewrite elem_of_arrayDiff, !elem_of_keys. split; [by exists value|].
      rewrite Heditor. by intros [? ?]. }
    rewrite Hremoved in Hin. inversion Hin.
Qed.

(** X15.  Round trip of the UI state of a profile that extends nothing:
    after [serializeUIState], [listProfileUIStateProperties] returns the
    live snapshot that was captured. *)
Theorem ui_state_round_trip_root fuel n w extensions editor :
  extendsOf (settingsOf w (_profile w)) = None →
  (listEditorUIStateProperties extensions w).1 = Ok editor →
  let w' := (serializeUIState fuel (settingsOf w (_profile w)) extensions w).2 in
  (serializeUIState fuel (settingsOf w (_profile w)) extensions w).1 = Ok tt
  ∧ listProfileUIStateProperties (S n) (_profile w) w' = (Ok editor, w').
Proof.
  intros Hroot Heditor.
  assert (Hrun : serializeUIState fuel (settingsOf w (_profile w)) extensions w
                 = writeFile (getProfileUIStatePath (_profile w)) editor w).
  { unfold serializeUIState.
    rewrite bind_ReadOnly by apply ReadOnly_listEditorUIStateProperties.
    rewrite Heditor, Hroot. reflexivity. }
  rewrite Hrun. unfold writeFile. rewrite update_run. cbn zeta. cbn [fst snd].
  split; [done|]. rewrite listProfileUIStateProperties_step.
  cbn [path_profile path_set getProfileUIStatePath].
  unfold settingsOf. rewrite directory_set_profiles_same.
  cbn [profile_yml set_data_ui_state_yml data_ui_state_yml].
  fold (settingsOf w (_profile w)). by rewrite Hroot.
Qed.

(** X16.  Round trip of the UI state of an inheriting profile whose
    ancestors do not lead back to it: provided no diff document is left
    from an earlier serialize, or the live snapshot differs from the
    ancestor's effective state, [listProfileUIStateProperties] returns
    after [serializeUIState] the live snapshot that was captured, arrays
    and objects included. *)
Theorem ui_state_round_trip_inheriting n w parent chain extensions editor :
  extendsOf (settingsOf w (_profile w)) = Some parent →
  Chain w parent chain → _profile w ∉ chain → (length chain ≤ n)%nat →
  (listEditorUIStateProperties extensions w).1 = Ok editor →
  data_ui_state_diff_yml (directory (_profile w) w) = None
  ∨ editor ≠ replayUIState w chain →
  let w' := (serializeUIState n (settingsOf w (_profile w)) extensions w).2 in
  (serializeUIState n (settingsOf w (_profile w)) extensions w).1 = Ok tt
  ∧ listProfileUIStateProperties (S n) (_profile w) w' = (Ok editor, w').
Proof.
  intros Hext Hchain Hfresh Hn Heditor Hstale.
  set (profile := replayUIState w chain) in *.
  assert (Hprofile : listProfileUIStateProperties n parent w = (Ok profile, w))
    by (by apply listProfileUIStateProperties_chain).
  set (diff := {| modified := modifiedProperties editor profile;
                  removed := arrayDiff (map_to_list profile).*1 (map_to_list editor).*1 |}).
  assert (Hlookup : ∀ key,
            (if bool_decide (key ∈ removed diff) then None
             else match modified diff !! key with
                  | Some value => Some value
                  | None => profile !! key
                  end) = editor !! key).
  { intros key. subst diff. cbn [removed modified]. case_bool_decide as Hrem.
    - rewrite elem_of_arrayDiff, !elem_of_keys in Hrem. destruct Hrem as [_ Hnone].
      symmetry. by apply eq_None_not_Some.
    - destruct (modifiedProperties editor profile !! key) as [value|] eqn:Hmod.
      + apply modifiedProperties_lookup in Hmod as [Hin _]. done.
      + destruct (editor !! key) as [value|] eqn:Hin.
        * destruct (strictEqual value (profile !! key)) eqn:Hsame;
            [by apply strictEqual_true|].
          assert (Hmod' : modifiedProperties editor profile !! key = Some value)
            by (by apply modifiedProperties_lookup).
          congruence.
        * destruct (profile !! key) as [value|] eqn:Hp; [|done].
          destruct Hrem. rewrite elem_of_arrayDiff, !elem_of_keys. split; [by exists value|].
          rewrite Hin. by intros [? ?]. }
  assert (Hparent' : ∀ w', (∀ q, q ∈ chain → directory q w' = directory q w) →
            listProfileUIStateProperties n parent w' = (Ok profile, w')).
  { intros w' Hsame. rewrite (listProfileUIStateProperties_chain n w' parent chain).
    - by rewrite (replayUIState_frame w w' chain Hsame).
    - by apply (Chain_frame w w').
    - done. }
  rewrite (serializeUIState_run n w _ parent extensions editor profile Hext Heditor)
    by (by rewrite Hprofile).
  fold diff. unfold saveUIStateDiff, isEmpty.
  destruct (bool_decide (0 < length (removed diff))%nat || negb (bool_decide (size (modified diff) = 0%nat)))
    eqn:Hwrite.
  - rewrite bind_ReadOnly by apply ReadOnly_gets. cbn [gets fst]. unfold writeFile.
    rewrite update_run. cbn zeta. cbn [fst snd path_profile path_set getDiffUIStatePath].
    split; [done|]. rewrite listProfileUIStateProperties_step.
    unfold settingsOf. rewrite directory_set_profiles_same.
    cbn [profile_yml set_data_ui_state_diff_yml data_ui_state_diff_yml].
    fold (settingsOf w (_profile w)). rewrite Hext.
    rewrite Hparent'.
    + cbn [fst]. f_equal. f_equal. apply map_eq. intros key.
      rewrite lookup_foldl_delete, lookup_foldl_insert. apply Hlookup.
    + intros q Hq. apply directory_set_profiles_other. by intros ->.
  - cbn [ret fst snd]. split; [done|].
    apply orb_false_iff in Hwrite as [Hrem Hmod].
    apply negb_false_iff, bool_decide_eq_true, map_size_empty_iff in Hmod.
    apply bool_decide_eq_false in Hrem.
    assert (Hrem' : removed diff = []) by (destruct (removed diff); [done|cbn in Hrem; lia]).
    assert (Hsame : editor = profile) by (by apply diff_empty_same).
    destruct Hstale as [Hnone|Hdiffers]; [|done].
    rewrite listProfileUIStateProperties_step, Hext, Hprofile, Hnone. cbn [fst].
    by rewrite Hsame.
Qed.

(** ** The live extension list *)

Lemma foldM_invariant {A S} (P : S → Prop) (body : S → A → M S) (l : list A) :
  (∀ s x w s' w', P s → body s x w = (Ok s', w') → P s') →
  ∀ s w s' w', P s → foldM l s body w = (Ok s', w') → P s'.
Proof.
  intros Hbody. induction l as [|x l IH]; intros s w s' w' Hs; cbn [foldM].
  - by intros [= <- _].
  - unfold bind. destruct (body s x w) as [[s1|e|] w1] eqn:Hstep; [|done|done].
    intros Hrest. eapply IH; [|exact Hrest]. by eapply Hbody.
Qed.

(** X17.  The live list [listEditorExtensions] returns names no extension
    both as enabled and as disabled, never names the engine's own
    extension nor an extension of the ignore list, and has no
    [uninstall]; the call changes nothing. *)
Theorem editor_lists_exclusive ignoredExtensions w result w' :
  listEditorExtensions ignoredExtensions w = (Ok result, w') →
  w' = w
  ∧ (∀ i, i ∈ ids (enabled result) → i ∉ ids (disabled result))
  ∧ (∀ i, i ∈ ids (enabled result) ++ ids (disabled result) →
          i ≠ settings_extensionId w
          ∧ ∀ names, ignoredExtensions = PStrings names → i ∉ names)
  ∧ uninstall result = None.
Proof.
  intros Hrun.
  assert (Hw : w' = w).
  { pose proof (ReadOnly_listEditorExtensions ignoredExtensions w) as Hro.
    by rewrite Hrun in Hro. }
  split; [done|]. subst w'. revert Hrun.
  set (clean := fun i : string =>
         i ≠ settings_extensionId w ∧ ∀ names, ignoredExtensions = PStrings names → i ∉ names).
  assert (Hinc : ∀ i b w1 w2, includesId ignoredExtensions i w1 = (Ok b, w2) →
            b = false → ∀ names, ignoredExtensions = PStrings names → i ∉ names).
  { intros i b w1 w2 Hinc -> names ->. cbn in Hinc. injection Hinc as Hb _.
    by apply bool_decide_eq_false in Hb. }
  unfold listEditorExtensions.
  rewrite bind_ReadOnly by apply ReadOnly_gets. cbn [gets fst].
  rewrite bind_ReadOnly by apply ReadOnly_gets. cbn [gets fst].
  unfold bind at 1.
  match goal with |- context [foldM ?items ?start ?body w] =>
    destruct (foldM items start body w) as [[[listed seen]| |] w1] eqn:Hfirst; [|done|done];
    pose proof (foldM_invariant
      (fun state : list ExtensionId * gmap string bool =>
         ∀ i, i ∈ ids state.1 → flagOf state.2 i = true ∧ clean i) body items) as Hinv1
  end.
  assert (Hen : ∀ i, i ∈ ids listed → flagOf seen i = true ∧ clean i).
  { eapply (Hinv1 _ _ _ _ _ _ Hfirst). Unshelve.
    - intros [en sn] extension wa [en' sn'] wb Hs. cbn [fst snd] in *.
      destruct (packageJSON extension) as [pj|]; [|by intros [= <- <- _]].
      destruct (isUnderDevelopment pj); cbn [orb]; [by intros [= <- <- _]|].
      case_bool_decide as Hself; [by intros [= <- <- _]|].
      unfold bind. destruct (includesId ignoredExtensions (extension_id extension) wa)
        as [[b| |] wc] eqn:Hign; [|done|done].
      destruct b; [by intros [= <- <- _]|]. intros [= <- <- _] i.
      assert (Hold : i ∈ ids en → flagOf (<[extension_id extension:=true]> sn) i = true ∧ clean i).
      { intros Hi. destruct (Hs i Hi) as [Hflag Hclean]. split; [|done].
        unfold flagOf in *. rewrite lookup_insert. by case_decide. }
      destruct (isBuiltin pj); [done|]. rewrite ids_app, elem_of_app.
      intros [Hi|Hi%list_elem_of_singleton]; [by apply Hold|]. cbn in Hi. subst i.
      split; [unfold flagOf; by rewrite lookup_insert_eq|].
      split; [done|]. by eapply Hinc.
    - intros i Hi. inversion Hi. }
  unfold bind at 1.
  match goal with |- context [foldM ?items ?start ?body w1] =>
    destruct (foldM items start body w1) as [[stored| |] w2] eqn:Hsecond; [|done|done];
    pose proof (foldM_invariant
      (fun state : list ExtensionId => ∀ i, i ∈ ids state → flagOf seen i = false ∧ clean i)
      body items) as Hinv2
  end.
  assert (Hdis : ∀ i, i ∈ ids stored → flagOf seen i = false ∧ clean i).
  { eapply (Hinv2 _ _ _ _ _ _ Hsecond). Unshelve.
    - intros dis [name pkg] wa dis' wb Hs.
      destruct (flagOf _ name); [by intros [= <- _]|].
      destruct (versionedName name); cbn [negb]; [|by intros [= <- _]].
      destruct (flagOf _ (_ +:+ _)); [by intros [= <- _]|].
      destruct (flagOf seen _) eqn:Hseen; cbn [negb andb]; [by intros [= <- _]|].
      case_bool_decide as Hself; cbn [negb]; [by intros [= <- _]|].
      unfold bind. destruct (includesId ignoredExtensions _ wa) as [[b| |] wc] eqn:Hign;
        [|done|done].
      destruct b; intros [= <- _]; [done|]. intros i. rewrite ids_app, elem_of_app.
      intros [Hi|Hi%list_elem_of_singleton]; [by apply Hs|]. cbn in Hi. subst i.
      split; [done|]. split; [done|]. by eapply Hinc.
    - intros i Hi. inversion Hi. }
  intros Hret.
  assert (Hlists : enabled result = listed ∧ disabled result = stored
                   ∧ uninstall result = None).
  { unfold ret in Hret. case_bool_decide; by injection Hret as <-. }
  destruct Hlists as (-> & -> & Hun). split_and!; [| |done].
  - intros i Hi Hj. destruct (Hen i Hi) as [Ht _]. destruct (Hdis i Hj) as [Hf _]. congruence.
  - intros i [Hi|Hi]%elem_of_app; [by apply Hen|by apply Hdis].
Qed.

(** ** Round trips of the extension list *)

Lemma serializeExtensions_run fuel w profileSettings editor :
  (listEditorExtensions
     (default (PStrings []) (effectiveValue (configuration (live w)) !! "ignoredExtensions")) w).1
  = Ok editor →
  serializeExtensions fuel profileSettings w
  = match extendsOf profileSettings with
    | Some parent =>
        match (listProfileExtensions fuel parent w).1 with
        | Ok profile =>
            (Ok editor,
             (remove (getProfileExtensionsOldPath (_profile w))
                (writeFile (getProfileExtensionsPath (_profile w))
                   (documentOf (computeExtensionsDiff editor profile)) w).2).2)
        | Throw e => (Throw e, w)
        | Diverge => (Diverge, w)
        end
    | None =>
        (Ok editor,
         (remove (getProfileExtensionsOldPath (_profile w))
            (writeFile (getProfileExtensionsPath (_profile w)) (documentOf editor) w).2).2)
    end.
Proof.
  intros Heditor. unfold serializeExtensions.
  rewrite bind_ReadOnly by (unfold configGet; read_only). unfold configGet at 1.
  rewrite bind_ReadOnly by apply ReadOnly_gets. cbn [gets ret fst].
  rewrite bind_ReadOnly by apply ReadOnly_listEditorExtensions. rewrite Heditor.
  rewrite bind_ReadOnly by apply ReadOnly_gets. cbn [gets fst].
  destruct (extendsOf profileSettings) as [parent|].
  - rewrite (bind_ReadOnly (bind (listProfileExtensions fuel parent) _))
      by (apply ReadOnly_bind; [apply ReadOnly_listProfileExtensions|intros ?; apply ReadOnly_ret]).
    rewrite bind_ReadOnly by apply ReadOnly_listProfileExtensions.
    by destruct (listProfileExtensions fuel parent w).1.
  - reflexivity.
Qed.

Lemma extensionsDocument_written w doc :
  let w' := (remove (getProfileExtensionsOldPath (_profile w))
               (writeFile (getProfileExtensionsPath (_profile w)) doc w).2).2 in
  extensionsDocument w' (_profile w) = Some doc
  ∧ extensions_yml (directory (_profile w) w') = None
  ∧ settingsOf w' (_profile w) = settingsOf w (_profile w)
  ∧ ∀ q, q ≠ _profile w → directory q w' = directory q w.
Proof.
  unfold remove, writeFile. rewrite !update_run. cbn zeta.
  cbn [snd path_profile path_set getProfileExtensionsPath getProfileExtensionsOldPath].
  unfold extensionsDocument, settingsOf.
  rewrite !directory_set_profiles_same. cbn [set_extensions_yml set_data_extensions_yml
    data_extensions_yml extensions_yml profile_yml].
  split_and!; try done.
  intros q Hq. rewrite directory_set_profiles_other by done.
  by rewrite directory_set_profiles_other.
Qed.

(** X18.  Round trip of the extension list of a profile that extends
    nothing: [serializeExtensions] returns the live list, leaves no legacy
    document, and [listProfileExtensions] then returns the disabled and
    enabled records of the live list as they were. *)
Theorem extensions_round_trip_root fuel n w editor :
  extendsOf (settingsOf w (_profile w)) = None →
  (listEditorExtensions
     (default (PStrings []) (effectiveValue (configuration (live w)) !! "ignoredExtensions")) w).1
  = Ok editor →
  let w' := (serializeExtensions fuel (settingsOf w (_profile w)) w).2 in
  (serializeExtensions fuel (settingsOf w (_profile w)) w).1 = Ok editor
  ∧ extensions_yml (directory (_profile w) w') = None
  ∧ listProfileExtensions (S n) (_profile w) w'
    = (Ok (mkList None (disabled editor) (enabled editor) None), w').
Proof.
  intros Hroot Heditor.
  rewrite (serializeExtensions_run fuel w _ editor Heditor), Hroot. cbn zeta. cbn [fst snd].
  destruct (extensionsDocument_written w (documentOf editor)) as (Hdoc & Hold & Hsettings & _).
  split_and!; [done|done|].
  rewrite listProfileExtensions_step, Hsettings, Hroot, Hdoc. reflexivity.
Qed.

Lemma extensionsDocument_frame w w' profile :
  directory profile w' = directory profile w →
  extensionsDocument w' profile = extensionsDocument w profile.
Proof. unfold extensionsDocument. by intros ->. Qed.

Lemma replayChain_frame w w' chain :
  (∀ q, q ∈ chain → directory q w' = directory q w) →
  replayChain w' chain = replayChain w chain.
Proof.
  induction chain as [|p rest IH]; intros Hsame; [done|].
  assert (Hp : extensionsDocument w' p = extensionsDocument w p).
  { apply extensionsDocument_frame, Hsame. left. }
  assert (Hrest : replayChain w' rest = replayChain w rest).
  { apply IH. intros q Hq. apply Hsame. by right. }
  destruct rest as [|q rest]; cbn [replayChain]; [by rewrite Hp|].
  cbn [replayChain] in Hrest. by rewrite Hp, Hrest.
Qed.

(** X19.  Round trip of the extension list of an inheriting profile whose
    ancestors do not lead back to it: when neither the effective list of
    the ancestor nor the live list names an id twice, the list
    [listProfileExtensions] returns after [serializeExtensions] has the
    disabled ids and the enabled ids of the live list and names no id
    twice. *)
Theorem extensions_round_trip_inheriting n w parent chain editor :
  extendsOf (settingsOf w (_profile w)) = Some parent →
  Chain w parent chain → _profile w ∉ chain → (length chain ≤ n)%nat →
  (listEditorExtensions
     (default (PStrings []) (effectiveValue (configuration (live w)) !! "ignoredExtensions")) w).1
  = Ok editor →
  wellFormed editor → wellFormed (replayChain w chain) →
  let w' := (serializeExtensions n (settingsOf w (_profile w)) w).2 in
  (serializeExtensions n (settingsOf w (_profile w)) w).1 = Ok editor
  ∧ ∃ effective,
      listProfileExtensions (S n) (_profile w) w' = (Ok effective, w')
      ∧ (∀ i, i ∈ ids (disabled effective) ↔ i ∈ ids (disabled editor))
      ∧ (∀ i, i ∈ ids (enabled effective) ↔ i ∈ ids (enabled editor))
      ∧ wellFormed effective.
Proof.
  intros Hext Hchain Hfresh Hn Heditor Hwfe Hwfp.
  set (profile := replayChain w chain) in *.
  assert (Hprofile : listProfileExtensions n parent w = (Ok profile, w))
    by (by apply listProfileExtensions_chain).
  rewrite (serializeExtensions_run n w _ editor Heditor), Hext, Hprofile. cbn zeta.
  cbn [fst snd].
  destruct (extensionsDocument_written w (documentOf (computeExtensionsDiff editor profile)))
    as (Hdoc & _ & Hsettings & Hother).
  set (w' := (remove _ _).2) in *.
  split; [done|].
  exists (applyExtensionsDiff profile (computeExtensionsDiff editor profile)). split.
  - rewrite listProfileExtensions_step, Hsettings, Hext, Hdoc.
    rewrite (listProfileExtensions_chain n w' parent chain).
    + cbn [fst]. rewrite stored_diff_decodes_to_itself.
      rewrite (replayChain_frame w w' chain); [done|].
      intros q Hq. apply Hother. by intros ->.
    + apply (Chain_frame w w'); [|done]. intros q Hq. apply Hother. by intros ->.
    + done.
  - destruct (applyExtensionsDiff_spec profile (computeExtensionsDiff editor profile) Hwfp)
      as (Hw & Hd & He).
    apply NoDup_app in Hwfp as (_ & Hx1 & _). apply NoDup_app in Hwfe as (_ & Hx2 & _).
    assert (HD : ids (disabled (computeExtensionsDiff editor profile))
                 = arrayDiff (ids (disabled editor)) (ids (disabled profile)))
      by apply ids_resolveIds.
    assert (HE : ids (enabled (computeExtensionsDiff editor profile))
                 = arrayDiff (ids (enabled editor)) (ids (enabled profile)))
      by apply ids_resolveIds.
    split_and!; [| |done]; intros i.
    + rewrite Hd, HD, HE, uninstallIds_compute, !elem_of_arrayDiff, !ids_app, !elem_of_app.
      specialize (Hx1 i). specialize (Hx2 i).
      destruct (decide (i ∈ ids (disabled profile))), (decide (i ∈ ids (enabled profile))),
        (decide (i ∈ ids (disabled editor))), (decide (i ∈ ids (enabled editor))); tauto.
    + rewrite He, HD, HE, uninstallIds_compute, !elem_of_arrayDiff, !ids_app, !elem_of_app.
      specialize (Hx1 i). specialize (Hx2 i).
      destruct (decide (i ∈ ids (disabled profile))), (decide (i ∈ ids (enabled profile))),
        (decide (i ∈ ids (disabled editor))), (decide (i ∈ ids (enabled editor))); tauto.
Qed.

(** ** Snippets *)

Lemma globby_run {A} (path : RepoPath (gmap string A)) w :
  globby path w
  = (Ok match path_get path (directory (path_profile path) w) with
        | Some files => (map_to_list files).*1
        | None => []
        end, w).
Proof. reflexivity. Qed.

Lemma deleteNames_all {A} (names : list string) (m : gmap string A) :
  deleteNames (fun _ => true) names m = foldl (fun m name => delete name m) m names.
Proof.
  unfold deleteNames. apply foldl_same. intros m' name.
  destruct (m' !! name) eqn:Hname; [done|]. symmetry. by apply delete_id.
Qed.

Lemma lookup_foldl_insert_keys {A} (f : string → A) (files : list string) (m : gmap string A) key :
  foldl (fun m file => <[file := f file]> m) m files !! key
  = if bool_decide (key ∈ files) then Some (f key) else m !! key.
Proof.
  revert m. induction files as [|file files IH]; intros m; cbn [foldl].
  - by rewrite bool_decide_eq_false_2 by (intros Hin; inversion Hin).
  - rewrite IH. destruct (decide (key = file)) as [->|Hne].
    + rewrite (bool_decide_eq_true_2 (file ∈ file :: files)) by left.
      case_bool_decide; [done|apply lookup_insert_eq].
    + rewrite lookup_insert_ne by done. apply (f_equal (fun b : bool => if b then _ else _)).
      apply bool_decide_ext. rewrite elem_of_cons. split; [by right|by intros [?|?]].
Qed.

Lemma listProfileSnippetPaths_step n profile w :
  listProfileSnippetPaths (S n) profile w
  = (let own := match data_snippets (directory profile w) with
                | Some files => (map_to_list files).*1
                | None => []
                end in
     let overlay start := foldl (fun m file => <[file := (profile, file)]> m) start own in
     match extendsOf (settingsOf w profile) with
     | None => Ok (overlay ∅)
     | Some parent =>
         match (listProfileSnippetPaths n parent w).1 with
         | Ok inherited =>
             match removedNames w profile with
             | Some names => Ok (overlay (foldl (fun m name => delete name m) inherited names))
             | None => Throw TypeError
             end
         | Throw e => Throw e
         | Diverge => Diverge
         end
     end, w).
Proof.
  cbn [listProfileSnippetPaths]. unfold bind at 1. rewrite loadProfileSettings_run.
  unfold removedNames.
  destruct (extendsOf (settingsOf w profile)) as [parent|]; cbv zeta.
  - unfold bind at 1. rewrite bind_ReadOnly by apply ReadOnly_listProfileSnippetPaths.
    destruct (listProfileSnippetPaths n parent w).1 as [inherited| |]; [|done|done].
    rewrite bind_exists. cbn [path_get path_profile getDiffSnippetsPath].
    destruct (data_snippets_diff_yml (directory profile w)) as [diff|] eqn:Hdiff.
    + rewrite exists_Some. cbv iota. unfold bind at 1. unfold bind at 1. rewrite readFile_run.
      cbn [path_get path_profile getDiffSnippetsPath]. rewrite Hdiff.
      destruct (diff !! "removed") as [names|]; [|done].
      unfold bind, iterable, ret. rewrite globby_run, deleteNames_all. reflexivity.
    + rewrite exists_None. cbv iota. unfold bind, ret. rewrite globby_run. reflexivity.
  - unfold bind, ret. rewrite globby_run. reflexivity.
Qed.


Lemma ownSnippets_frame w w' profile :
  profiles w' = profiles w → ownSnippets w' profile = ownSnippets w profile.
Proof. intros Hp. unfold ownSnippets, directory. by rewrite Hp. Qed.

Lemma removedNames_frame w w' profile :
  profiles w' = profiles w → removedNames w' profile = removedNames w profile.
Proof. intros Hp. unfold removedNames, directory. by rewrite Hp. Qed.

Lemma listProfileSnippetPaths_frame w w' fuel :
  profiles w' = profiles w →
  ∀ profile, (listProfileSnippetPaths fuel profile w').1 = (listProfileSnippetPaths fuel profile w).1.
Proof.
  intros Hp. induction fuel as [|n IH]; intros profile; [done|].
  rewrite !listProfileSnippetPaths_step. cbv zeta. cbn [fst].
  rewrite (settingsOf_frame w w') by (unfold directory; by rewrite Hp).
  rewrite (removedNames_frame w w') by done.
  unfold directory. rewrite Hp. destruct (extendsOf (settingsOf w profile)); [|done].
  by rewrite IH.
Qed.

Lemma listProfileSnippetPaths_sound fuel :
  ∀ profile w index,
    (listProfileSnippetPaths fuel profile w).1 = Ok index →
    ∀ name holder file, index !! name = Some (holder, file) →
      file = name ∧ is_Some (ownSnippets w holder !! name).
Proof.
  induction fuel as [|n IH]; intros profile w index; [done|].
  rewrite listProfileSnippetPaths_step. cbv zeta. cbn [fst].
  assert (Hown : ∀ (start : gmap string (string * string)) name holder file,
            foldl (fun m file => <[file := (profile, file)]> m) start
              match data_snippets (directory profile w) with
              | Some files => (map_to_list files).*1
              | None => []
              end !! name = Some (holder, file) →
            (file = name ∧ is_Some (ownSnippets w holder !! name))
            ∨ start !! name = Some (holder, file)).
  { intros start name holder file.
    rewrite (lookup_foldl_insert_keys (fun file => (profile, file))).
    case_bool_decide as Hin; [|by right]. intros [= <- <-]. left. split; [done|].
    unfold ownSnippets. destruct (data_snippets (directory profile w)) as [files|]; cbn [default].
    - by apply elem_of_keys.
    - inversion Hin. }
  destruct (extendsOf (settingsOf w profile)) as [parent|].
  - destruct (listProfileSnippetPaths n parent w).1 as [inherited| |] eqn:Hparent; [|done|done].
    destruct (removedNames w profile) as [names|]; [|done].
    intros [= <-] name holder file Hname. apply Hown in Hname as [Hname|Hname]; [done|].
    rewrite lookup_foldl_delete in Hname. case_bool_decide; [done|].
    by apply (IH parent w inherited Hparent).
  - intros [= <-] name holder file Hname. apply Hown in Hname as [Hname|Hname]; [done|].
    by rewrite lookup_empty in Hname.
Qed.

(** X21.  Every entry of the path index of snippets names a file that
    exists: the entry of a name is a file of that same name in the
    snippets directory of the profile the entry gives. *)
Theorem snippet_paths_point_to_files fuel profile w index name holder file :
  (listProfileSnippetPaths fuel profile w).1 = Ok index →
  index !! name = Some (holder, file) →
  file = name ∧ is_Some (ownSnippets w holder !! name).
Proof. intros Hrun. by apply (listProfileSnippetPaths_sound fuel profile w index). Qed.

Lemma loadSnippetsDiff_run w :
  loadSnippetsDiff w = (Ok (data_snippets_diff_yml (directory (_profile w) w)), w).
Proof.
  unfold loadSnippetsDiff. unfold bind at 1. unfold gets at 1. rewrite bind_exists.
  cbn [path_get path_profile getDiffSnippetsPath].
  destruct (data_snippets_diff_yml (directory (_profile w) w)) as [diff|] eqn:Hdiff.
  - rewrite exists_Some. cbv iota. unfold bind. rewrite readFile_run.
    cbn [path_get path_profile getDiffSnippetsPath]. by rewrite Hdiff.
  - by rewrite exists_None.
Qed.

Lemma copySnippet_read w0 w holder file data :
  profiles w = profiles w0 →
  ownSnippets w0 holder !! file = Some data →
  readFileIn (getProfileSnippetsPath holder) file w = (Ok data, w).
Proof.
  intros Hp Hdata. unfold readFileIn, bind, gets.
  cbn [path_get path_profile getProfileSnippetsPath].
  rewrite <- (ownSnippets_frame w0 w) in Hdata by done. unfold ownSnippets in Hdata.
  destruct (data_snippets (directory holder w)) as [files|]; cbn [default mbind option_bind] in *.
  - unfold Datatypes.id in Hdata. by rewrite Hdata.
  - by rewrite lookup_empty in Hdata.
Qed.

Lemma forEach_copySnippet w0 ignore rows :
  (∀ row, row ∈ rows → is_Some (ownSnippets w0 row.2.1 !! row.2.2)) →
  (∀ row, row ∈ rows → row.1 ∉ ignore → nested row.1 = false) →
  ∀ w acc,
    profiles w = profiles w0 →
    snippets (live w) = Some acc →
    ∃ w', forEach rows (fun '(name, snippetPath) =>
                          if bool_decide (name ∈ ignore) then ret tt
                          else copySnippet snippetPath name) w = (Ok tt, w')
          ∧ profiles w' = profiles w0
          ∧ snippets (live w')
            = Some (foldl (fun m row => match copyStep w0 ignore row with
                                        | Some data => <[row.1 := data]> m
                                        | None => m
                                        end) acc rows).
Proof.
  induction rows as [|[name [holder file]] rows IH]; intros Hfiles Hflat w acc Hp Hacc;
    cbn [forEach foldl].
  - by exists w.
  - assert (Hrest : ∀ row, row ∈ rows → is_Some (ownSnippets w0 row.2.1 !! row.2.2)).
    { intros row Hin. apply Hfiles. by right. }
    assert (Hflat' : ∀ row, row ∈ rows → row.1 ∉ ignore → nested row.1 = false).
    { intros row Hin. apply Hflat. by right. }
    unfold copyStep at 2. cbn [fst snd]. unfold bind at 1.
    case_bool_decide as Hin.
    + unfold ret at 1. by apply IH.
    + destruct (Hfiles (name, (holder, file))) as [data Hdata]; [left|]. cbn [fst snd] in Hdata.
      rewrite Hdata.
      unfold copySnippet. cbn [fst snd]. unfold bind at 1.
      rewrite (copySnippet_read w0 w holder file data Hp Hdata).
      assert (Hname : nested name = false) by (apply (Hflat (name, (holder, file))); [left|done]).
      rewrite Hname. unfold modify.
      apply IH; [done|done|done|]. cbn. by rewrite Hacc.
Qed.

Lemma forEach_copySnippet_throws w0 (ignore : list string) rows :
  (∀ row, row ∈ rows → is_Some (ownSnippets w0 row.2.1 !! row.2.2)) →
  (∃ row, row ∈ rows ∧ (row.1 ∉ ignore) ∧ nested row.1 = true) →
  ∀ w,
    profiles w = profiles w0 →
    (forEach rows (fun '(name, snippetPath) =>
                     if bool_decide (name ∈ ignore) then ret tt
                     else copySnippet snippetPath name) w).1 = Throw NoSuchFile.
Proof.
  induction rows as [|[name [holder file]] rows IH]; intros Hfiles (row & Hrow & Hkept & Hnested) w Hp.
  - inversion Hrow.
  - assert (Hrest : ∀ row, row ∈ rows → is_Some (ownSnippets w0 row.2.1 !! row.2.2)).
    { intros r Hin. apply Hfiles. by right. }
    cbn [forEach]. unfold bind at 1.
    apply elem_of_cons in Hrow as [->|Hrow].
    + cbn [fst] in Hkept, Hnested. rewrite bool_decide_eq_false_2 by done.
      destruct (Hfiles (name, (holder, file))) as [data Hdata]; [left|]. cbn [fst snd] in Hdata.
      unfold copySnippet. cbn [fst snd]. unfold bind at 1.
      rewrite (copySnippet_read w0 w holder file data Hp Hdata). by rewrite Hnested.
    + case_bool_decide as Hin.
      * unfold ret at 1. apply IH; [done| |done]. by exists row.
      * destruct (Hfiles (name, (holder, file))) as [data Hdata]; [left|]. cbn [fst snd] in Hdata.
        unfold copySnippet. cbn [fst snd]. unfold bind at 1.
        rewrite (copySnippet_read w0 w holder file data Hp Hdata).
        destruct (nested name); [done|]. unfold modify.
        apply IH; [done| |done]. by exists row.
Qed.

(** [restoreSnippets] up to its copy loop. *)
Lemma restoreSnippets_loop fuel w index ignore :
  removedNames w (_profile w) = Some ignore →
  (listProfileSnippetPaths fuel (_profile w) w).1 = Ok index →
  restoreSnippets fuel w
  = forEach (map_to_list index) (fun '(name, snippetPath) =>
               if bool_decide (name ∈ ignore) then ret tt
               else copySnippet snippetPath name)
      (record OpEmptySnippets (set_live (set_snippets (Some ∅) (live w)) w)).
Proof.
  intros Hignore Hindex. unfold restoreSnippets. unfold bind at 1. unfold emptySnippets, modify.
  set (w0 := record OpEmptySnippets (set_live (set_snippets (Some ∅) (live w)) w)).
  unfold bind at 1. rewrite loadSnippetsDiff_run.
  assert (Hnames : removedNames w0 (_profile w0) = Some ignore) by done.
  unfold removedNames in Hnames.
  assert (Hrun : (listProfileSnippetPaths fuel (_profile w) w0).1 = Ok index).
  { by rewrite (listProfileSnippetPaths_frame w w0). }
  assert (Hloop : ∀ w1 : World, w1 = w0 →
            bind (gets _profile) (fun profile =>
              bind (listProfileSnippetPaths fuel profile) (fun snippets =>
                forEach (map_to_list snippets) (fun '(name, snippetPath) =>
                  if bool_decide (name ∈ ignore) then ret tt
                  else copySnippet snippetPath name))) w1
            = forEach (map_to_list index) (fun '(name, snippetPath) =>
                         if bool_decide (name ∈ ignore) then ret tt
                         else copySnippet snippetPath name) w0).
  { intros w1 ->. unfold bind at 1. unfold gets at 1.
    rewrite bind_ReadOnly by apply ReadOnly_listProfileSnippetPaths.
    change (_profile w0) with (_profile w). by rewrite Hrun. }
  destruct (data_snippets_diff_yml (directory (_profile w0) w0)) as [diff|].
  - rewrite Hnames. unfold iterable, ret at 1. unfold bind at 1. by apply Hloop.
  - injection Hnames as <-. unfold ret at 1. unfold bind at 1. by apply Hloop.
Qed.

Lemma index_rows_exist fuel w index :
  (listProfileSnippetPaths fuel (_profile w) w).1 = Ok index →
  ∀ row, row ∈ map_to_list index → is_Some (ownSnippets w row.2.1 !! row.2.2).
Proof.
  intros Hindex [name [holder file]] Hin. apply elem_of_map_to_list in Hin. cbn [fst snd].
  by destruct (listProfileSnippetPaths_sound fuel (_profile w) w index Hindex name holder file Hin)
    as [-> Hfile].
Qed.

Lemma restoreSnippets_run fuel w index ignore :
  removedNames w (_profile w) = Some ignore →
  (listProfileSnippetPaths fuel (_profile w) w).1 = Ok index →
  (∀ name, is_Some (index !! name) → name ∉ ignore → nested name = false) →
  ∃ w' files,
    restoreSnippets fuel w = (Ok tt, w')
    ∧ profiles w' = profiles w
    ∧ snippets (live w') = Some files
    ∧ ∀ name, files !! name
              = if bool_decide (name ∈ ignore) then None
                else match index !! name with
                     | Some (holder, file) => ownSnippets w holder !! file
                     | None => None
                     end.
Proof.
  intros Hignore Hindex Hflat. rewrite (restoreSnippets_loop fuel w index ignore Hignore Hindex).
  destruct (forEach_copySnippet w ignore (map_to_list index) (index_rows_exist fuel w index Hindex))
    with (w := record OpEmptySnippets (set_live (set_snippets (Some ∅) (live w)) w))
         (acc := (∅ : gmap string string))
    as (w' & Hloop & Hp' & Hlive); [|done|done|].
  { intros [name path] Hin. apply elem_of_map_to_list in Hin. cbn [fst].
    apply Hflat. by exists path. }
  exists w'. eexists. split; [exact Hloop|]. split; [done|]. split; [exact Hlive|].
  intros name. apply option_eq. intros data.
  rewrite (fold_rows_lookup (copyStep w ignore)); [|done|apply NoDup_fst_map_to_list].
  rewrite lookup_empty. unfold copyStep. cbn [fst snd]. split.
  - intros [([holder file] & Hin & Hdata)|[? _]]; [|done].
    apply elem_of_map_to_list in Hin. rewrite Hin. by case_bool_decide.
  - case_bool_decide; [done|].
    destruct (index !! name) as [[holder file]|] eqn:Hname; [|done].
    intros Hdata. left. exists (holder, file). split; [by apply elem_of_map_to_list|].
    done.
Qed.

(** X22.  What [restoreSnippets] does once the removal diff and the path
    index of the current profile are read.  When no name of the index that
    the diff does not list has a directory part, it returns normally: the
    snippets that were in the editor are gone, and the directory holds,
    for every name of the index that the diff does not list, the content
    of the indexed file; a name the diff lists is not restored, whether
    the index has it or not.  When such a name has a directory part, the
    copy into the emptied directory fails and the call throws.  The
    repository is not changed either way. *)
Theorem restore_snippets_result fuel w index ignore :
  removedNames w (_profile w) = Some ignore →
  (listProfileSnippetPaths fuel (_profile w) w).1 = Ok index →
  ((∀ name, is_Some (index !! name) → name ∉ ignore → nested name = false) →
   ∃ w' files,
     restoreSnippets fuel w = (Ok tt, w')
     ∧ profiles w' = profiles w
     ∧ snippets (live w') = Some files
     ∧ ∀ name, files !! name
               = if bool_decide (name ∈ ignore) then None
                 else match index !! name with
                      | Some (holder, file) => ownSnippets w holder !! file
                      | None => None
                      end)
  ∧ ((∃ name, is_Some (index !! name) ∧ (name ∉ ignore) ∧ nested name = true) →
     (restoreSnippets fuel w).1 = Throw NoSuchFile
     ∧ profiles (restoreSnippets fuel w).2 = profiles w).
Proof.
  intros Hignore Hindex. split; [by apply restoreSnippets_run|].
  intros (name & [path Hpath] & Hkept & Hnested).
  split; [|apply KeepsRepository_restoreSnippets].
  rewrite (restoreSnippets_loop fuel w index ignore Hignore Hindex).
  apply (forEach_copySnippet_throws w ignore (map_to_list index)
           (index_rows_exist fuel w index Hindex)); [|done].
  exists (name, path). split; [by apply elem_of_map_to_list|done].
Qed.

(** ** Storing the snippets *)

Lemma storeIn_storeIn this f g w :
  storeIn this g (storeIn this f w) = storeIn this (fun d => g (f d)) w.
Proof.
  unfold storeIn. rewrite directory_set_profiles_same. unfold set_profiles. cbn.
  by rewrite insert_insert_eq.
Qed.

Lemma readEditorSnippet_run file data w :
  liveSnippets w !! file = Some data → readEditorSnippet file w = (Ok data, w).
Proof.
  unfold liveSnippets, readEditorSnippet, bind, gets.
  destruct (snippets (live w)) as [files|]; cbn [default mbind option_bind].
  - intros Hfile. unfold Datatypes.id in Hfile. by rewrite Hfile.
  - by rewrite lookup_empty.
Qed.

Lemma listEditorSnippets_run w :
  listEditorSnippets w = (Ok (map_to_list (liveSnippets w)).*1, w).
Proof.
  unfold listEditorSnippets, liveSnippets, bind, gets, ret.
  destruct (snippets (live w)); cbn [default]; [done|]. by rewrite map_to_list_empty.
Qed.

Lemma lookup_foldl_names {A} (g : string → option A) (names : list string) (m : gmap string A) key :
  foldl (fun m name => match g name with
                       | Some a => <[name := a]> m
                       | None => m
                       end) m names !! key
  = if bool_decide (key ∈ names)
    then match g key with
         | Some a => Some a
         | None => m !! key
         end
    else m !! key.
Proof.
  revert m. induction names as [|name names IH]; intros m; cbn [foldl].
  - by rewrite bool_decide_eq_false_2 by (intros Hin; inversion Hin).
  - rewrite IH. destruct (decide (key = name)) as [->|Hne].
    + rewrite (bool_decide_eq_true_2 (name ∈ name :: names)) by left.
      destruct (g name) as [a|]; [|by case_bool_decide].
      rewrite lookup_insert_eq. by case_bool_decide.
    + assert (Hm : match g name with
                   | Some a => <[name := a]> m
                   | None => m
                   end !! key = m !! key).
      { destruct (g name); [by rewrite lookup_insert_ne|done]. }
      rewrite Hm. apply (f_equal (fun b : bool => if b then _ else _)).
      apply bool_decide_ext. rewrite elem_of_cons. split; [by right|by intros [?|?]].
Qed.

Lemma forEach_store this files names :
  (∀ name, name ∈ names → is_Some (files !! name)) →
  (∀ name, name ∈ names → nested name = false) →
  ∀ w acc,
    liveSnippets w = files →
    forEach names (fun file =>
      data <- readEditorSnippet file ;;
      if nested file then throw NoSuchFile else
      files <- gets (fun w => default ∅ (data_snippets (directory this w))) ;;
      writeFile (getProfileSnippetsPath this) (<[file := data]> files))
      (storeIn this (set_data_snippets (Some acc)) w)
    = (Ok tt, storeIn this (set_data_snippets
                (Some (foldl (fun m name => match files !! name with
                                            | Some data => <[name := data]> m
                                            | None => m
                                            end) acc names))) w).
Proof.
  induction names as [|name names IH]; intros Hnames Hflat w acc Hlive; cbn [forEach foldl]; [done|].
  destruct (Hnames name) as [data Hdata]; [left|]. rewrite Hdata.
  unfold bind at 1. unfold bind at 1.
  rewrite (readEditorSnippet_run name data) by (by rewrite <- Hlive in Hdata).
  rewrite (Hflat name) by left.
  unfold bind at 1. unfold gets at 1. unfold writeFile. rewrite update_run.
  cbn [path_profile path_set getProfileSnippetsPath].
  fold (storeIn this (set_data_snippets (Some (<[name := data]>
          (default ∅ (data_snippets (directory this (storeIn this (set_data_snippets (Some acc)) w)))))))
          (storeIn this (set_data_snippets (Some acc)) w)).
  rewrite storeIn_storeIn. unfold storeIn at 2. rewrite directory_set_profiles_same.
  cbn [data_snippets set_data_snippets default].
  apply (IH (fun name Hin => Hnames name (list_elem_of_further _ _ _ Hin))
            (fun name Hin => Hflat name (list_elem_of_further _ _ _ Hin)) w _ Hlive).
Qed.

Lemma forEach_store_throws this files names :
  (∀ name, name ∈ names → is_Some (files !! name)) →
  (∃ name, name ∈ names ∧ nested name = true) →
  ∀ w,
    liveSnippets w = files →
    (forEach names (fun file =>
       data <- readEditorSnippet file ;;
       if nested file then throw NoSuchFile else
       files <- gets (fun w => default ∅ (data_snippets (directory this w))) ;;
       writeFile (getProfileSnippetsPath this) (<[file := data]> files)) w).1
    = Throw NoSuchFile.
Proof.
  induction names as [|name names IH]; intros Hnames (bad & Hbad & Hnested) w Hlive.
  - inversion Hbad.
  - destruct (Hnames name) as [data Hdata]; [left|].
    cbn [forEach]. unfold bind at 1. unfold bind at 1.
    rewrite (readEditorSnippet_run name data) by (by rewrite <- Hlive in Hdata).
    destruct (nested name) eqn:Hname; [done|].
    apply elem_of_cons in Hbad as [->|Hbad]; [congruence|].
    unfold bind at 1. unfold gets at 1. unfold writeFile. rewrite update_run.
    apply IH; [|by exists bad|done].
    intros other Hin. apply Hnames. by right.
Qed.

Lemma store_run this files names w :
  liveSnippets w = files →
  (∀ name, name ∈ names → is_Some (files !! name)) →
  (∀ name, name ∈ names → nested name = false) →
  (if bool_decide (0 < length names)%nat then
     writeFile (getProfileSnippetsPath this) ∅ ;;;
     forEach names (fun file =>
       data <- readEditorSnippet file ;;
       if nested file then throw NoSuchFile else
       files <- gets (fun w => default ∅ (data_snippets (directory this w))) ;;
       writeFile (getProfileSnippetsPath this) (<[file := data]> files))
   else remove (getProfileSnippetsPath this)) w
  = (Ok tt, storeIn this (set_data_snippets
              (if bool_decide (names = []) then None
               else Some (foldl (fun m name => match files !! name with
                                               | Some data => <[name := data]> m
                                               | None => m
                                               end) ∅ names))) w).
Proof.
  intros Hlive Hnames Hflat. destruct names as [|name names].
  - reflexivity.
  - rewrite (bool_decide_eq_true_2 (0 < _)%nat) by (cbn; lia).
    rewrite (bool_decide_eq_false_2 (_ = [])) by done.
    unfold bind at 1. unfold writeFile at 1. rewrite update_run.
    cbn [path_profile path_set getProfileSnippetsPath].
    fold (storeIn this (set_data_snippets (Some ∅)) w).
    by apply forEach_store.
Qed.

Lemma store_throws this files names w :
  liveSnippets w = files →
  (∀ name, name ∈ names → is_Some (files !! name)) →
  (∃ name, name ∈ names ∧ nested name = true) →
  ((if bool_decide (0 < length names)%nat then
      writeFile (getProfileSnippetsPath this) ∅ ;;;
      forEach names (fun file =>
        data <- readEditorSnippet file ;;
        if nested file then throw NoSuchFile else
        files <- gets (fun w => default ∅ (data_snippets (directory this w))) ;;
        writeFile (getProfileSnippetsPath this) (<[file := data]> files))
    else remove (getProfileSnippetsPath this)) w).1
  = Throw NoSuchFile.
Proof.
  intros Hlive Hnames Hbad. destruct names as [|name names].
  - destruct Hbad as (bad & Hin & _). inversion Hin.
  - rewrite (bool_decide_eq_true_2 (0 < _)%nat) by (cbn; lia).
    unfold bind at 1. unfold writeFile at 1. rewrite update_run.
    by apply (forEach_store_throws this files).
Qed.

Lemma foldl_keys (files : gmap string string) :
  foldl (fun m name => match files !! name with
                       | Some data => <[name := data]> m
                       | None => m
                       end) ∅ (map_to_list files).*1 = files.
Proof.
  apply map_eq. intros key. rewrite (lookup_foldl_names (fun name => files !! name)).
  rewrite lookup_empty. case_bool_decide as Hin; [by destruct (files !! key)|].
  symmetry. apply eq_None_not_Some. by rewrite <- elem_of_keys.
Qed.

Lemma keys_nil {A} (m : gmap string A) : (map_to_list m).*1 = [] ↔ m = ∅.
Proof.
  split.
  - intros Hnil. apply map_to_list_empty_iff. by apply fmap_nil_inv in Hnil.
  - intros ->. by rewrite map_to_list_empty.
Qed.

Lemma serializeSnippets_root fuel w settings :
  extendsOf settings = None →
  (∀ name, is_Some (liveSnippets w !! name) → nested name = false) →
  serializeSnippets fuel settings w
  = (Ok tt, storeIn (_profile w)
              (set_data_snippets (if bool_decide (liveSnippets w = ∅) then None
                                  else Some (liveSnippets w))) w).
Proof.
  intros Hroot Hflat. unfold serializeSnippets. unfold bind at 1. rewrite listEditorSnippets_run.
  unfold bind at 1. unfold gets at 1. rewrite Hroot. unfold bind at 1. unfold ret at 1.
  rewrite (store_run (_profile w) (liveSnippets w)); [|done| |].
  - rewrite foldl_keys. by rewrite (bool_decide_ext _ _ (keys_nil (liveSnippets w))).
  - intros name. by rewrite elem_of_keys.
  - intros name Hin. apply Hflat. by apply elem_of_keys.
Qed.

Lemma spliceName_spec file : ∀ editor,
  NoDup editor →
  NoDup (spliceName file editor) ∧ ∀ f, f ∈ spliceName file editor ↔ f ∈ editor ∧ f ≠ file.
Proof.
  induction editor as [|x rest IH]; intros Hnd; cbn [spliceName].
  - split; [done|]. intros f. split; [intros Hin; inversion Hin|by intros [? _]].
  - apply NoDup_cons in Hnd as [Hx Hnd]. case_bool_decide as Heq.
    + subst x. split; [done|]. intros f. rewrite elem_of_cons. split.
      * intros Hin. split; [by right|]. by intros ->.
      * by intros [[?|?] ?].
    + destruct (IH Hnd) as [Hnd' Hmem]. split.
      * apply NoDup_cons. split; [|done]. rewrite Hmem. by intros [? _].
      * intros f. rewrite !elem_of_cons, Hmem. split.
        -- intros [->|[? ?]]; [by split; [left|]|by split; [right|]].
        -- intros [[->|?] ?]; [by left|by right].
Qed.

Lemma foldM_compare inherited files todo :
  (∀ f, f ∈ todo → is_Some (files !! f)) →
  ∀ w editor removed,
    liveSnippets w = files →
    NoDup editor →
    ∃ editor',
      foldM todo (editor, removed) (fun '(editor, removed) file =>
        data <- readEditorSnippet file ;;
        match inherited !! file with
        | Some inherited =>
            if nonEmptyString inherited then
              ret (if bool_decide (sha1 data = inherited) then spliceName file editor else editor,
                   removed)
            else ret (editor, removed ++ [file])
        | None =>
            if bool_decide (file ∈ objectPrototypeNames) then ret (editor, removed)
            else ret (editor, removed ++ [file])
        end) w
      = (Ok (editor', removed ++ filter (fun file => answersTo inherited file = false) todo), w)
      ∧ NoDup editor'
      ∧ ∀ f, f ∈ editor'
             ↔ f ∈ editor ∧ ¬ (f ∈ todo ∧ unchangedSnippet inherited files f = true).
Proof.
  induction todo as [|x rest IH]; intros Htodo w editor removed Hlive Hnd; cbn [foldM].
  - exists editor. rewrite filter_nil, app_nil_r. split; [done|]. split; [done|].
    intros f. split; [|by intros [? _]]. intros Hin. split; [done|]. intros [Hnil _]. inversion Hnil.
  - destruct (Htodo x) as [data Hdata]; [left|].
    assert (Hrest : ∀ f, f ∈ rest → is_Some (files !! f)) by (intros f Hin; apply Htodo; by right).
    unfold bind at 1. unfold bind at 1.
    rewrite (readEditorSnippet_run x data) by (by rewrite Hlive). cbv zeta.
    assert (Hskip : ∀ editor1,
              NoDup editor1 →
              (∀ f, f ∈ editor1 ↔ f ∈ editor ∧ ¬ (f = x ∧ unchangedSnippet inherited files f = true)) →
              ∀ removed1 : list string,
                removed1 ++ filter (fun file => answersTo inherited file = false) rest
                = removed ++ filter (fun file => answersTo inherited file = false) (x :: rest) →
                ∃ editor',
                  foldM rest (editor1, removed1) (fun '(editor, removed) file =>
                    data <- readEditorSnippet file ;;
                    match inherited !! file with
                    | Some inherited =>
                        if nonEmptyString inherited then
                          ret (if bool_decide (sha1 data = inherited) then spliceName file editor else editor,
                               removed)
                        else ret (editor, removed ++ [file])
                    | None =>
                        if bool_decide (file ∈ objectPrototypeNames) then ret (editor, removed)
                        else ret (editor, removed ++ [file])
                    end) w
                  = (Ok (editor', removed ++ filter (fun file => answersTo inherited file = false)
                                               (x :: rest)), w)
                  ∧ NoDup editor'
                  ∧ ∀ f, f ∈ editor'
                         ↔ f ∈ editor ∧ ¬ (f ∈ x :: rest ∧ unchangedSnippet inherited files f = true)).
    { intros editor1 Hnd1 Hmem1 removed1 Hremoved.
      destruct (IH Hrest w editor1 removed1 Hlive Hnd1) as (editor' & Hrun & Hnd' & Hmem').
      exists editor'. rewrite Hrun, Hremoved. split; [done|]. split; [done|].
      intros f. rewrite Hmem', Hmem1, elem_of_cons. tauto. }
    unfold unchangedSnippet in Hskip at 1.
    destruct (inherited !! x) as [hash|] eqn:Hx.
    + destruct (nonEmptyString hash) eqn:Hhash; unfold ret at 1.
      * case_bool_decide as Hsame.
        -- destruct (spliceName_spec x editor Hnd) as [Hnd1 Hmem1].
           apply Hskip; [done| |].
           ++ intros f. rewrite Hmem1. split.
              ** intros [? ?]. split; [done|]. by intros [? _].
              ** intros [? Hnot]. split; [done|]. intros ->. apply Hnot. split; [done|].
                 unfold unchangedSnippet. rewrite Hx, Hdata, Hhash. cbn [andb].
                 by apply bool_decide_eq_true.
           ++ rewrite filter_cons_False; [done|]. unfold answersTo. by rewrite Hx, Hhash.
        -- apply Hskip; [done| |].
           ++ intros f. split; [|by intros [? _]]. intros Hin. split; [done|].
              intros [-> Hun]. unfold unchangedSnippet in Hun. rewrite Hx, Hdata, Hhash in Hun.
              cbn [andb] in Hun. by apply bool_decide_eq_true in Hun.
           ++ rewrite filter_cons_False; [done|]. unfold answersTo. by rewrite Hx, Hhash.
      * apply Hskip; [done| |].
        -- intros f. split; [|by intros [? _]]. intros Hin. split; [done|].
           intros [-> Hun]. unfold unchangedSnippet in Hun. by rewrite Hx, Hdata, Hhash in Hun.
        -- rewrite filter_cons_True by (unfold answersTo; by rewrite Hx, Hhash).
           by rewrite <- app_assoc.
    + assert (Hsame : ∀ f, f ∈ editor
                           ↔ f ∈ editor ∧ ¬ (f = x ∧ unchangedSnippet inherited files f = true)).
      { intros f. split; [|by intros [? _]]. intros Hin. split; [done|].
        intros [-> Hun]. unfold unchangedSnippet in Hun. by rewrite Hx in Hun. }
      case_bool_decide as Hproto; unfold ret at 1; (apply Hskip; [done|done|]).
      * rewrite filter_cons_False; [done|]. unfold answersTo. rewrite Hx.
        by rewrite bool_decide_eq_true_2.
      * rewrite filter_cons_True by (unfold answersTo; rewrite Hx; by rewrite bool_decide_eq_false_2).
        by rewrite <- app_assoc.
Qed.

(** [serializeSnippets] from the write of the removal diff on. *)
Lemma serializeSnippets_tail files editor removed w :
  liveSnippets w = files →
  (∀ f, f ∈ editor → is_Some (files !! f)) →
  (∀ f, f ∈ editor → nested f = false) →
  (let (o, w') := ((if bool_decide (0 < length removed)%nat then saveSnippetsDiff removed
                    else ret tt) ;;; ret editor) w in
   match o with
   | Ok a =>
       (if bool_decide (0 < length a)%nat then
          writeFile (getProfileSnippetsPath (_profile w)) ∅ ;;;
          forEach a (fun file =>
            data <- readEditorSnippet file ;;
            if nested file then throw NoSuchFile else
            files <- gets (fun w0 => default ∅ (data_snippets (directory (_profile w) w0))) ;;
            writeFile (getProfileSnippetsPath (_profile w)) (<[file := data]> files))
        else remove (getProfileSnippetsPath (_profile w))) w'
   | Throw e => (Throw e, w')
   | Diverge => (Diverge, w')
   end)
  = (Ok tt, storeIn (_profile w) (fun d =>
       set_data_snippets
         (if bool_decide (editor = []) then None
          else Some (foldl (fun m name => match files !! name with
                                          | Some data => <[name := data]> m
                                          | None => m
                                          end) ∅ editor))
         (if bool_decide (removed = []) then d
          else set_data_snippets_diff_yml (Some {[ "removed" := removed ]}) d)) w).
Proof.
  intros Hlive Heditor Hflat. destruct removed as [|r removed].
  - rewrite (bool_decide_eq_false_2 (0 < _)%nat) by (cbn; lia).
    rewrite (bool_decide_eq_true_2 ([] = [])) by done.
    unfold bind at 1. unfold ret at 1. unfold ret at 1.
    by rewrite (store_run (_profile w) files).
  - rewrite (bool_decide_eq_true_2 (0 < _)%nat) by (cbn; lia).
    rewrite (bool_decide_eq_false_2 (r :: removed = [])) by done.
    unfold bind at 1. unfold saveSnippetsDiff. unfold bind at 1. unfold gets at 1.
    unfold writeFile at 1. rewrite update_run. cbn [path_profile path_set getDiffSnippetsPath].
    fold (storeIn (_profile w)
            (set_data_snippets_diff_yml (Some ({[ "removed" := r :: removed ]} : SnippetsDiffDoc))) w).
    unfold ret at 1.
    rewrite (store_run (_profile w) files); [|done|done|done].
    by rewrite storeIn_storeIn.
Qed.

Lemma serializeSnippets_tail_throws files editor removed w :
  liveSnippets w = files →
  (∀ f, f ∈ editor → is_Some (files !! f)) →
  (∃ f, f ∈ editor ∧ nested f = true) →
  (let (o, w') := ((if bool_decide (0 < length removed)%nat then saveSnippetsDiff removed
                    else ret tt) ;;; ret editor) w in
   match o with
   | Ok a =>
       (if bool_decide (0 < length a)%nat then
          writeFile (getProfileSnippetsPath (_profile w)) ∅ ;;;
          forEach a (fun file =>
            data <- readEditorSnippet file ;;
            if nested file then throw NoSuchFile else
            files <- gets (fun w0 => default ∅ (data_snippets (directory (_profile w) w0))) ;;
            writeFile (getProfileSnippetsPath (_profile w)) (<[file := data]> files))
        else remove (getProfileSnippetsPath (_profile w))) w'
   | Throw e => (Throw e, w')
   | Diverge => (Diverge, w')
   end).1
  = Throw NoSuchFile.
Proof.
  intros Hlive Heditor Hbad.
  destruct (bool_decide (0 < length removed)%nat).
  - unfold bind at 1. unfold saveSnippetsDiff. unfold bind at 1. unfold gets at 1.
    unfold writeFile at 1. rewrite update_run. unfold ret at 1.
    by apply (store_throws (_profile w) files).
  - unfold bind at 1. unfold ret at 1. unfold ret at 1.
    by apply (store_throws (_profile w) files).
Qed.

Lemma storedSnippets_lookup (inherited files : gmap string string) names key :
  (∀ f, f ∈ names ↔ is_Some (files !! f) ∧ unchangedSnippet inherited files f = false) →
  foldl (fun (m : gmap string string) name => match files !! name with
                       | Some data => <[name := data]> m
                       | None => m
                       end) ∅ names !! key
  = storedSnippets inherited files !! key.
Proof.
  intros Hnames. rewrite (lookup_foldl_names (fun name => files !! name)), lookup_empty.
  apply option_eq. intros data. unfold storedSnippets. rewrite map_lookup_filter_Some. cbn [fst].
  case_bool_decide as Hin.
  - apply Hnames in Hin as [_ Hun]. destruct (files !! key); (split; [done|by intros [? _]]).
  - split; [done|]. intros [Hkey Hun]. destruct Hin. apply Hnames. by split; [exists data|].
Qed.

Lemma storedSnippets_Some inherited files name :
  is_Some (storedSnippets inherited files !! name)
  ↔ is_Some (files !! name) ∧ unchangedSnippet inherited files name = false.
Proof.
  unfold storedSnippets. split.
  - intros [data [Hdata Hun]%map_lookup_filter_Some]. by split; [exists data|].
  - intros [[data Hdata] Hun]. exists data. by apply map_lookup_filter_Some.
Qed.

(** [serializeSnippets] of an inheriting profile up to the write of the
    removal diff: the files that are left to copy and the names to list. *)
Lemma serializeSnippets_compare fuel w settings parent inherited :
  extendsOf settings = Some parent →
  (listProfileSnippetHashes fuel parent w).1 = Ok inherited →
  ∃ editor,
    (∀ f, f ∈ editor ↔ is_Some (storedSnippets inherited (liveSnippets w) !! f))
    ∧ serializeSnippets fuel settings w
      = (let (o, w') := ((if bool_decide (0 < length (removedSnippets inherited (liveSnippets w)))%nat
                          then saveSnippetsDiff (removedSnippets inherited (liveSnippets w))
                          else ret tt) ;;; ret editor) w in
         match o with
         | Ok a =>
             (if bool_decide (0 < length a)%nat then
                writeFile (getProfileSnippetsPath (_profile w)) ∅ ;;;
                forEach a (fun file =>
                  data <- readEditorSnippet file ;;
                  if nested file then throw NoSuchFile else
                  files <- gets (fun w0 => default ∅ (data_snippets (directory (_profile w) w0))) ;;
                  writeFile (getProfileSnippetsPath (_profile w)) (<[file := data]> files))
              else remove (getProfileSnippetsPath (_profile w))) w'
         | Throw e => (Throw e, w')
         | Diverge => (Diverge, w')
         end).
Proof.
  intros Hext Hhashes. unfold serializeSnippets. unfold bind at 1. rewrite listEditorSnippets_run.
  unfold bind at 1. unfold gets at 1. rewrite Hext.
  unfold bind at 1. rewrite bind_ReadOnly by apply ReadOnly_listProfileSnippetHashes.
  rewrite Hhashes.
  set (files := liveSnippets w).
  assert (Hkeys : ∀ f, f ∈ (map_to_list files).*1 → is_Some (files !! f)).
  { intros f. by rewrite elem_of_keys. }
  unfold removedSnippets. destruct (decide (files = ∅)) as [Hempty|Hfiles].
  - rewrite (bool_decide_eq_true_2 (files = ∅)) by done.
    assert (Hnil : (map_to_list files).*1 = []) by (by apply keys_nil).
    rewrite Hnil. rewrite (bool_decide_eq_false_2 (0 < length [])%nat) by (cbn; lia).
    exists []. split.
    + intros f. rewrite storedSnippets_Some, Hempty, lookup_empty.
      split; [intros Hin; inversion Hin|by intros [[? ?] _]].
    + unfold bind at 1. unfold ret at 1. reflexivity.
  - rewrite (bool_decide_eq_false_2 (files = ∅)) by done.
    assert (Hsome : (0 < length (map_to_list files).*1)%nat).
    { destruct ((map_to_list files).*1) eqn:Hk; [|cbn; lia]. by apply keys_nil in Hk. }
    rewrite (bool_decide_eq_true_2 (0 < _)%nat) by done.
    destruct (foldM_compare inherited files (map_to_list files).*1 Hkeys w
                (map_to_list files).*1 [] eq_refl (NoDup_fst_map_to_list files))
      as (editor' & Hrun & Hnd & Hmem).
    exists editor'. split.
    + intros f. rewrite Hmem, storedSnippets_Some. pose proof (elem_of_keys files f) as Hk. split.
      * intros [Hf Hnot]. split; [by apply Hk|].
        destruct (unchangedSnippet inherited files f); [|done]. by destruct Hnot.
      * intros [Hf Hun]. split; [by apply Hk|]. intros [_ Hyes]. congruence.
    + unfold bind at 1. rewrite Hrun. reflexivity.
Qed.

Lemma serializeSnippets_inheriting fuel w settings parent inherited :
  extendsOf settings = Some parent →
  (listProfileSnippetHashes fuel parent w).1 = Ok inherited →
  (∀ name, is_Some (storedSnippets inherited (liveSnippets w) !! name) → nested name = false) →
  serializeSnippets fuel settings w
  = (Ok tt, storeIn (_profile w) (fun d =>
       set_data_snippets
         (if bool_decide (storedSnippets inherited (liveSnippets w) = ∅) then None
          else Some (storedSnippets inherited (liveSnippets w)))
         (if bool_decide (removedSnippets inherited (liveSnippets w) = []) then d
          else set_data_snippets_diff_yml
                 (Some {[ "removed" := removedSnippets inherited (liveSnippets w) ]}) d)) w).
Proof.
  intros Hext Hhashes Hflat.
  destruct (serializeSnippets_compare fuel w settings parent inherited Hext Hhashes)
    as (editor & Hmem & ->).
  set (files := liveSnippets w) in *.
  assert (Heditor : ∀ f, f ∈ editor → is_Some (files !! f)).
  { intros f Hin. apply Hmem, storedSnippets_Some in Hin. by destruct Hin. }
  rewrite (serializeSnippets_tail files editor _ w eq_refl Heditor)
    by (intros f Hin; by apply Hflat, Hmem).
  assert (Hmap : foldl (fun m name => match files !! name with
                                      | Some data => <[name := data]> m
                                      | None => m
                                      end) ∅ editor = storedSnippets inherited files).
  { apply map_eq. intros key. apply storedSnippets_lookup.
    intros f. by rewrite Hmem, storedSnippets_Some. }
  rewrite Hmap. destruct editor as [|f editor].
  - cbn [foldl] in Hmap. rewrite <- Hmap.
    rewrite (bool_decide_eq_true_2 ([] = [])) by done.
    by rewrite (bool_decide_eq_true_2 (∅ = ∅)) by done.
  - rewrite (bool_decide_eq_false_2 (f :: editor = [])) by done.
    rewrite (bool_decide_eq_false_2 (storedSnippets inherited files = ∅)); [done|].
    intros Hempty. destruct (proj1 (Hmem f)) as [data Hdata]; [left|].
    by rewrite Hempty, lookup_empty in Hdata.
Qed.

(** X23.  [serializeSnippets] for a profile that extends nothing.  When no
    live snippet has a directory part in its name, the call makes the
    profile's snippets directory a copy of the editor's: it holds the live
    files with their content, and is removed when the editor has none;
    nothing else of the repository and nothing of the editor changes.
    When a live snippet lies below a sub-directory, the copy into the
    emptied directory fails and the call throws. *)
Theorem serialize_snippets_root fuel w settings :
  extendsOf settings = None →
  ((∀ name, is_Some (liveSnippets w !! name) → nested name = false) →
   serializeSnippets fuel settings w
   = (Ok tt, storeIn (_profile w)
               (set_data_snippets (if bool_decide (liveSnippets w = ∅) then None
                                   else Some (liveSnippets w))) w))
  ∧ ((∃ name, is_Some (liveSnippets w !! name) ∧ nested name = true) →
     (serializeSnippets fuel settings w).1 = Throw NoSuchFile).
Proof.
  intros Hroot. split; [by apply serializeSnippets_root|].
  intros (name & Hname & Hnested).
  unfold serializeSnippets. unfold bind at 1. rewrite listEditorSnippets_run.
  unfold bind at 1. unfold gets at 1. rewrite Hroot. unfold bind at 1. unfold ret at 1.
  apply (store_throws (_profile w) (liveSnippets w)); [done| |].
  - intros f. by rewrite elem_of_keys.
  - exists name. by rewrite elem_of_keys.
Qed.

(** X24.  [serializeSnippets] for an inheriting profile.  When the hash
    index [inherited] of the ancestors is computed and no file to store
    has a directory part in its name, the call returns normally: the
    profile's snippets directory holds the live files except those whose
    hash is the one the ancestors have for the name (it is removed when no
    file is left), and the removal diff is rewritten, when the list is not
    empty, to list under [removed], in whatever order, the live files that
    the index does not answer to, which leaves out the names every object
    answers to; when the editor has no snippet the list is instead every
    name of the ancestors.  Nothing else of the repository and nothing of
    the editor changes.  When a file to store lies below a sub-directory,
    the call throws; and when computing the hash index throws, so does
    the call, before it writes anything. *)
Theorem serialize_snippets_inheriting fuel w settings parent :
  extendsOf settings = Some parent →
  (∀ inherited,
     (listProfileSnippetHashes fuel parent w).1 = Ok inherited →
     let stored := storedSnippets inherited (liveSnippets w) in
     ((∀ name, is_Some (stored !! name) → nested name = false) →
      ∃ removed,
        removed ≡ₚ removedSnippets inherited (liveSnippets w)
        ∧ serializeSnippets fuel settings w
          = (Ok tt, storeIn (_profile w) (fun d =>
               set_data_snippets (if bool_decide (stored = ∅) then None else Some stored)
                 (if bool_decide (removed = []) then d
                  else set_data_snippets_diff_yml (Some {[ "removed" := removed ]}) d)) w))
     ∧ ((∃ name, is_Some (stored !! name) ∧ nested name = true) →
        (serializeSnippets fuel settings w).1 = Throw NoSuchFile))
  ∧ (∀ e, (listProfileSnippetHashes fuel parent w).1 = Throw e →
          serializeSnippets fuel settings w = (Throw e, w)).
Proof.
  intros Hext. split.
  - intros inherited Hhashes stored. split.
    + intros Hflat. exists (removedSnippets inherited (liveSnippets w)). split; [done|].
      by apply (serializeSnippets_inheriting fuel w settings parent).
    + intros (name & Hname & Hnested).
      destruct (serializeSnippets_compare fuel w settings parent inherited Hext Hhashes)
        as (editor & Hmem & ->).
      apply (serializeSnippets_tail_throws (liveSnippets w)); [done| |].
      * intros f Hin. apply Hmem, storedSnippets_Some in Hin. by destruct Hin.
      * exists name. split; [by apply Hmem|done].
  - intros e Hthrow. unfold serializeSnippets. unfold bind at 1. rewrite listEditorSnippets_run.
    unfold bind at 1. unfold gets at 1. rewrite Hext.
    unfold bind at 1. rewrite bind_ReadOnly by apply ReadOnly_listProfileSnippetHashes.
    by rewrite Hthrow.
Qed.

(** ** Round trips of the snippets *)

Lemma own_overlay_lookup w profile (start : gmap string (string * string)) name :
  foldl (fun m file => <[file := (profile, file)]> m) start
    match data_snippets (directory profile w) with
    | Some files => (map_to_list files).*1
    | None => []
    end !! name
  = if bool_decide (is_Some (ownSnippets w profile !! name)) then Some (profile, name)
    else start !! name.
Proof.
  rewrite (lookup_foldl_insert_keys (fun file => (profile, file))).
  apply (f_equal (fun b : bool => if b then _ else _)). apply bool_decide_ext. unfold ownSnippets.
  destruct (data_snippets (directory profile w)) as [files|]; cbn [default].
  - apply elem_of_keys.
  - rewrite lookup_empty. split; [intros Hin; inversion Hin|by intros [? ?]].
Qed.

Lemma directory_storeIn_same this f w : directory this (storeIn this f w) = f (directory this w).
Proof. unfold storeIn. apply directory_set_profiles_same. Qed.

Lemma directory_storeIn_other this q f w :
  q ≠ this → directory q (storeIn this f w) = directory q w.
Proof. intros Hne. unfold storeIn. by apply directory_set_profiles_other. Qed.

Lemma listProfileSnippetPaths_chain_frame w w' profile chain :
  Chain w profile chain →
  (∀ q, q ∈ chain → directory q w' = directory q w) →
  ∀ fuel, (listProfileSnippetPaths fuel profile w').1 = (listProfileSnippetPaths fuel profile w).1.
Proof.
  induction 1 as [profile Hroot|profile parent rest Hext Hchain IH]; intros Hsame fuel;
    (destruct fuel as [|n]; [done|]); rewrite !listProfileSnippetPaths_step; cbv zeta; cbn [fst];
    assert (Hp : directory profile w' = directory profile w) by (apply Hsame; left);
    rewrite (settingsOf_frame w w') by done; unfold removedNames; rewrite Hp.
  - by rewrite Hroot.
  - rewrite Hext. rewrite IH; [done|]. intros q Hq. apply Hsame. by right.
Qed.

Lemma listProfileSnippetPaths_holders w profile chain :
  Chain w profile chain →
  ∀ fuel index name holder file,
    (listProfileSnippetPaths fuel profile w).1 = Ok index →
    index !! name = Some (holder, file) → holder ∈ chain.
Proof.
  induction 1 as [profile Hroot|profile parent rest Hext Hchain IH];
    intros fuel index name holder file; (destruct fuel as [|n]; [done|]);
    rewrite listProfileSnippetPaths_step; cbv zeta; cbn [fst].
  - rewrite Hroot. intros [= <-]. rewrite own_overlay_lookup, lookup_empty.
    case_bool_decide; [|done]. intros [= <- _]. left.
  - rewrite Hext.
    destruct (listProfileSnippetPaths n parent w).1 as [inherited| |] eqn:Hparent; [|done|done].
    destruct (removedNames w profile) as [names|]; [|done].
    intros [= <-]. rewrite own_overlay_lookup.
    case_bool_decide; [intros [= <- _]; left|].
    rewrite lookup_foldl_delete. case_bool_decide; [done|]. intros Hname. right.
    by apply (IH n inherited name holder file).
Qed.



(** ** The hash index of snippets *)

Lemma deleteNames_lookup (names : list string) : ∀ (m : gmap string string) name,
  deleteNames nonEmptyString names m !! name
  = if bool_decide (name ∈ names) && knownSnippet m name then None else m !! name.
Proof.
  unfold deleteNames.
  induction names as [|x rest IH]; intros m name; cbn [foldl].
  - by rewrite bool_decide_eq_false_2 by (intros Hin; inversion Hin).
  - rewrite IH. clear IH. unfold knownSnippet. destruct (decide (name = x)) as [->|Hne].
    + rewrite (bool_decide_eq_true_2 (x ∈ x :: rest)) by left. cbn [andb].
      destruct (m !! x) as [hash|] eqn:Hx.
      * destruct (nonEmptyString hash) eqn:Hhash.
        -- rewrite lookup_delete_eq. by rewrite andb_false_r.
        -- rewrite Hx, Hhash. by rewrite andb_false_r.
      * rewrite Hx. by rewrite andb_false_r.
    + assert (Hm : match m !! x with
                   | Some v => if nonEmptyString v then delete x m else m
                   | None => m
                   end !! name = m !! name).
      { destruct (m !! x) as [v|]; [|done]. destruct (nonEmptyString v); [|done].
        by rewrite lookup_delete_ne. }
      rewrite Hm. apply (f_equal (fun b : bool => if b && _ then _ else _)).
      apply bool_decide_ext. rewrite elem_of_cons. split; [by right|by intros [?|?]].
Qed.

Lemma hashAll_run profile w :
  ∀ files snippets,
    (∀ file, file ∈ files → is_Some (ownSnippets w profile !! file)) →
    (fix hashAll (files : list string) (snippets : gmap string string) {struct files}
       : M (gmap string string) :=
       match files with
       | [] => ret snippets
       | file :: rest =>
           data <- readFileIn (getProfileSnippetsPath profile) file ;;
           hashAll rest (<[file := sha1 data]> snippets)
       end) files snippets w
    = (Ok (foldl (fun m file => match ownSnippets w profile !! file with
                                | Some data => <[file := sha1 data]> m
                                | None => m
                                end) snippets files), w).
Proof.
  induction files as [|file rest IH]; intros snippets Hfiles; [done|].
  destruct (Hfiles file) as [data Hdata]; [left|]. cbn [foldl]. rewrite Hdata.
  assert (Hread : readFileIn (getProfileSnippetsPath profile) file w = (Ok data, w)).
  { unfold readFileIn, bind, gets. cbn [path_get path_profile getProfileSnippetsPath].
    unfold ownSnippets in Hdata.
    destruct (data_snippets (directory profile w)) as [own|]; cbn [default mbind option_bind] in *.
    - unfold Datatypes.id in Hdata. by rewrite Hdata.
    - by rewrite lookup_empty in Hdata. }
  unfold bind at 1. rewrite Hread. apply IH. intros f Hin. apply Hfiles. by right.
Qed.

Lemma listProfileSnippetHashes_step n profile w :
  listProfileSnippetHashes (S n) profile w
  = (let overlay start :=
       foldl (fun m file => match ownSnippets w profile !! file with
                            | Some data => <[file := sha1 data]> m
                            | None => m
                            end) start (map_to_list (ownSnippets w profile)).*1 in
     match extendsOf (settingsOf w profile) with
     | None => Ok (overlay ∅)
     | Some parent =>
         match (listProfileSnippetHashes n parent w).1 with
         | Ok inherited =>
             match hashRemovals w profile with
             | Some names => Ok (overlay (deleteNames nonEmptyString names inherited))
             | None => Throw TypeError
             end
         | Throw e => Throw e
         | Diverge => Diverge
         end
     end, w).
Proof.
  assert (Hglobby : globby (getProfileSnippetsPath profile) w
                    = (Ok (map_to_list (ownSnippets w profile)).*1, w)).
  { rewrite globby_run. unfold ownSnippets. cbn [path_get path_profile getProfileSnippetsPath].
    destruct (data_snippets (directory profile w)); cbn [default]; [done|].
    by rewrite map_to_list_empty. }
  assert (Hfiles : ∀ file, file ∈ (map_to_list (ownSnippets w profile)).*1 →
                           is_Some (ownSnippets w profile !! file)).
  { intros file. by rewrite elem_of_keys. }
  cbn [listProfileSnippetHashes]. unfold bind at 1. rewrite loadProfileSettings_run.
  unfold hashRemovals.
  destruct (extendsOf (settingsOf w profile)) as [parent|]; cbv zeta.
  - unfold bind at 1.
    rewrite bind_ReadOnly by apply ReadOnly_listProfileSnippetHashes.
    destruct (listProfileSnippetHashes n parent w).1 as [inherited| |]; [|done|done].
    rewrite bind_exists. cbn [path_get path_profile getDiffSnippetsPath].
    destruct (data_snippets_diff_yml (directory profile w)) as [diff|] eqn:Hdiff.
    + rewrite exists_Some. cbv iota. unfold bind at 1. unfold bind at 1. rewrite readFile_run.
      cbn [path_get path_profile getDiffSnippetsPath]. rewrite Hdiff.
      destruct (diff !! "remove") as [names|]; [|done].
      unfold iterable. unfold bind at 1 2 3. unfold ret at 1 2 3. rewrite Hglobby.
      by apply hashAll_run.
    + rewrite exists_None. cbv iota. unfold bind at 1 2. unfold ret at 1 2. rewrite Hglobby.
      by apply hashAll_run.
  - unfold bind at 1 2. unfold ret at 1. rewrite Hglobby. by apply hashAll_run.
Qed.


(** ** The sync-policy document of a profile that extends nothing *)

(** X28.  [saveProfileSyncSettings] for a profile that extends nothing,
    followed by [loadProfileSyncSettings]: when the user has set at least
    one policy field explicitly, the document loaded back holds exactly
    the explicitly set policy fields; when none is set explicitly, neither
    the current nor the legacy document is left, and loading the policy
    of the profile throws. *)
Theorem sync_settings_root_save_load fuel n w :
  extendsOf (settingsOf w (_profile w)) = None →
  let config := configuration (live w) in
  let explicit := ∃ property, property ∈ policyProperties
                              ∧ is_Some (globalValue config !! property) in
  let w' := (saveProfileSyncSettings fuel w).2 in
  (saveProfileSyncSettings fuel w).1 = Ok tt
  ∧ (explicit →
     ∃ doc, loadProfileSyncSettings (S n) (_profile w) w' = (Ok (Fields doc), w')
            ∧ ∀ property, doc !! property
                          = if bool_decide (property ∈ policyProperties)
                            then globalValue config !! property else None)
  ∧ (¬ explicit →
     loadProfileSyncSettings (S n) (_profile w) w' = (Throw SyncSettingsNotFound, w')).
Proof.
  intros Hroot config explicit.
  assert (Hrun : saveProfileSyncSettings fuel w
                 = (let state := collectPolicy config None in
                    let w1 := (remove (getProfileSyncSettingsOldPath (_profile w)) w).2 in
                    if bool_decide (0 < state.2)%nat
                    then writeFile (getProfileSyncSettingsPath (_profile w)) (Fields state.1) w1
                    else remove (getProfileSyncSettingsPath (_profile w)) w1)).
  { unfold saveProfileSyncSettings.
    rewrite bind_ReadOnly by apply ReadOnly_gets. cbn [gets fst].
    rewrite bind_ReadOnly by apply ReadOnly_gets. cbn [gets fst].
    unfold bind at 1. rewrite loadProfileSettings_run. rewrite Hroot.
    unfold bind at 1. unfold ret at 1. fold config.
    destruct (collectPolicy config None) as [settings length]. cbn [fst snd].
    by case_bool_decide. }
  pose proof (policy_fold_explicit config policyProperties (∅, 0%nat)) as Hlen.
  pose proof (policy_fold_settings config None policyProperties (∅, 0%nat)) as Hset.
  fold (collectPolicy config None) in Hlen, Hset.
  assert (Hexplicit : (0 < (collectPolicy config None).2)%nat ↔ explicit).
  { rewrite Hlen. cbn [snd]. split; [intros [?|?]; [lia|done]|by right]. }
  intros w'. subst w'. rewrite Hrun. cbn zeta. unfold remove, writeFile.
  rewrite !update_run. cbn [snd].
  case_bool_decide as Hpos; cbn [fst snd path_profile path_set
    getProfileSyncSettingsPath getProfileSyncSettingsOldPath];
    rewrite !directory_set_profiles_same.
  - split; [done|]. split; [|intros Hn; by apply Hexplicit in Hpos].
    intros _. rewrite loadProfileSyncSettings_step. unfold syncDocument.
    rewrite directory_set_profiles_same. cbn [sync_yml set_sync_yml].
    eexists. split; [reflexivity|]. intros property.
    rewrite Hset. cbn [fst]. rewrite lookup_empty. by repeat case_match.
  - split; [done|]. split; [intros Hd; by apply Hexplicit in Hd|].
    intros _. rewrite loadProfileSyncSettings_step. unfold syncDocument, settingsOf.
    rewrite directory_set_profiles_same. cbn [sync_yml config_yml profile_yml set_sync_yml set_config_yml].
    fold (settingsOf w (_profile w)). by rewrite Hroot.
Qed.

(** ** Restoring the UI state *)

Lemma foldl_fmap_rows {A B C} (f : B → C) (step : A → C → A) (l : list B) (a : A) :
  foldl step a (f <$> l) = foldl (fun a x => step a (f x)) a l.
Proof. revert a. induction l as [|x l IH]; intros a; cbn; [done|]. apply IH. Qed.

Lemma getSubstitution_literal matched before after template :
  includes "$" template = false →
  getSubstitution matched before after template = template.
Proof.
  induction template as [|c tail IH]; [done|].
  cbn [includes String.prefix]. intros Hfree.
  apply orb_false_iff in Hfree as [Hhead Htail].
  cbn [getSubstitution].
  destruct (Ascii.eqb c dollar) eqn:Hc.
  - apply Ascii.eqb_eq in Hc. subst c. by destruct tail.
  - by rewrite IH.
Qed.

Lemma replaceTemplateFrom_literal pat template :
  includes "$" template = false →
  ∀ s skip before,
    replaceTemplateFrom pat template skip before s = replaceAllFrom pat template skip s.
Proof.
  intros Hfree. induction s as [|c rest IH]; intros skip before; [done|].
  cbn [replaceTemplateFrom replaceAllFrom]. cbv zeta. destruct skip as [|k]; [|apply IH].
  destruct (String.prefix pat (String c rest)).
  - by rewrite getSubstitution_literal, IH.
  - by rewrite IH.
Qed.

Lemma interleaveTemplate_literal template :
  includes "$" template = false →
  ∀ s before, interleaveTemplate template before s = interleave template s.
Proof.
  intros Hfree. induction s as [|c rest IH]; intros before; cbn [interleaveTemplate interleave].
  - by apply getSubstitution_literal.
  - by rewrite getSubstitution_literal, IH.
Qed.

Lemma replaceAllTemplate_literal pat template s :
  includes "$" template = false →
  replaceAllTemplate pat template s = replaceAll pat template s.
Proof.
  intros Hfree. unfold replaceAllTemplate, replaceAll. case_bool_decide.
  - by apply interleaveTemplate_literal.
  - by apply replaceTemplateFrom_literal.
Qed.

(** X29.  [restoreUIState]: with an empty effective state it does
    nothing; otherwise all it does is one write to the state database,
    of one row for every key of the effective state and of no other row,
    the value of a row being the stored value with, in a string, every
    placeholder replaced by what the extension data path stands for as a
    replacement text: the path itself when it holds no dollar sign. *)
Theorem restore_ui_state_overlay fuel w profile :
  (listProfileUIStateProperties fuel (_profile w) w).1 = Ok profile →
  (profile = ∅ → restoreUIState fuel w = (Ok tt, w))
  ∧ (profile ≠ ∅ →
     ∃ rows,
       restoreUIState fuel w = writeStateDB rows w
       ∧ NoDup rows.*1
       ∧ ∀ key value, (key, value) ∈ rows
                      ↔ ∃ stored, profile !! key = Some stored ∧ value = substituted stored)
  ∧ (includes "$" extensionDataUri = false →
     ∀ text, substituted (JStr text)
             = JStr (replaceAll EXTENSION_DATA_PATH extensionDataUri text)).
Proof.
  intros Hprofile.
  assert (Hrun : restoreUIState fuel w
                 = (let rows := (fun entry : string * jsval => (entry.1, substituted entry.2))
                                <$> map_to_list profile in
                    if bool_decide (0 < length rows)%nat then writeStateDB rows w else (Ok tt, w))).
  { unfold restoreUIState. rewrite bind_ReadOnly by apply ReadOnly_gets. cbn [gets fst].
    rewrite bind_ReadOnly by apply ReadOnly_listProfileUIStateProperties. rewrite Hprofile.
    cbv zeta.
    assert (Hrows : ((fun entry : string * jsval =>
                        match entry.2 with
                        | JStr value =>
                            (entry.1,
                             JStr (replaceAllTemplate EXTENSION_DATA_PATH extensionDataUri value))
                        | _ => entry
                        end) <$> map_to_list profile)
                    = ((fun entry : string * jsval => (entry.1, substituted entry.2))
                       <$> map_to_list profile)).
    { apply list_fmap_ext. intros _ [key value] _. by destruct value. }
    rewrite Hrows. by case_bool_decide. }
  rewrite Hrun. cbv zeta. rewrite length_fmap. split_and!.
  - intros ->. by rewrite map_to_list_empty.
  - intros Hne.
    assert (Hpos : (0 < length (map_to_list profile))%nat).
    { destruct (map_to_list profile) eqn:Hl; [|cbn; lia]. by apply map_to_list_empty_iff in Hl. }
    rewrite bool_decide_eq_true_2 by done.
    eexists. split; [reflexivity|]. split.
    + rewrite <- list_fmap_compose.
      rewrite (list_fmap_ext _ fst (map_to_list profile)) by (by intros _ [? ?] _).
      apply NoDup_fst_map_to_list.
    + intros key value. rewrite list_elem_of_fmap. split.
      * intros ([k stored] & [= -> ->] & Hin%elem_of_map_to_list). by exists stored.
      * intros (stored & Hstored & ->). exists (key, stored).
        split; [done|]. by apply elem_of_map_to_list.
  - intros Hfree text. unfold substituted. by rewrite replaceAllTemplate_literal.
Qed.

(** ** A profile created by [extendProfileTo] *)

(** X30.  A profile created by [extendProfileTo] inherits everything:
    when the repository is initialized, the new profile does not exist
    yet and is not an ancestor of the original, whose name is not empty,
    the call writes the new profile's settings and nothing else, the
    chain of the new profile is itself followed by the chain of the
    original, and its effective extension list and UI state are those of
    the original. *)
Theorem extended_profile_inherits n w original new chain :
  _initialized w = true →
  profiles w !! new = None →
  original ≠ "" →
  Chain w original chain → new ∉ chain → (length chain ≤ n)%nat →
  let w' := (extendProfileTo original new w).2 in
  (extendProfileTo original new w).1 = Ok tt
  ∧ directory new w' = inheriting original
  ∧ (∀ q, q ≠ new → directory q w' = directory q w)
  ∧ live w' = live w
  ∧ Chain w' new (new :: chain)
  ∧ listProfileExtensions (S n) new w' = (Ok (replayChain w chain), w')
  ∧ listProfileUIStateProperties (S n) new w' = (Ok (replayUIState w chain), w').
Proof.
  intros Hinit Hnew Horiginal Hchain Hfresh Hn.
  assert (Hrun : extendProfileTo original new w
                 = (Ok tt, set_profiles (<[new := inheriting original]> (profiles w)) w)).
  { unfold extendProfileTo, checkInitialized.
    unfold bind at 1. rewrite bind_ReadOnly by apply ReadOnly_gets. cbn [gets fst].
    rewrite Hinit. unfold ret at 1. unfold writeFile. rewrite update_run.
    cbn [path_profile path_set getProfileSettingsPath]. unfold directory. by rewrite Hnew. }
  rewrite Hrun. cbn [fst snd].
  set (w' := set_profiles (<[new := inheriting original]> (profiles w)) w).
  assert (Hdir : directory new w' = inheriting original) by apply directory_set_profiles_same.
  assert (Hother : ∀ q, q ≠ new → directory q w' = directory q w).
  { intros q Hq. by apply directory_set_profiles_other. }
  assert (Hsame : ∀ q, q ∈ chain → directory q w' = directory q w).
  { intros q Hq. apply Hother. by intros ->. }
  assert (Hext : extendsOf (settingsOf w' new) = Some original).
  { unfold settingsOf. rewrite Hdir. unfold extendsOf. cbn.
    by rewrite bool_decide_eq_false_2. }
  assert (Hchain' : Chain w' original chain) by (by apply (Chain_frame w w')).
  split; [done|]. split; [done|]. split; [done|]. split; [done|].
  split; [by apply chain_step with (parent := original)|]. split.
  - rewrite listProfileExtensions_step, Hext.
    rewrite (listProfileExtensions_chain n w' original chain Hchain' Hn). cbn [fst].
    unfold extensionsDocument. rewrite Hdir. cbn.
    by rewrite (replayChain_frame w w' chain Hsame).
  - rewrite listProfileUIStateProperties_step, Hext.
    rewrite (listProfileUIStateProperties_chain n w' original chain Hchain' Hn). cbn [fst].
    rewrite Hdir. cbn. by rewrite (replayUIState_frame w w' chain Hsame).
Qed.

End Properties.

(** ** The properties at the examples *)

(** [sync_settings_error_iff_chain_without_document] at the chain from
    [work] to [base], where only [base] has a document. *)
Lemma sync_settings_error_iff_chain_without_document_witness :
  Chain rootWithPolicy "work" ["work"; "base"] ∧ (length ["work"; "base"] ≤ 2)%nat
  ∧ ((loadProfileSyncSettings 2 "work" rootWithPolicy).1 = Throw SyncSettingsNotFound
     ↔ ∀ p, p ∈ ["work"; "base"] → syncDocument rootWithPolicy p = None)
  ∧ (∀ before p after doc,
       ["work"; "base"] = before ++ p :: after →
       (∀ q, q ∈ before → syncDocument rootWithPolicy q = None) →
       syncDocument rootWithPolicy p = Some doc →
       loadProfileSyncSettings 2 "work" rootWithPolicy = (Ok doc, rootWithPolicy)).
Proof.
  assert (H1 : Chain rootWithPolicy "work" ["work"; "base"]).
  { apply chain_step with (parent := "base"); [vm_compute; reflexivity|].
    apply chain_root. vm_compute. reflexivity. }
  assert (H2 : (length ["work"; "base"] ≤ 2)%nat) by (simpl; lia).
  split; [exact H1|]. split; [exact H2|].
  exact (sync_settings_error_iff_chain_without_document 2 rootWithPolicy "work" _ H1 H2).
Defined.

(** [restart_check_before_mutation] at [restartWorld]: the check asks for
    a restart, the user declines, and only the prompt has happened. *)
Lemma restart_check_before_mutation_witness :
  _initialized restartWorld = true
  ∧ (loadProfileSyncSettings 5 (_profile restartWorld) restartWorld).1 = Ok (Fields ∅)
  ∧ (getAncestorProfile 5 (_profile restartWorld) restartWorld).1 = Ok "base"
  ∧ default (PStrings allResources) ((∅ : gmap string PolicyValue) !! "resources")
    = PStrings allResources
  ∧ (shouldRestartApp (host := exampleHost) 5 allResources restartWorld).1 = Ok true
  ∧ answersYes (live restartWorld) = false
  ∧ restoreProfile (host := exampleHost) 5 restartWorld = (Ok tt, record OpPrompt restartWorld).
Proof.
  assert (H1 : _initialized restartWorld = true) by reflexivity.
  assert (H2 : (loadProfileSyncSettings 5 (_profile restartWorld) restartWorld).1
               = Ok (Fields ∅)) by (vm_compute; reflexivity).
  assert (H3 : (getAncestorProfile 5 (_profile restartWorld) restartWorld).1 = Ok "base")
    by (vm_compute; reflexivity).
  assert (H4 : default (PStrings allResources) ((∅ : gmap string PolicyValue) !! "resources")
               = PStrings allResources) by reflexivity.
  assert (H5 : (shouldRestartApp (host := exampleHost) 5 allResources restartWorld).1 = Ok true)
    by (vm_compute; reflexivity).
  assert (H6 : answersYes (live restartWorld) = false) by reflexivity.
  split; [exact H1|]. split; [exact H2|]. split; [exact H3|]. split; [exact H4|].
  split; [exact H5|]. split; [exact H6|].
  exact (proj1 (proj2 (restart_check_before_mutation (host := exampleHost) 5 restartWorld))
           ∅ "base" allResources H1 H2 H3 H4 H5 H6).
Defined.



(** C7, as stated, fails.  The user's ignore list equals the one of
    [base], only [keybindingsPerPlatform] differs; the override document
    written for [work] holds the ignore list all the same. *)
Lemma sync_settings_writes_equal_field :
  extendsOf (settingsOf policyWorld "work") = Some "base"
  ∧ (loadProfileSyncSettings 5 "base" policyWorld).1
    = Ok (Fields {[ "ignoredSettings" := PStrings ["editor.fontSize"];
                    "keybindingsPerPlatform" := PBool true ]})
  ∧ globalValue (configuration (live policyWorld)) !! "ignoredSettings"
    = Some (PStrings ["editor.fontSize"])
  ∧ (saveProfileSyncSettings 5 policyWorld).1 = Ok tt
  ∧ (document ← sync_yml (directory "work" (saveProfileSyncSettings 5 policyWorld).2);
     inheritedValue document "ignoredSettings") = Some (PStrings ["editor.fontSize"]).
Proof. split_and!; vm_compute; reflexivity. Qed.

(** [sync_settings_override_document] at [policyWorld], where the
    document of [base] loads, and at [policyOrphans], where no profile of
    the chain has a document and the call throws with the legacy document
    of [work] still there. *)
Lemma sync_settings_override_document_witness :
  extendsOf (settingsOf policyWorld (_profile policyWorld)) = Some "base"
  ∧ (loadProfileSyncSettings 5 "base" policyWorld).1
    = Ok (Fields {[ "ignoredSettings" := PStrings ["editor.fontSize"];
                    "keybindingsPerPlatform" := PBool true ]})
  ∧ (saveProfileSyncSettings 5 policyWorld).1 = Ok tt
  ∧ extendsOf (settingsOf policyOrphans (_profile policyOrphans)) = Some "base"
  ∧ Chain policyOrphans "base" ["base"]
  ∧ saveProfileSyncSettings 5 policyOrphans = (Throw SyncSettingsNotFound, policyOrphans)
  ∧ config_yml (directory "work" policyOrphans) = Some (Fields ∅).
Proof.
  assert (H1 : extendsOf (settingsOf policyWorld (_profile policyWorld)) = Some "base")
    by (vm_compute; reflexivity).
  assert (H2 : (loadProfileSyncSettings 5 "base" policyWorld).1
               = Ok (Fields {[ "ignoredSettings" := PStrings ["editor.fontSize"];
                               "keybindingsPerPlatform" := PBool true ]}))
    by (vm_compute; reflexivity).
  assert (H3 : extendsOf (settingsOf policyOrphans (_profile policyOrphans)) = Some "base")
    by (vm_compute; reflexivity).
  assert (H4 : Chain policyOrphans "base" ["base"]) by (apply chain_root; vm_compute; reflexivity).
  split; [exact H1|]. split; [exact H2|].
  split; [exact (proj1 (proj1 (sync_settings_override_document 5 policyWorld "base" H1) _ H2))|].
  split; [exact H3|]. split; [exact H4|]. split; [|reflexivity].
  apply (proj1 (proj2 (sync_settings_override_document 5 policyOrphans "base" H3)) ["base"] H4).
  - simpl. lia.
  - intros p Hp%list_elem_of_singleton. subst p. reflexivity.
Defined.

(** C4, as stated, fails.  The live value of [workbench.view] is an array
    deep-equal to the one [base] stores, and [serializeUIState] records it
    as modified in the diff document of [work]. *)
Lemma ui_state_modified_deep_equal_counterexample :
  (listProfileUIStateProperties 5 "base" arrayWorld).1
  = Ok {[ "workbench.view" := JArr [JNum 1; JNum 2] ]}
  ∧ (listEditorUIStateProperties (host := exampleHost) (Some noExtensions) arrayWorld).1
    = Ok {[ "workbench.view" := JArr [JNum 1; JNum 2] ]}
  ∧ deepEqual (JArr [JNum 1; JNum 2]) (JArr [JNum 1; JNum 2]) = true
  ∧ (data_ui_state_diff_yml
       (directory "work"
          (serializeUIState (host := exampleHost) 5 (mkProfileSettings (Some "base"))
             (Some noExtensions) arrayWorld).2)
     ≫= (fun diff => modified diff !! "workbench.view")) = Some (JArr [JNum 1; JNum 2]).
Proof. split_and!; vm_compute; reflexivity. Qed.

(** [ui_state_modified_strict] at [arrayWorld]. *)
Lemma ui_state_modified_strict_witness :
  extendsOf (mkProfileSettings (Some "base")) = Some "base"
  ∧ (listEditorUIStateProperties (host := exampleHost) (Some noExtensions) arrayWorld).1
    = Ok {[ "workbench.view" := JArr [JNum 1; JNum 2] ]}
  ∧ (listProfileUIStateProperties 5 "base" arrayWorld).1
    = Ok {[ "workbench.view" := JArr [JNum 1; JNum 2] ]}
  ∧ ∃ diff,
      serializeUIState (host := exampleHost) 5 (mkProfileSettings (Some "base"))
        (Some noExtensions) arrayWorld = saveUIStateDiff diff arrayWorld
      ∧ modified diff !! "workbench.view" = Some (JArr [JNum 1; JNum 2]).
Proof.
  assert (H1 : extendsOf (mkProfileSettings (Some "base")) = Some "base") by reflexivity.
  assert (H2 : (listEditorUIStateProperties (host := exampleHost) (Some noExtensions) arrayWorld).1
               = Ok {[ "workbench.view" := JArr [JNum 1; JNum 2] ]}) by (vm_compute; reflexivity).
  assert (H3 : (listProfileUIStateProperties 5 "base" arrayWorld).1
               = Ok {[ "workbench.view" := JArr [JNum 1; JNum 2] ]}) by (vm_compute; reflexivity).
  split; [exact H1|]. split; [exact H2|]. split; [exact H3|].
  destruct (ui_state_modified_strict (host := exampleHost) 5 arrayWorld _ "base"
              (Some noExtensions) _ _ H1 H2 H3) as (diff & Hrun & _ & _ & Harray).
  exists diff. split; [exact Hrun|].
  apply Harray; [reflexivity|]. vm_compute. reflexivity.
Defined.

(** C2: the code does not do what the claim says.  [saveSnippetsDiff] has
    written the removal of [foo.code-snippets] for [work], under the key
    [removed]; the index of the ancestor [base] is computed; and
    [listProfileSnippetHashes] throws a TypeError for [work] instead of
    returning the index without the snippet.  [listProfileSnippetPaths],
    which reads [removed], returns the index without it. *)
Theorem snippet_hashes_removal_key_mismatch :
  data_snippets_diff_yml (directory "work" snippetsWorldWithDiff)
  = Some {[ "removed" := ["foo.code-snippets"] ]}
  ∧ (listProfileSnippetHashes (host := exampleHost) 5 "base" snippetsWorldWithDiff).1
    = Ok {[ "foo.code-snippets" := "sha1:{}" ]}
  ∧ (listProfileSnippetHashes (host := exampleHost) 5 "work" snippetsWorldWithDiff).1
    = Throw TypeError
  ∧ (listProfileSnippetPaths 5 "work" snippetsWorldWithDiff).1 = Ok ∅.
Proof. split_and!; vm_compute; reflexivity. Qed.

(** C5: the code does not do what the claim says.  The stored uninstall
    list of [work] is the string array [b.y]; the decoded uninstall
    records carry the names of the stored disabled list, [c.z], instead;
    the effective list of [work] then keeps [b.y] enabled and loses
    [c.z]. *)
Theorem legacy_uninstall_decoded_from_disabled :
  raw_uninstall legacyDocument = Some (RawNames ["b.y"])
  ∧ raw_disabled legacyDocument = RawNames ["c.z"]
  ∧ decodeUninstall legacyDocument = Some [mkExt "c.z" NIL_UUID]
  ∧ (listProfileExtensions 5 "work" legacyWorld).1 = Ok (mkList None [] [ext_by] None).
Proof. split_and!; vm_compute; reflexivity. Qed.

(** C6: the code does not do what the claim says.  [work] is serialized
    from an editor that differs from [base], which writes both diff
    documents; the editor goes back to the state of [base] and [work] is
    serialized again.  The diffs computed this time are empty (from a fresh
    tree the same serialize writes no diff document), yet both documents
    of the first serialize are still on disk, and the effective UI state of
    [work] still has the panel on the right. *)
Theorem stale_diff_documents_survive :
  (serializeProfile (host := exampleHost) 5 (exampleWorld "work" freshTree changedEditor)).1 = Ok tt
  ∧ (serializeProfile (host := exampleHost) 5 (set_live revertedEditor afterFirstSerialize)).1 = Ok tt
  ∧ (let fresh := (serializeProfile (host := exampleHost) 5
                     (exampleWorld "work" freshTree revertedEditor)).2 in
     data_ui_state_diff_yml (directory "work" fresh) = None
     ∧ data_snippets_diff_yml (directory "work" fresh) = None)
  ∧ data_ui_state_diff_yml (directory "work" afterSecondSerialize)
    = Some {| modified := {[ "workbench.panel" := JStr "right" ]}; removed := [] |}
  ∧ data_snippets_diff_yml (directory "work" afterSecondSerialize)
    = Some {[ "removed" := ["foo.json"] ]}
  ∧ (listProfileUIStateProperties 5 "work" afterSecondSerialize).1
    = Ok {[ "workbench.panel" := JStr "right" ]}.
Proof. split_and!; vm_compute; try split; reflexivity. Qed.

Lemma apply_keeps_well_formed_witness :
  wellFormed storedList
  ∧ wellFormed (applyExtensionsDiff storedList twoSidedDiff).
Proof.
  assert (H1 : wellFormed storedList) by (apply (bool_decide_unpack _); vm_compute; reflexivity).
  split; [exact H1|].
  exact (proj1 (apply_keeps_well_formed storedList twoSidedDiff H1)).
Defined.

Lemma apply_membership_witness :
  wellFormed storedList
  ∧ ("a.x" ∈ ids (enabled twoSidedDiff) → "a.x" ∉ uninstallIds twoSidedDiff →
     "a.x" ∈ ids (enabled (applyExtensionsDiff storedList twoSidedDiff))
     ∧ ("a.x" ∉ ids (disabled (applyExtensionsDiff storedList twoSidedDiff)))).
Proof.
  assert (H1 : wellFormed storedList) by (apply (bool_decide_unpack _); vm_compute; reflexivity).
  split; [exact H1|].
  exact (proj1 (proj2 (apply_membership storedList twoSidedDiff "a.x" H1))).
Defined.

Lemma listProfileExtensions_replays_chain_witness :
  Chain legacyWorld "work" ["work"; "base"] ∧ (length ["work"; "base"] ≤ 2)%nat
  ∧ listProfileExtensions 2 "work" legacyWorld
    = (Ok (replayChain legacyWorld ["work"; "base"]), legacyWorld).
Proof.
  assert (H1 : Chain legacyWorld "work" ["work"; "base"]).
  { apply chain_step with (parent := "base"); [vm_compute; reflexivity|].
    apply chain_root. vm_compute. reflexivity. }
  assert (H2 : (length ["work"; "base"] ≤ 2)%nat) by (simpl; lia).
  split; [exact H1|]. split; [exact H2|].
  exact (proj1 (listProfileExtensions_replays_chain 2 legacyWorld "work" _ H1 H2)).
Defined.

Lemma listProfileExtensions_never_uninstall_witness :
  listProfileExtensions 2 "work" legacyWorld = (Ok (mkList None [] [ext_by] None), legacyWorld)
  ∧ uninstall (mkList None [] [ext_by] None) = None
  ∧ builtin (mkList None [] [ext_by] None) = None.
Proof.
  assert (H1 : listProfileExtensions 2 "work" legacyWorld
               = (Ok (mkList None [] [ext_by] None), legacyWorld)) by (vm_compute; reflexivity).
  split; [exact H1|].
  exact (listProfileExtensions_never_uninstall 2 "work" legacyWorld _ legacyWorld H1).
Defined.

Lemma effective_list_well_formed_witness :
  Chain legacyWorld "work" ["work"; "base"] ∧ (length ["work"; "base"] ≤ 2)%nat
  ∧ last ["work"; "base"] = Some "base"
  ∧ wellFormed (replayChain legacyWorld ["base"])
  ∧ ∃ l, listProfileExtensions 2 "work" legacyWorld = (Ok l, legacyWorld) ∧ wellFormed l.
Proof.
  assert (H1 : Chain legacyWorld "work" ["work"; "base"]).
  { apply chain_step with (parent := "base"); [vm_compute; reflexivity|].
    apply chain_root. vm_compute. reflexivity. }
  assert (H2 : (length ["work"; "base"] ≤ 2)%nat) by (simpl; lia).
  assert (H3 : last ["work"; "base"] = Some "base") by reflexivity.
  assert (H4 : wellFormed (replayChain legacyWorld ["base"]))
    by (apply (bool_decide_unpack _); vm_compute; reflexivity).
  split; [exact H1|]. split; [exact H2|]. split; [exact H3|]. split; [exact H4|].
  exact (effective_list_well_formed 2 legacyWorld "work" _ "base" H1 H2 H3 H4).
Defined.

Lemma getAncestorProfile_idempotent_witness :
  getAncestorProfile 5 "work" rootWithPolicy = (Ok "base", rootWithPolicy)
  ∧ extendsOf (settingsOf rootWithPolicy "base") = None
  ∧ getAncestorProfile 5 "base" rootWithPolicy = (Ok "base", rootWithPolicy).
Proof.
  assert (H1 : getAncestorProfile 5 "work" rootWithPolicy = (Ok "base", rootWithPolicy))
    by (vm_compute; reflexivity).
  split; [exact H1|].
  exact (getAncestorProfile_idempotent 5 rootWithPolicy "work" "base" H1).
Defined.

Lemma serialize_writes_own_directory_only_witness :
  "base" ≠ _profile (exampleWorld "work" freshTree changedEditor)
  ∧ profiles (serializeProfile (host := exampleHost) 5
                (exampleWorld "work" freshTree changedEditor)).2 !! "base"
    = profiles (exampleWorld "work" freshTree changedEditor) !! "base".
Proof.
  assert (H1 : "base" ≠ _profile (exampleWorld "work" freshTree changedEditor))
    by (intros Heq; discriminate Heq).
  split; [exact H1|].
  exact (serialize_writes_own_directory_only (host := exampleHost) 5 _ "base" H1).
Defined.

Lemma uninitialized_operations_throw_witness :
  _initialized (mkWorld "work" false "zokugun.sync-settings" freshTree exampleEditor []) = false
  ∧ restoreProfile (host := exampleHost) 5
      (mkWorld "work" false "zokugun.sync-settings" freshTree exampleEditor [])
    = (Throw NotInitialized,
       mkWorld "work" false "zokugun.sync-settings" freshTree exampleEditor []).
Proof.
  assert (H1 : _initialized (mkWorld "work" false "zokugun.sync-settings" freshTree exampleEditor [])
               = false) by reflexivity.
  split; [exact H1|].
  exact (proj1 (uninitialized_operations_throw (host := exampleHost) 5 _ "base" "copy" H1)).
Defined.

Lemma ui_state_reconstruction_witness :
  Chain afterFirstSerialize "work" ["work"; "base"] ∧ (length ["work"; "base"] ≤ 2)%nat
  ∧ ∃ effective, listProfileUIStateProperties 2 "work" afterFirstSerialize
                 = (Ok effective, afterFirstSerialize).
Proof.
  assert (H1 : Chain afterFirstSerialize "work" ["work"; "base"]).
  { apply chain_step with (parent := "base"); [vm_compute; reflexivity|].
    apply chain_root. vm_compute. reflexivity. }
  assert (H2 : (length ["work"; "base"] ≤ 2)%nat) by (simpl; lia).
  split; [exact H1|]. split; [exact H2|].
  destruct (ui_state_reconstruction 2 afterFirstSerialize "work" "base" [] H1 H2)
    as (effective & inherited & Hrun & _).
  exists effective. exact Hrun.
Defined.

Lemma ui_state_diff_structure_witness :
  extendsOf (mkProfileSettings (Some "base")) = Some "base"
  ∧ (listEditorUIStateProperties (host := exampleHost) (Some noExtensions) clearedWorld).1
    = Ok ∅
  ∧ (listProfileUIStateProperties 5 "base" clearedWorld).1
    = Ok {[ "workbench.view" := JArr [JNum 1; JNum 2] ]}
  ∧ ∃ diff, "workbench.view" ∈ removed diff
      ∧ modified diff = ∅
      ∧ serializeUIState (host := exampleHost) 5 (mkProfileSettings (Some "base"))
          (Some noExtensions) clearedWorld
        = (Ok tt, (writeFile (getDiffUIStatePath (_profile clearedWorld)) diff clearedWorld).2).
Proof.
  assert (H1 : extendsOf (mkProfileSettings (Some "base")) = Some "base") by reflexivity.
  assert (H2 : (listEditorUIStateProperties (host := exampleHost) (Some noExtensions)
                  clearedWorld).1 = Ok ∅) by (vm_compute; reflexivity).
  assert (H3 : (listProfileUIStateProperties 5 "base" clearedWorld).1
               = Ok {[ "workbench.view" := JArr [JNum 1; JNum 2] ]}) by (vm_compute; reflexivity).
  split; [exact H1|]. split; [exact H2|]. split; [exact H3|].
  destruct (ui_state_diff_structure (host := exampleHost) 5 clearedWorld _ "base"
              (Some noExtensions) _ _ H1 H2 H3) as (diff & Hm & Hr & _ & _ & Hrun).
  assert (Hin : "workbench.view" ∈ removed diff).
  { apply Hr. split; [eexists; vm_compute; reflexivity|vm_compute; reflexivity]. }
  exists diff. split; [exact Hin|]. split; [rewrite Hm; vm_compute; reflexivity|].
  rewrite Hrun. rewrite bool_decide_eq_false_2; [reflexivity|].
  intros [Hnil _]. rewrite Hnil in Hin. by apply elem_of_nil in Hin.
Defined.

Lemma ui_state_round_trip_root_witness :
  extendsOf (settingsOf restartWorld (_profile restartWorld)) = None
  ∧ (listEditorUIStateProperties (host := exampleHost) (Some noExtensions) restartWorld).1
    = Ok {[ "workbench.panel" := JStr "right" ]}
  ∧ listProfileUIStateProperties 1 (_profile restartWorld)
      (serializeUIState (host := exampleHost) 1 (settingsOf restartWorld (_profile restartWorld))
         (Some noExtensions) restartWorld).2
    = (Ok {[ "workbench.panel" := JStr "right" ]},
       (serializeUIState (host := exampleHost) 1 (settingsOf restartWorld (_profile restartWorld))
          (Some noExtensions) restartWorld).2).
Proof.
  assert (H1 : extendsOf (settingsOf restartWorld (_profile restartWorld)) = None)
    by (vm_compute; reflexivity).
  assert (H2 : (listEditorUIStateProperties (host := exampleHost) (Some noExtensions)
                  restartWorld).1 = Ok {[ "workbench.panel" := JStr "right" ]})
    by (vm_compute; reflexivity).
  split; [exact H1|]. split; [exact H2|].
  exact (proj2 (ui_state_round_trip_root (host := exampleHost) 1 0 restartWorld
                  (Some noExtensions) _ H1 H2)).
Defined.

Lemma ui_state_round_trip_inheriting_witness :
  let w := exampleWorld "work" freshTree changedEditor in
  extendsOf (settingsOf w (_profile w)) = Some "base"
  ∧ Chain w "base" ["base"] ∧ (_profile w ∉ ["base"]) ∧ (length ["base"] ≤ 1)%nat
  ∧ (listEditorUIStateProperties (host := exampleHost) (Some noExtensions) w).1
    = Ok {[ "workbench.panel" := JStr "right" ]}
  ∧ data_ui_state_diff_yml (directory (_profile w) w) = None
  ∧ listProfileUIStateProperties 2 (_profile w)
      (serializeUIState (host := exampleHost) 1 (settingsOf w (_profile w))
         (Some noExtensions) w).2
    = (Ok {[ "workbench.panel" := JStr "right" ]},
       (serializeUIState (host := exampleHost) 1 (settingsOf w (_profile w))
          (Some noExtensions) w).2).
Proof.
  intros w.
  assert (H1 : extendsOf (settingsOf w (_profile w)) = Some "base") by (vm_compute; reflexivity).
  assert (H2 : Chain w "base" ["base"]) by (apply chain_root; vm_compute; reflexivity).
  assert (H3 : _profile w ∉ ["base"]).
  { intros Hin%list_elem_of_singleton. discriminate Hin. }
  assert (H4 : (length ["base"] ≤ 1)%nat) by (simpl; lia).
  assert (H5 : (listEditorUIStateProperties (host := exampleHost) (Some noExtensions) w).1
               = Ok {[ "workbench.panel" := JStr "right" ]}) by (vm_compute; reflexivity).
  assert (H6 : data_ui_state_diff_yml (directory (_profile w) w) = None)
    by (vm_compute; reflexivity).
  split; [exact H1|]. split; [exact H2|]. split; [exact H3|]. split; [exact H4|].
  split; [exact H5|]. split; [exact H6|].
  exact (proj2 (ui_state_round_trip_inheriting (host := exampleHost) 1 w "base" ["base"]
                  (Some noExtensions) _ H1 H2 H3 H4 H5 (or_introl H6))).
Defined.

Lemma editor_lists_exclusive_witness :
  let w := exampleWorld "base" freshTree extensionsEditor in
  listEditorExtensions (PStrings []) w = (Ok (mkList None [ext_cz] [ext_ax] None), w)
  ∧ ∀ i, i ∈ ids [ext_ax] → i ∉ ids [ext_cz].
Proof.
  intros w.
  assert (H1 : listEditorExtensions (PStrings []) w = (Ok (mkList None [ext_cz] [ext_ax] None), w))
    by (vm_compute; reflexivity).
  split; [exact H1|].
  exact (proj1 (proj2 (editor_lists_exclusive (PStrings []) w _ w H1))).
Defined.

Lemma extensions_round_trip_root_witness :
  let w := exampleWorld "base" freshTree extensionsEditor in
  extendsOf (settingsOf w (_profile w)) = None
  ∧ (listEditorExtensions
       (default (PStrings []) (effectiveValue (configuration (live w)) !! "ignoredExtensions")) w).1
    = Ok (mkList None [ext_cz] [ext_ax] None)
  ∧ listProfileExtensions 1 (_profile w) (serializeExtensions 1 (settingsOf w (_profile w)) w).2
    = (Ok (mkList None [ext_cz] [ext_ax] None),
       (serializeExtensions 1 (settingsOf w (_profile w)) w).2).
Proof.
  intros w.
  assert (H1 : extendsOf (settingsOf w (_profile w)) = None) by (vm_compute; reflexivity).
  assert (H2 : (listEditorExtensions
                  (default (PStrings [])
                     (effectiveValue (configuration (live w)) !! "ignoredExtensions")) w).1
               = Ok (mkList None [ext_cz] [ext_ax] None)) by (vm_compute; reflexivity).
  split; [exact H1|]. split; [exact H2|].
  exact (proj2 (proj2 (extensions_round_trip_root 1 0 w _ H1 H2))).
Defined.

Lemma extensions_round_trip_inheriting_witness :
  let w := set_live extensionsEditor legacyWorld in
  extendsOf (settingsOf w (_profile w)) = Some "base"
  ∧ Chain w "base" ["base"] ∧ (_profile w ∉ ["base"]) ∧ (length ["base"] ≤ 1)%nat
  ∧ (listEditorExtensions
       (default (PStrings []) (effectiveValue (configuration (live w)) !! "ignoredExtensions")) w).1
    = Ok (mkList None [ext_cz] [ext_ax] None)
  ∧ wellFormed (mkList None [ext_cz] [ext_ax] None)
  ∧ wellFormed (replayChain w ["base"])
  ∧ (serializeExtensions 1 (settingsOf w (_profile w)) w).1
    = Ok (mkList None [ext_cz] [ext_ax] None).
Proof.
  intros w.
  assert (H1 : extendsOf (settingsOf w (_profile w)) = Some "base") by (vm_compute; reflexivity).
  assert (H2 : Chain w "base" ["base"]) by (apply chain_root; vm_compute; reflexivity).
  assert (H3 : _profile w ∉ ["base"]).
  { intros Hin%list_elem_of_singleton. discriminate Hin. }
  assert (H4 : (length ["base"] ≤ 1)%nat) by (simpl; lia).
  assert (H5 : (listEditorExtensions
                  (default (PStrings [])
                     (effectiveValue (configuration (live w)) !! "ignoredExtensions")) w).1
               = Ok (mkList None [ext_cz] [ext_ax] None)) by (vm_compute; reflexivity).
  assert (H6 : wellFormed (mkList None [ext_cz] [ext_ax] None))
    by (apply (bool_decide_unpack _); vm_compute; reflexivity).
  assert (H7 : wellFormed (replayChain w ["base"]))
    by (apply (bool_decide_unpack _); vm_compute; reflexivity).
  split; [exact H1|]. split; [exact H2|]. split; [exact H3|]. split; [exact H4|].
  split; [exact H5|]. split; [exact H6|]. split; [exact H7|].
  exact (proj1 (extensions_round_trip_inheriting 1 w "base" ["base"] _ H1 H2 H3 H4 H5 H6 H7)).
Defined.

Lemma snippet_paths_point_to_files_witness :
  (listProfileSnippetPaths 2 "work" snippetsWorld).1
  = Ok {[ "foo.code-snippets" := ("base", "foo.code-snippets") ]}
  ∧ ({[ "foo.code-snippets" := ("base", "foo.code-snippets") ]} : gmap string (string * string))
    !! "foo.code-snippets" = Some ("base", "foo.code-snippets")
  ∧ is_Some (ownSnippets snippetsWorld "base" !! "foo.code-snippets").
Proof.
  assert (H1 : (listProfileSnippetPaths 2 "work" snippetsWorld).1
               = Ok {[ "foo.code-snippets" := ("base", "foo.code-snippets") ]})
    by (vm_compute; reflexivity).
  assert (H2 : ({[ "foo.code-snippets" := ("base", "foo.code-snippets") ]}
                  : gmap string (string * string))
               !! "foo.code-snippets" = Some ("base", "foo.code-snippets"))
    by (vm_compute; reflexivity).
  split; [exact H1|]. split; [exact H2|].
  exact (proj2 (snippet_paths_point_to_files 2 "work" snippetsWorld _ _ _ _ H1 H2)).
Defined.

(** The names of a finite map of files have no directory part as soon
    as the check computes so. *)
Lemma flat_names {A} (files : gmap string A) :
  forallb (fun name => negb (nested name)) (map_to_list files).*1 = true →
  ∀ name, is_Some (files !! name) → nested name = false.
Proof.
  intros Hall name [data Hdata].
  apply negb_true_iff. revert Hall. rewrite forallb_forall. intros Hall. apply Hall.
  apply list_elem_of_In, list_elem_of_fmap. exists (name, data).
  split; [done|]. by apply elem_of_map_to_list.
Qed.

Lemma restore_snippets_result_witness :
  removedNames snippetsWorld (_profile snippetsWorld) = Some []
  ∧ (listProfileSnippetPaths 2 (_profile snippetsWorld) snippetsWorld).1
    = Ok {[ "foo.code-snippets" := ("base", "foo.code-snippets") ]}
  ∧ ∃ w' files, restoreSnippets 2 snippetsWorld = (Ok tt, w')
                ∧ snippets (live w') = Some files
                ∧ files !! "foo.code-snippets" = Some "{}".
Proof.
  assert (H1 : removedNames snippetsWorld (_profile snippetsWorld) = Some [])
    by (vm_compute; reflexivity).
  assert (H2 : (listProfileSnippetPaths 2 (_profile snippetsWorld) snippetsWorld).1
               = Ok {[ "foo.code-snippets" := ("base", "foo.code-snippets") ]})
    by (vm_compute; reflexivity).
  assert (H3 : ∀ name,
             is_Some (({[ "foo.code-snippets" := ("base", "foo.code-snippets") ]}
                         : gmap string (string * string)) !! name) →
             name ∉ ([] : list string) → nested name = false).
  { intros name Hname _. revert name Hname. refine (flat_names _ _). vm_compute. reflexivity. }
  split; [exact H1|]. split; [exact H2|].
  destruct (proj1 (restore_snippets_result 2 snippetsWorld _ _ H1 H2) H3)
    as (w' & files & Hrun & _ & Hlive & Hfiles).
  exists w', files. split; [exact Hrun|]. split; [exact Hlive|].
  rewrite Hfiles. vm_compute. reflexivity.
Defined.

Lemma serialize_snippets_root_witness :
  extendsOf (mkProfileSettings None) = None
  ∧ data_snippets (directory "base"
      (serializeSnippets (host := exampleHost) 2 (mkProfileSettings None) (editingWorld "base")).2)
    = Some {[ "foo.code-snippets" := "{}"; "new.code-snippets" := "{n}" ]}
  ∧ (serializeSnippets (host := exampleHost) 2 (mkProfileSettings None) (nestedWorld "base")).1
    = Throw NoSuchFile.
Proof.
  assert (H1 : extendsOf (mkProfileSettings None) = None) by reflexivity.
  assert (H2 : ∀ name, is_Some (liveSnippets (editingWorld "base") !! name) → nested name = false)
    by (refine (flat_names _ _); vm_compute; reflexivity).
  assert (H3 : ∃ name, is_Some (liveSnippets (nestedWorld "base") !! name) ∧ nested name = true).
  { exists "sub/foo.code-snippets". split; [eexists|]; vm_compute; reflexivity. }
  split; [exact H1|]. split.
  - rewrite (proj1 (serialize_snippets_root (host := exampleHost) 2 (editingWorld "base") _ H1) H2).
    vm_compute. reflexivity.
  - exact (proj2 (serialize_snippets_root (host := exampleHost) 2 (nestedWorld "base") _ H1) H3).
Defined.

Lemma serialize_snippets_inheriting_witness :
  extendsOf (mkProfileSettings (Some "base")) = Some "base"
  ∧ (listProfileSnippetHashes (host := exampleHost) 2 "base" (editingWorld "work")).1
    = Ok {[ "foo.code-snippets" := "sha1:{}" ]}
  ∧ let w1 := (serializeSnippets (host := exampleHost) 2 (mkProfileSettings (Some "base"))
                 (editingWorld "work")).2 in
    data_snippets (directory "work" w1) = Some {[ "new.code-snippets" := "{n}" ]}
    ∧ data_snippets_diff_yml (directory "work" w1)
      = Some {[ "removed" := ["new.code-snippets"] ]}.
Proof.
  assert (H1 : extendsOf (mkProfileSettings (Some "base")) = Some "base") by reflexivity.
  assert (H2 : (listProfileSnippetHashes (host := exampleHost) 2 "base" (editingWorld "work")).1
               = Ok {[ "foo.code-snippets" := "sha1:{}" ]}) by (vm_compute; reflexivity).
  assert (H3 : ∀ name,
             is_Some (storedSnippets (host := exampleHost) {[ "foo.code-snippets" := "sha1:{}" ]}
                        (liveSnippets (editingWorld "work")) !! name) → nested name = false)
    by (refine (flat_names _ _); vm_compute; reflexivity).
  assert (H4 : removedSnippets {[ "foo.code-snippets" := "sha1:{}" ]}
                 (liveSnippets (editingWorld "work")) = ["new.code-snippets"])
    by (vm_compute; reflexivity).
  split; [exact H1|]. split; [exact H2|].
  destruct (proj1 (proj1 (serialize_snippets_inheriting (host := exampleHost) 2
                            (editingWorld "work") _ "base" H1) _ H2) H3)
    as (removed & Hremoved & Hrun).
  rewrite H4 in Hremoved. apply Permutation_singleton_r in Hremoved. subst removed.
  cbv zeta. rewrite Hrun. split; vm_compute; reflexivity.
Defined.



Lemma sync_settings_root_save_load_witness :
  let w := exampleWorld "base" policyTree exampleEditor in
  extendsOf (settingsOf w (_profile w)) = None
  ∧ (saveProfileSyncSettings 1 w).1 = Ok tt
  ∧ loadProfileSyncSettings 1 "base" (saveProfileSyncSettings 1 w).2
    = (Throw SyncSettingsNotFound, (saveProfileSyncSettings 1 w).2).
Proof.
  intros w.
  assert (H1 : extendsOf (settingsOf w (_profile w)) = None) by (vm_compute; reflexivity).
  split; [exact H1|].
  destruct (sync_settings_root_save_load 1 0 w H1) as (Hsave & _ & Hthrow).
  split; [exact Hsave|]. apply Hthrow.
  intros (property & _ & [value Hvalue]). vm_compute in Hvalue. discriminate Hvalue.
Defined.

Lemma restore_ui_state_overlay_witness :
  (listProfileUIStateProperties 2 (_profile arrayWorld) arrayWorld).1
  = Ok {[ "workbench.view" := JArr [JNum 1; JNum 2] ]}
  ∧ ∃ rows,
      restoreUIState (host := exampleHost) 2 arrayWorld
      = writeStateDB rows arrayWorld
      ∧ ("workbench.view", JArr [JNum 1; JNum 2]) ∈ rows.
Proof.
  assert (H1 : (listProfileUIStateProperties 2 (_profile arrayWorld) arrayWorld).1
               = Ok {[ "workbench.view" := JArr [JNum 1; JNum 2] ]}) by (vm_compute; reflexivity).
  split; [exact H1|].
  destruct (proj1 (proj2 (restore_ui_state_overlay (host := exampleHost) 2 arrayWorld _ H1)))
    as (rows & Hrun & _ & Hrows).
  { intros Hempty. apply (f_equal (fun m : gmap string jsval => m !! "workbench.view")) in Hempty.
    vm_compute in Hempty. discriminate Hempty. }
  exists rows. split; [exact Hrun|].
  apply Hrows. exists (JArr [JNum 1; JNum 2]). split; vm_compute; reflexivity.
Defined.

Lemma extended_profile_inherits_witness :
  _initialized snippetsWorld = true
  ∧ profiles snippetsWorld !! "fresh" = None
  ∧ "base" ≠ ""
  ∧ Chain snippetsWorld "base" ["base"] ∧ ("fresh" ∉ ["base"]) ∧ (length ["base"] ≤ 1)%nat
  ∧ Chain (extendProfileTo "base" "fresh" snippetsWorld).2 "fresh" ["fresh"; "base"].
Proof.
  assert (H1 : _initialized snippetsWorld = true) by reflexivity.
  assert (H2 : profiles snippetsWorld !! "fresh" = None) by (vm_compute; reflexivity).
  assert (H3 : "base" ≠ "") by discriminate.
  assert (H4 : Chain snippetsWorld "base" ["base"]) by (apply chain_root; vm_compute; reflexivity).
  assert (H5 : "fresh" ∉ ["base"]).
  { intros Hin%list_elem_of_singleton. discriminate Hin. }
  assert (H6 : (length ["base"] ≤ 1)%nat) by (simpl; lia).
  split; [exact H1|]. split; [exact H2|]. split; [exact H3|]. split; [exact H4|].
  split; [exact H5|]. split; [exact H6|].
  destruct (extended_profile_inherits 1 snippetsWorld "base" "fresh" ["base"] H1 H2 H3 H4 H5 H6)
    as (_ & _ & _ & _ & Hchain & _).
  exact Hchain.
Defined.
